(** * BTC savings-plan service: scan, dispatch, execute, reschedule

    A shallow embedding of the three Lambda-side modules of the repository

      - [lambda/scheduler/scanner.ts]          (module [Scanner])
      - [lambda/transaction/executor.ts]       (module [Executor])
      - [lambda/transaction/exchange-client.ts] (module [ExchangeClient])

    together with the data contracts of [lambda/scheduler/types.ts] and the
    parts of the JavaScript run time the handlers lean on ([Date], [parseInt],
    the [||] default operator).

    The AWS collaborators are modelled as plain data inside a [World]:
    the two DynamoDB tables are finite maps keyed by (partition, sort) key,
    the FIFO queue and the event bus are lists of accepted requests, in
    the order in which they were accepted.  Calls are [async] in the
    source.  Where the caller awaits them one after the other, as the
    Executor does throughout, a handler is a state-and-exception
    computation in which every [await] is a sequencing point.  Where the
    caller starts several at once and joins them, as the Scanner does with
    the plans of a batch, the function is kept as the sequence of its
    awaited calls, and the calls of the functions in flight are answered
    in an order that the environment chooses.

    What lies outside the code is gathered in an [Env]: the configuration,
    the clock, the identifiers and random numbers drawn, and the answers
    of the queue, the bus and the secret store, each of which may be an
    error.  The tables refuse a request only through its condition
    expression or its parameters.  Numbers are doubles: a finite double is
    the rational it stands for, and the arithmetic of the exchange client
    rounds to the nearest double.  Console output is left out.

    Beside the handlers the file holds the closed forms they are compared
    with (modules [Dispatch] and [Batch]), the defaults the client hands
    to its HTTP library ([Axios]), the request interceptor ([Signing],
    over an arbitrary keyed hash and serialiser) and the retry settings
    of [lib/constructs/scheduler-service.ts] ([SchedulerService]). *)

From Stdlib Require Import ZArith QArith Qabs Qround Lia Ascii String.
From stdpp Require Import base option list gmap strings pretty fin_maps sorting.

Local Open Scope Z_scope.

(* ===================================================================== *)
(** * JavaScript run-time values *)
(* ===================================================================== *)

(** A thrown JavaScript [Error]: its [name] and [message].  Errors raised
    by the HTTP library additionally carry the response they stem from. *)
Record AxiosResponse := mkAxiosResponse {
  resp_status     : Z;
  resp_statusText : string;
  resp_data       : string;
}.

Inductive Thrown :=
| ErrorObj (name message : string)
| AxiosError (message : string) (response : option AxiosResponse)
| NonError (payload : string).

Definition is_Error (e : Thrown) : bool :=
  match e with NonError _ => false | _ => true end.

Definition error_message (e : Thrown) : string :=
  match e with
  | ErrorObj _ m => m
  | AxiosError m _ => m
  | NonError _ => "undefined"
  end.

(** [new Error(msg)] *)
Definition new_Error (msg : string) : Thrown := ErrorObj "Error" msg.

(** How a statement list ends: normally with a value, or abruptly. *)
Inductive Completion (A : Type) :=
| Return (a : A)
| Throw (e : Thrown).
Arguments Return {A} a.
Arguments Throw {A} e.

Definition is_Return {A} (c : Completion A) : bool :=
  match c with Return _ => true | Throw _ => false end.

Definition is_Throw {A} (c : Completion A) : bool := negb (is_Return c).

(** ** [parseInt(s, 10)]

    Leading (ASCII) white space is skipped, one sign is accepted, then the
    longest run of decimal digits is read.  No digit at all gives [NaN],
    here [None]. *)
Module JsParse.

Definition is_space (c : ascii) : bool :=
  let n := nat_of_ascii c in
  ((n =? 32) || (n =? 9) || (n =? 10) || (n =? 11) || (n =? 12) || (n =? 13))%nat.

Definition digit_of (c : ascii) : option Z :=
  let n := Z.of_nat (nat_of_ascii c) in
  if (48 <=? n) && (n <=? 57) then Some (n - 48) else None.

Fixpoint skip_spaces (s : string) : string :=
  match s with
  | String c s' => if is_space c then skip_spaces s' else s
  | EmptyString => s
  end.

(** Reads digits left to right; [acc] is [None] until a digit was seen. *)
Fixpoint read_digits (s : string) (acc : option Z) : option Z :=
  match s with
  | String c s' =>
      match digit_of c with
      | Some d => read_digits s' (Some (10 * default 0 acc + d))
      | None => acc
      end
  | EmptyString => acc
  end.

Definition parseInt (s : string) : option Z :=
  match skip_spaces s with
  | String "-" s' => Z.opp <$> read_digits s' None
  | String "+" s' => read_digits s' None
  | s' => read_digits s' None
  end.

End JsParse.

(** [a >= b] on numbers, where [b] may be [NaN]: every comparison with
    [NaN] is [false]. *)
Definition js_ge (a : Z) (b : option Z) : bool :=
  match b with Some m => m <=? a | None => false end.

(** ** Numbers

    A JavaScript number is an IEEE 754 double. A finite double is kept as
    the rational it stands for; the result of an arithmetic operation is
    the exact result rounded to 53 significant bits, to the nearest
    double and to the even one of two that are equally near. The range of
    the exponent is left out: the amounts this program computes with come
    from a store whose numbers have magnitudes from 1E-130 to 1E+126, and
    are scaled by factors between 1/70000 and 1. *)
Module Double.

(** The integer nearest to [n / d], the even one of two equally near. *)
Definition nearest_even (n : Z) (d : positive) : Z :=
  let q := n / Zpos d in
  match 2 * (n mod Zpos d) ?= Zpos d with
  | Lt => q
  | Gt => q + 1
  | Eq => if Z.even q then q else q + 1
  end.

(** [q * 2 ^ e] *)
Definition scale (q : Q) (e : Z) : Q :=
  match e with
  | Z0 => q
  | Zpos p => Qmake (Qnum q * 2 ^ Zpos p) (Qden q)
  | Zneg p => Qmake (Qnum q) (Qden q * 2 ^ p)
  end.

(** The exponent [e] of the unit in the last place of a number that is
    not zero: [2 ^ 52 <= |q| / 2 ^ e < 2 ^ 53]. *)
Definition ulp_exponent (q : Q) : Z :=
  let e := Z.log2 (Z.abs (Qnum q)) - Z.log2 (Zpos (Qden q)) - 52 in
  if Qle_bool (scale 1 (e + 52)) (Qabs q) then e else e - 1.

(** The double nearest to [q]. *)
Definition round (q : Q) : Q :=
  if Qeq_bool q 0 then 0%Q
  else
    let e := ulp_exponent q in
    let m := scale q (- e) in
    Qred (scale (inject_Z (nearest_even (Qnum m) (Qden m))) e).

(** [a + b], [a * b] and [a / b] on doubles. *)
Definition add (a b : Q) : Q := round (a + b).
Definition mul (a b : Q) : Q := round (a * b).
Definition div (a b : Q) : Q := round (a / b).

End Double.

(* ===================================================================== *)
(** * The [Date] object, in the Lambda run time's UTC time zone

    The definitions below are the abstract operations of ECMA-262
    (section "Date objects") that [getDate], [setDate], [getMonth],
    [setMonth] and [getTime] are specified by.  Lambda fixes [TZ] to UTC,
    so [LocalTime] and [UTC] are the identity.  A time value is a number of
    milliseconds since the epoch; an invalid date holds [NaN] ([None]). *)
(* ===================================================================== *)
Module JsDate.

Definition msPerDay : Z := 86400000.
Definition maxTime : Z := 8640000000000000.

Definition Day (t : Z) : Z := t / msPerDay.
Definition TimeWithinDay (t : Z) : Z := t mod msPerDay.

Definition DayFromYear (y : Z) : Z :=
  365 * (y - 1970) + (y - 1969) / 4 - (y - 1901) / 100 + (y - 1601) / 400.

Definition isLeap (y : Z) : bool :=
  if negb (y mod 4 =? 0) then false
  else if negb (y mod 100 =? 0) then true
  else if negb (y mod 400 =? 0) then false
  else true.

Definition DaysInYear (y : Z) : Z := if isLeap y then 366 else 365.

(** 1 in a leap year, 0 otherwise. *)
Definition leapDay (y : Z) : Z := if isLeap y then 1 else 0.

(** "The largest integer [y] such that [TimeFromYear y <= t]": found among
    the three candidates around the mean-year estimate (see
    [YearFromDay_spec] and [YearFromDay_unique]). *)
Definition YearFromDay (d : Z) : Z :=
  let y0 := 1970 + (400 * d) / 146097 in
  if DayFromYear (y0 + 1) <=? d then y0 + 1
  else if DayFromYear y0 <=? d then y0
  else y0 - 1.

Definition YearFromTime (t : Z) : Z := YearFromDay (Day t).

Definition InLeapYear (t : Z) : Z := leapDay (YearFromTime t).

Definition DayWithinYear (t : Z) : Z := Day t - DayFromYear (YearFromTime t).

(** First day-within-year of month [m] (0 = January); [l] is 1 in a leap
    year.  [monthStart 12] is the length of the year. *)
Definition monthStart (m l : Z) : Z :=
  match m with
  | 0 => 0
  | 1 => 31
  | 2 => 59 + l
  | 3 => 90 + l
  | 4 => 120 + l
  | 5 => 151 + l
  | 6 => 181 + l
  | 7 => 212 + l
  | 8 => 243 + l
  | 9 => 273 + l
  | 10 => 304 + l
  | 11 => 334 + l
  | _ => 365 + l
  end.

Definition monthOfDay (d l : Z) : Z :=
  if d <? 31 then 0
  else if d <? 59 + l then 1
  else if d <? 90 + l then 2
  else if d <? 120 + l then 3
  else if d <? 151 + l then 4
  else if d <? 181 + l then 5
  else if d <? 212 + l then 6
  else if d <? 243 + l then 7
  else if d <? 273 + l then 8
  else if d <? 304 + l then 9
  else if d <? 334 + l then 10
  else 11.

Definition MonthFromTime (t : Z) : Z := monthOfDay (DayWithinYear t) (InLeapYear t).

Definition DateFromTime (t : Z) : Z :=
  DayWithinYear t - monthStart (MonthFromTime t) (InLeapYear t) + 1.

Definition DaysInMonth (y m : Z) : Z :=
  monthStart (m + 1) (leapDay y) - monthStart m (leapDay y).

(** [MakeDay]: month overflow carries into the year, then the day number
    of the first of that month is offset by [date - 1]; [date] is not
    clamped to the length of the month. *)
Definition MakeDay (year month date : Z) : Z :=
  let ym := year + month / 12 in
  let mn := month mod 12 in
  DayFromYear ym + monthStart mn (leapDay ym) + date - 1.

Definition MakeDate (day time : Z) : Z := day * msPerDay + time.

Definition TimeClip (time : Z) : option Z :=
  if maxTime <? Z.abs time then None else Some time.

(** A [Date] object is its time value. *)
Definition Date := option Z.

Definition getTime (d : Date) : option Z := d.
Definition getDate (d : Date) : option Z := DateFromTime <$> d.
Definition getMonth (d : Date) : option Z := MonthFromTime <$> d.

(** [d.setDate(dt)] and [d.setMonth(m)]: the new time value of [d]. *)
Definition setDate (d : Date) (dt : option Z) : Date :=
  t ← d; dt ← dt;
  TimeClip (MakeDate (MakeDay (YearFromTime t) (MonthFromTime t) dt) (TimeWithinDay t)).

Definition setMonth (d : Date) (m : option Z) : Date :=
  t ← d; m ← m;
  TimeClip (MakeDate (MakeDay (YearFromTime t) m (DateFromTime t)) (TimeWithinDay t)).

(** [Date.UTC(year, month-1, day)], for writing test instants. *)
Definition utc (y m d : Z) : Z := MakeDate (MakeDay y (m - 1) d) 0.

End JsDate.


(* ===================================================================== *)
(** * Data contracts ([lambda/scheduler/types.ts]) *)
(* ===================================================================== *)

(** [SavingsPlanFrequency] is a string enum; a row read back from the
    store is cast unchecked, so at run time the field is any string. *)
Definition SavingsPlanFrequency := string.
Definition DAILY : SavingsPlanFrequency := "DAILY".
Definition WEEKLY : SavingsPlanFrequency := "WEEKLY".
Definition BIWEEKLY : SavingsPlanFrequency := "BIWEEKLY".
Definition MONTHLY : SavingsPlanFrequency := "MONTHLY".

Inductive SavingsPlanStatus :=
| ACTIVE | PAUSED | PENDING_EXECUTION | EXECUTING | COMPLETED | CANCELLED | FAILED.

#[global] Instance SavingsPlanStatus_eq_dec : EqDecision SavingsPlanStatus.
Proof. solve_decision. Defined.

(** The status of a transaction row: ['PENDING' | 'COMPLETED' | 'FAILED']. *)
Inductive TransactionStatus := TX_PENDING | TX_COMPLETED | TX_FAILED.

#[global] Instance TransactionStatus_eq_dec : EqDecision TransactionStatus.
Proof. solve_decision. Defined.

Inductive EventType :=
| PLAN_CREATED | PLAN_UPDATED | PLAN_DELETED
| EXECUTION_SCHEDULED | EXECUTION_STARTED | EXECUTION_COMPLETED | EXECUTION_FAILED.

#[global] Instance EventType_eq_dec : EqDecision EventType.
Proof. solve_decision. Defined.

(** An ISO-8601 time stamp, kept as the instant (ms since the epoch) it
    denotes: [new Date().toISOString()] is the clock reading. *)
Definition IsoTime := Z.

(** Values of [Record<string, any>] objects (event details, metadata,
    error details). *)
Inductive Json :=
| JUndefined
| JNull
| JBool (b : bool)
| JNumber (q : Q)
| JString (s : string)
| JTime (t : IsoTime).

Definition JInt (z : Z) : Json := JNumber (inject_Z z).

(** An optional field: [undefined] when absent. *)
Definition JOpt {A} (f : A → Json) (o : option A) : Json := from_option f JUndefined o.

(** A number that may be [NaN]; [JSON.stringify] writes [NaN] as [null]. *)
Definition JNum (n : option Z) : Json := from_option JInt JNull n.

Record SavingsPlan := mkSavingsPlan {
  plan_userId            : string;
  plan_planId            : string;
  plan_amount            : Q;
  plan_frequency         : SavingsPlanFrequency;
  plan_sourceOfFunds     : string;
  plan_status            : SavingsPlanStatus;
  plan_nextExecutionTime : Z;
  plan_startDate         : IsoTime;
  plan_endDate           : option IsoTime;
  plan_createdAt         : IsoTime;
  plan_updatedAt         : IsoTime;
}.

Record SavingsPlanTransaction := mkTransaction {
  tx_userId        : string;
  tx_transactionId : string;
  tx_planId        : string;
  tx_amount        : Q;
  tx_bitcoinAmount : Q;
  tx_exchangeRate  : Q;
  tx_status        : TransactionStatus;
  tx_timestamp     : IsoTime;
  tx_errorMessage  : option string;
  tx_metadata      : gmap string Json;
}.

Record SchedulerExecutionEvent := mkExecutionEvent {
  ev_userId        : string;
  ev_planId        : string;
  ev_executionTime : IsoTime;
  ev_executionId   : string;
  ev_attemptCount  : Z;
}.

Record BitcoinPurchaseResult := mkPurchaseResult {
  res_success               : bool;
  res_exchangeTransactionId : option string;
  res_bitcoinAmount         : option Q;
  res_exchangeRate          : option Q;
  res_fees                  : option Q;
  res_errorMessage          : option string;
  res_errorDetails          : option (gmap string Json);
}.

(** [x || 0] on an optional number: [undefined] and [0] are falsy. *)
Definition or_zero (x : option Q) : Q :=
  match x with
  | Some q => if Qeq_bool q 0 then 0%Q else q
  | None => 0%Q
  end.

(** [SET #status = :status, #updatedAt = :updatedAt] *)
Definition with_status (status : SavingsPlanStatus) (updatedAt : IsoTime)
    (p : SavingsPlan) : SavingsPlan :=
  mkSavingsPlan (plan_userId p) (plan_planId p) (plan_amount p) (plan_frequency p)
    (plan_sourceOfFunds p) status (plan_nextExecutionTime p) (plan_startDate p)
    (plan_endDate p) (plan_createdAt p) updatedAt.

(** [SET #status = :status, #nextExecution = :nextExecution, #updatedAt = :updatedAt] *)
Definition with_schedule (status : SavingsPlanStatus) (nextExecution : Z)
    (updatedAt : IsoTime) (p : SavingsPlan) : SavingsPlan :=
  mkSavingsPlan (plan_userId p) (plan_planId p) (plan_amount p) (plan_frequency p)
    (plan_sourceOfFunds p) status nextExecution (plan_startDate p)
    (plan_endDate p) (plan_createdAt p) updatedAt.

(** The key of a plan row: partition key [userId], sort key [planId]. *)
Definition plan_key (p : SavingsPlan) : string * string := (plan_userId p, plan_planId p).

(** The key of a transaction row: [userId], then [transactionId]. *)
Definition tx_key (t : SavingsPlanTransaction) : string * string :=
  (tx_userId t, tx_transactionId t).

(* ===================================================================== *)
(** * The collaborators: stores, queue, event bus, environment *)
(* ===================================================================== *)

Record ExchangeConfig := mkExchangeConfig {
  cfg_apiKey     : string;
  cfg_apiSecret  : string;
  cfg_baseUrl    : string;
  cfg_timeout    : option Z;
  cfg_useSandbox : option bool;
}.

(** A client instance is determined by the configuration it was built
    from (its HTTP client is created from that configuration). *)
Record BitcoinExchangeClient := mkClient { client_config : ExchangeConfig }.

(** [sqs.sendMessage] parameters. The body is kept as the event that
    [JSON.stringify] serialises and [JSON.parse] gives back. *)
Record SendMessageRequest := mkSendMessage {
  QueueUrl               : string;
  MessageBody            : SchedulerExecutionEvent;
  MessageDeduplicationId : string;
  MessageGroupId         : string;
}.

(** One [eventBridge.putEvents] entry; [Detail] is the object that is
    serialised into the entry. *)
Record PutEventsEntry := mkEntry {
  Source       : string;
  DetailType   : EventType;
  Detail       : gmap string Json;
  EventBusName : string;
}.

(** Everything the handlers read or write that outlives a statement.
    [uuidCount] and [randomCount] count the calls made so far to
    [uuidv4()] and [Math.random()]; [exchangeClient] is the module-level
    variable of [executor.ts]. *)
Record World := mkWorld {
  plansTable        : gmap (string * string) SavingsPlan;
  transactionsTable : gmap (string * string) SavingsPlanTransaction;
  executionQueue    : list SendMessageRequest;
  eventBus          : list PutEventsEntry;
  uuidCount         : nat;
  randomCount       : nat;
  exchangeClient    : option BitcoinExchangeClient;
}.

(** What the code cannot control: configuration, the clock (held still
    for the length of one invocation), the identifiers and random numbers
    drawn ([Math_random_at] stands for draws from the interval from 0 to
    1), whether the queue, the bus and the secret store answer, and the
    order in which calls that are pending at the same time are answered:
    each entry of [arrivals] is the position, among the functions in
    flight, of the one whose pending call is answered next. *)
Record Env := mkEnv {
  MAX_BATCH_SIZE : option string;
  MAX_RETRIES    : option string;
  STAGE          : string;
  EVENT_BUS_NAME : string;
  EXECUTION_QUEUE_URL    : string;
  EXCHANGE_API_SECRET_ID : string;
  Date_now       : Z;
  uuidv4_at      : nat → string;
  Math_random_at : nat → Q;
  sendMessage_fault : SendMessageRequest → option Thrown;
  putEvents_fault   : PutEventsEntry → option Thrown;
  getSecretValue    : string → Completion (option string);
  JSON_parse_config : string → Completion ExchangeConfig;
  arrivals          : list nat;
}.

(** The same environment with another event bus. *)
Definition with_bus (f : PutEventsEntry → option Thrown) (env : Env) : Env :=
  mkEnv (MAX_BATCH_SIZE env) (MAX_RETRIES env) (STAGE env) (EVENT_BUS_NAME env)
    (EXECUTION_QUEUE_URL env) (EXCHANGE_API_SECRET_ID env)
    (Date_now env) (uuidv4_at env) (Math_random_at env) (sendMessage_fault env) f
    (getSecretValue env) (JSON_parse_config env) (arrivals env).

Definition set_plansTable (f : gmap (string * string) SavingsPlan → gmap (string * string) SavingsPlan)
    (w : World) : World :=
  mkWorld (f (plansTable w)) (transactionsTable w) (executionQueue w) (eventBus w)
          (uuidCount w) (randomCount w) (exchangeClient w).

Definition set_transactionsTable
    (f : gmap (string * string) SavingsPlanTransaction → gmap (string * string) SavingsPlanTransaction)
    (w : World) : World :=
  mkWorld (plansTable w) (f (transactionsTable w)) (executionQueue w) (eventBus w)
          (uuidCount w) (randomCount w) (exchangeClient w).

Definition set_executionQueue (f : list SendMessageRequest → list SendMessageRequest)
    (w : World) : World :=
  mkWorld (plansTable w) (transactionsTable w) (f (executionQueue w)) (eventBus w)
          (uuidCount w) (randomCount w) (exchangeClient w).

Definition set_eventBus (f : list PutEventsEntry → list PutEventsEntry) (w : World) : World :=
  mkWorld (plansTable w) (transactionsTable w) (executionQueue w) (f (eventBus w))
          (uuidCount w) (randomCount w) (exchangeClient w).

Definition set_uuidCount (f : nat → nat) (w : World) : World :=
  mkWorld (plansTable w) (transactionsTable w) (executionQueue w) (eventBus w)
          (f (uuidCount w)) (randomCount w) (exchangeClient w).

Definition set_randomCount (f : nat → nat) (w : World) : World :=
  mkWorld (plansTable w) (transactionsTable w) (executionQueue w) (eventBus w)
          (uuidCount w) (f (randomCount w)) (exchangeClient w).

Definition set_exchangeClient (c : option BitcoinExchangeClient) (w : World) : World :=
  mkWorld (plansTable w) (transactionsTable w) (executionQueue w) (eventBus w)
          (uuidCount w) (randomCount w) c.

(** ** Computations: a world in, a completion and a world out.

    A [Throw] keeps the world as it was when the error was raised: writes
    made before it are not undone. *)
Definition M (A : Type) : Type := World → Completion A * World.

Definition ret {A} (a : A) : M A := λ w, (Return a, w).

Definition throw {A} (e : Thrown) : M A := λ w, (Throw e, w).

Definition bind {A B} (m : M A) (k : A → M B) : M B := λ w,
  match m w with
  | (Return a, w') => k a w'
  | (Throw e, w') => (Throw e, w')
  end.

(** [try { m } catch (error) { h error }] *)
Definition try_catch {A} (m : M A) (h : Thrown → M A) : M A := λ w,
  match m w with
  | (Return a, w') => (Return a, w')
  | (Throw e, w') => h e w'
  end.

#[global] Instance M_ret : MRet M := @ret.
#[global] Instance M_bind : MBind M := λ A B k m, bind m k.

(** How a computation ends, as a value: its rejection does not escape. *)
Definition settle {A} (m : M A) : M (Completion A) := λ w,
  let '(r, w') := m w in (Return r, w').

(** The computations one after the other, each to its end, whatever
    became of those before it. *)
Fixpoint in_turn {A} (ms : list (M A)) : M (list (Completion A)) :=
  match ms with
  | [] => ret []
  | m :: ms' => r ← settle m; rs ← in_turn ms'; ret (r :: rs)
  end.

(** ** [async] functions that run side by side

    The body of an [async] function, as the steps it takes: it has
    settled, or it goes on with a step it takes at once ([Sync]), or with
    a call it waits for ([Await]). What follows a step is told how the
    step ended, so that a [try] around it can catch. *)
Inductive Async (A : Type) : Type :=
| Settled (c : Completion A)
| Sync {X : Type} (step : M X) (k : Completion X → Async A)
| Await {X : Type} (call : M X) (k : Completion X → Async A).
Arguments Settled {A} c.
Arguments Sync {A X} step k.
Arguments Await {A X} call k.

Definition sync {X} (step : M X) : Async X := Sync step Settled.

(** [await call] *)
Definition await {X} (call : M X) : Async X := Await call Settled.

Definition async_throw {A} (e : Thrown) : Async A := Settled (Throw e).

Fixpoint async_bind {A B} (t : Async A) (f : A → Async B) : Async B :=
  match t with
  | Settled (Return a) => f a
  | Settled (Throw e) => Settled (Throw e)
  | Sync step k => Sync step (λ r, async_bind (k r) f)
  | Await call k => Await call (λ r, async_bind (k r) f)
  end.

(** [try { t } catch (error) { h error }] *)
Fixpoint async_try_catch {A} (t : Async A) (h : Thrown → Async A) : Async A :=
  match t with
  | Settled (Return a) => Settled (Return a)
  | Settled (Throw e) => h e
  | Sync step k => Sync step (λ r, async_try_catch (k r) h)
  | Await call k => Await call (λ r, async_try_catch (k r) h)
  end.

#[global] Instance Async_ret : MRet Async := λ A a, Settled (Return a).
#[global] Instance Async_bind : MBind Async := λ A B f t, async_bind t f.

(** The function, awaited by a caller that does nothing else meanwhile:
    every step and every call in turn. *)
Fixpoint run {A} (t : Async A) : M A := λ w,
  match t with
  | Settled c => (c, w)
  | Sync step k => let '(r, w') := step w in run (k r) w'
  | Await call k => let '(r, w') := call w in run (k r) w'
  end.

(** Calling the function: it runs up to its first [await] and hands the
    pending promise to its caller. *)
Fixpoint start {A} (t : Async A) (w : World) : Async A * World :=
  match t with
  | Sync step k => let '(r, w') := step w in start (k r) w'
  | _ => (t, w)
  end.

(** The call a suspended function waits for is answered: the function
    goes on up to its next [await]. *)
Definition resume {A} (t : Async A) (w : World) : Async A * World :=
  match t with
  | Await call k => let '(r, w') := call w in start (k r) w'
  | _ => start t w
  end.

(** [fs.map(f => f())]: the functions are called one after the other. *)
Fixpoint start_each {A} (ts : list (Async A)) (w : World) : list (Async A) * World :=
  match ts with
  | [] => ([], w)
  | t :: ts' =>
      let '(p, w1) := start t w in
      let '(ps, w2) := start_each ts' w1 in
      (p :: ps, w2)
  end.

Definition call_each {A} (ts : list (Async A)) : M (list (Async A)) := λ w,
  let '(ps, w') := start_each ts w in (Return ps, w').

(** The calls pending in [ps] are answered in the order [order]; an
    entry that names no promise, or one that has settled, answers
    nothing. *)
Fixpoint answer {A} (order : list nat) (ps : list (Async A)) (w : World)
    : list (Async A) * World :=
  match order with
  | [] => (ps, w)
  | i :: order' =>
      match ps !! i with
      | Some p => let '(p', w') := resume p w in answer order' (<[i := p']> ps) w'
      | None => answer order' ps w
      end
  end.

(** [await Promise.allSettled(ps)]: the pending calls are answered in the
    order [order]; the functions still in flight when [order] is used up
    are finished one after the other. Every promise settles, none of the
    rejections escapes, and the results come in the order of [ps]. *)
Definition allSettled {A} (order : list nat) (ps : list (Async A))
    : M (list (Completion A)) := λ w,
  let '(ps', w') := answer order ps w in in_turn (run <$> ps') w'.

(** Every step and every call that the function may come to satisfies
    [Q]. *)
Fixpoint all_steps {A} (Q : ∀ X, M X → Prop) (t : Async A) : Prop :=
  match t with
  | Settled _ => True
  | Sync step k => Q _ step ∧ ∀ r, all_steps Q (k r)
  | Await call k => Q _ call ∧ ∀ r, all_steps Q (k r)
  end.

(** [uuidv4()] and [Math.random()] *)
Definition uuidv4 (env : Env) : M string := λ w,
  (Return (uuidv4_at env (uuidCount w)), set_uuidCount S w).

Definition Math_random (env : Env) : M Q := λ w,
  (Return (Math_random_at env (randomCount w)), set_randomCount S w).

(** ** DynamoDB *)
Definition ConditionalCheckFailedException : Thrown :=
  ErrorObj "ConditionalCheckFailedException" "The conditional request failed".

Definition ValidationException (msg : string) : Thrown := ErrorObj "ValidationException" msg.

(** [attribute_exists(k)] / [attribute_not_exists(k)] on a key attribute
    [k]: the row under the request's key exists, or does not. *)
Definition attribute_exists {V} (row : option V) : bool := bool_decide (is_Some row).
Definition attribute_not_exists {V} (row : option V) : bool := negb (attribute_exists row).

(** [update] on the plans table, with a [ConditionExpression] and the
    [SET] clauses as a function on the row. *)
Definition plans_update (key : string * string) (condition : option SavingsPlan → bool)
    (set : SavingsPlan → SavingsPlan) : M unit := λ w,
  if condition (plansTable w !! key)
  then (Return (), set_plansTable (alter set key) w)
  else (Throw ConditionalCheckFailedException, w).

Definition plans_get (key : string * string) : M (option SavingsPlan) := λ w,
  (Return (plansTable w !! key), w).

(** [put] on the transactions table under a [ConditionExpression]. *)
Definition transactions_put (item : SavingsPlanTransaction)
    (condition : option SavingsPlanTransaction → bool) : M unit := λ w,
  if condition (transactionsTable w !! tx_key item)
  then (Return (), set_transactionsTable (<[tx_key item := item]>) w)
  else (Throw ConditionalCheckFailedException, w).

(** The order of the index on [nextExecutionTime]. *)
Definition earlier (p q : SavingsPlan) : Prop :=
  plan_nextExecutionTime p ≤ plan_nextExecutionTime q.

#[global] Instance earlier_dec : RelDecision earlier.
Proof. intros p q. unfold earlier. apply _. Defined.

(** [query] on [StatusNextExecutionIndex]: partition key [status], range
    condition on the sort key [nextExecutionTime]. The rows come in the
    order of the sort key, the earliest first (rows with the same sort
    key in the order the table enumerates them), and at most [Limit] of
    them. A [Limit] below 1 is refused; a [Limit] that is [NaN] is sent
    as [null], which the store reads as no limit. *)
Definition plans_query (status : SavingsPlanStatus) (now : Z) (Limit : option Z)
    : M (list SavingsPlan) := λ w,
  let found :=
    merge_sort earlier
      (filter (λ p, plan_status p = status ∧ plan_nextExecutionTime p ≤ now)
              (map_to_list (plansTable w)).*2) in
  match Limit with
  | Some n =>
      if 1 <=? n
      then (Return (take (Z.to_nat n) found), w)
      else (Throw (ValidationException "Limit must be at least 1"), w)
  | None => (Return found, w)
  end.

(** ** SQS and EventBridge *)
Definition sqs_sendMessage (env : Env) (req : SendMessageRequest) : M unit := λ w,
  match sendMessage_fault env req with
  | Some e => (Throw e, w)
  | None => (Return (), set_executionQueue (λ q, q ++ [req]) w)
  end.

Definition eventBridge_putEvents (env : Env) (entry : PutEventsEntry) : M unit := λ w,
  match putEvents_fault env entry with
  | Some e => (Throw e, w)
  | None => (Return (), set_eventBus (λ b, b ++ [entry]) w)
  end.

(* ===================================================================== *)
(** * [lambda/scheduler/scanner.ts] *)
(* ===================================================================== *)
Module Scanner.

(** [updatePlanStatus]: [SET #status, #updatedAt] under the condition
    [attribute_exists(planId)]; an error of the store is logged and
    rethrown. *)
Definition updatePlanStatus (env : Env) (plan : SavingsPlan) (status : SavingsPlanStatus)
    : M unit :=
  try_catch
    (plans_update (plan_userId plan, plan_planId plan) attribute_exists
       (with_status status (Date_now env)))
    (λ error, throw error).

Definition executionEvent_of (env : Env) (plan : SavingsPlan) (executionId : string)
    : SchedulerExecutionEvent :=
  mkExecutionEvent (plan_userId plan) (plan_planId plan) (Date_now env) executionId 0.

Definition scheduled_entry (env : Env) (plan : SavingsPlan) (executionId : string)
    : PutEventsEntry :=
  mkEntry "bitcoin-broker.scheduler" EXECUTION_SCHEDULED
    (list_to_map
       [("userId", JString (plan_userId plan));
        ("planId", JString (plan_planId plan));
        ("executionId", JString executionId);
        ("amount", JNumber (plan_amount plan));
        ("frequency", JString (plan_frequency plan));
        ("scheduledTime", JTime (Date_now env))])
    (EVENT_BUS_NAME env).

(** The queue request for one plan: deduplicated by the execution id,
    grouped by user. *)
Definition task_request (env : Env) (plan : SavingsPlan) (executionId : string)
    : SendMessageRequest :=
  mkSendMessage (EXECUTION_QUEUE_URL env) (executionEvent_of env plan executionId)
    executionId (plan_userId plan).

(** [processPlansForExecution]: the identifier is drawn when the
    function is called; the update, the send and the publish are awaited
    one after the other. *)
Definition processPlansForExecution (env : Env) (plan : SavingsPlan) : Async unit :=
  executionId ← sync (uuidv4 env);
  async_try_catch
    (await (updatePlanStatus env plan PENDING_EXECUTION);;
     await (sqs_sendMessage env (task_request env plan executionId));;
     await (eventBridge_putEvents env (scheduled_entry env plan executionId)))
    (λ error,
       async_try_catch (await (updatePlanStatus env plan ACTIVE))
         (λ updateError, mret ());;
       async_throw error).

(** [process.env.MAX_BATCH_SIZE || '25'] *)
Definition batch_size_setting (env : Env) : string :=
  match MAX_BATCH_SIZE env with
  | Some EmptyString | None => "25"
  | Some s => s
  end.

(** [plans.map(plan => processPlansForExecution(plan))], then
    [await Promise.allSettled(processPromises)]: the function is called
    for every plan, in the order of the batch, and the promises are
    joined. *)
Definition fan_out (env : Env) (plans : list SavingsPlan) : M (list (Completion unit)) :=
  processPromises ← call_each (processPlansForExecution env <$> plans);
  allSettled (arrivals env) processPromises.

(** The part of [handler] that follows the query: the fan-out over the
    plans found; the rejected results are counted, and an error is
    thrown if there is any. *)
Definition handler_dispatch (env : Env) (plans : list SavingsPlan) : M unit :=
  results ← fan_out env plans;
  let failureCount := length (filter (λ r, is_Throw r = true) results) in
  if decide (0 < failureCount)%nat
  then throw (new_Error ("Failed to process all " +:+ pretty failureCount +:+ " plans"))
  else ret ().

(** The query of [handler]. *)
Definition handler_query (env : Env) : M (list SavingsPlan) :=
  plans_query ACTIVE (Date_now env / 1000) (JsParse.parseInt (batch_size_setting env)).

Definition handler (env : Env) : M unit :=
  try_catch
    (items ← handler_query env;
     match items with
     | [] => ret ()
     | _ => handler_dispatch env items
     end)
    (λ error, throw error).

(** The requests a run sends for [plans] when the [n]-th plan is given
    the [n]-th identifier drawn, starting from the [count]-th. *)
Fixpoint expected_tasks (env : Env) (count : nat) (plans : list SavingsPlan)
    : list SendMessageRequest :=
  match plans with
  | [] => []
  | plan :: rest =>
      task_request env plan (uuidv4_at env count) :: expected_tasks env (S count) rest
  end.

(** The plan a queue request is about. *)
Definition request_key (req : SendMessageRequest) : string * string :=
  (ev_userId (MessageBody req), ev_planId (MessageBody req)).

(** Every row is stored under the key its own attributes spell. *)
Definition keys_agree (w : World) : Prop :=
  ∀ k p, plansTable w !! k = Some p → plan_key p = k.

(** The plans a query at [now] (in seconds) may return. *)
Definition due (now : Z) (p : SavingsPlan) : Prop :=
  plan_status p = ACTIVE ∧ plan_nextExecutionTime p ≤ now.

End Scanner.

(** Whatever world [m] starts in, the world it ends in is [R]-related. *)
Definition keeps {A} (R : World → World → Prop) (m : M A) : Prop := ∀ w, R w (m w).2.

(* ===================================================================== *)
(** * [lambda/transaction/exchange-client.ts] *)
(* ===================================================================== *)
Module ExchangeClient.

Record PurchaseRequest := mkPurchaseRequest {
  req_userId          : string;
  req_amount          : Q;
  req_sourceOfFunds   : string;
  req_clientRequestId : string;
}.

Definition Qltb (a b : Q) : bool := negb (Qle_bool b a).

Definition demo_config : ExchangeConfig :=
  mkExchangeConfig "demo-key" "demo-secret" "https://api.example.com/exchange" None (Some true).

Definition with_useSandbox (b : bool) (c : ExchangeConfig) : ExchangeConfig :=
  mkExchangeConfig (cfg_apiKey c) (cfg_apiSecret c) (cfg_baseUrl c) (cfg_timeout c) (Some b).

(** The [try] block of [createFromSecrets]: fetch the secret, reject an
    empty one, parse it, and choose the sandbox outside ['prod']. *)
Definition load_config (env : Env) (secretId stage : string) : Completion ExchangeConfig :=
  match getSecretValue env secretId with
  | Throw e => Throw e
  | Return None | Return (Some EmptyString) => Throw (new_Error "Secret value is empty")
  | Return (Some SecretString) =>
      match JSON_parse_config env SecretString with
      | Throw e => Throw e
      | Return config => Return (with_useSandbox (negb (String.eqb stage "prod")) config)
      end
  end.

(** [createFromSecrets]: whatever fails in the [try] block reaches the
    [catch], which hands out the demo client when [stage === 'dev'] and
    rethrows otherwise. *)
Definition createFromSecrets (env : Env) (secretId stage : string) : M BitcoinExchangeClient :=
  try_catch
    (match load_config env secretId stage with
     | Return config => ret (mkClient config)
     | Throw e => throw e
     end)
    (λ error,
       if String.eqb stage "dev" then ret (mkClient demo_config) else throw error).

(** The [try] block of [purchaseBitcoin]: the simulated exchange. Four
    random draws are made: latency, the 5% failure, the price, and the
    suffix of the exchange-side transaction id. A draw is below the
    double [0.05] exactly when it is below 5/100, no double lying between
    the two. *)
Definition purchase_try (env : Env) (request : PurchaseRequest) : M BitcoinPurchaseResult :=
  _latency ← Math_random env;
  failure ← Math_random env;
  if Qltb failure (5 # 100)
  then throw (new_Error "Exchange API temporary error")
  else
    price ← Math_random env;
    let exchangeRate := Double.add 60000 (Double.mul price 10000) in
    let bitcoinAmount := Double.div (req_amount request) exchangeRate in
    let fees := Double.mul (req_amount request) (Double.round (1 # 100)) in
    suffix ← Math_random env;
    ret (mkPurchaseResult true
           (Some ("tx-" +:+ pretty (Date_now env) +:+ "-"
                  +:+ pretty (Qfloor (Double.mul suffix 10000))))
           (Some bitcoinAmount) (Some exchangeRate) (Some fees) None None).

(** The [catch] block of [purchaseBitcoin]. *)
Definition purchase_catch (env : Env) (request : PurchaseRequest) (error : Thrown)
    : BitcoinPurchaseResult :=
  let errorDetails : gmap string Json :=
    list_to_map [("timestamp", JTime (Date_now env));
                 ("requestId", JString (req_clientRequestId request))] in
  let errorMessage :=
    if is_Error error then error_message error else "Unknown error occurred" in
  let errorDetails' :=
    match error with
    | AxiosError _ (Some response) =>
        <["responseData" := JString (resp_data response)]>
          (<["statusText" := JString (resp_statusText response)]>
             (<["statusCode" := JInt (resp_status response)]> errorDetails))
    | _ => errorDetails
    end in
  mkPurchaseResult false None None None None (Some errorMessage) (Some errorDetails').

Definition purchaseBitcoin (env : Env) (client : BitcoinExchangeClient)
    (request : PurchaseRequest) : M BitcoinPurchaseResult :=
  try_catch (purchase_try env request) (λ error, ret (purchase_catch env request error)).

End ExchangeClient.

(* ===================================================================== *)
(** * [lambda/transaction/executor.ts] *)
(* ===================================================================== *)
Module Executor.
Import JsDate.

(** A delivered message. The body is kept as the event that [JSON.parse]
    reads from it: the messages on the queue are those the Scanner wrote
    with [JSON.stringify]. *)
Record SQSRecord := mkRecord {
  messageId : string;
  body      : SchedulerExecutionEvent;
}.

(** [const { MAX_RETRIES = '3' } = process.env] *)
Definition max_retries_setting (env : Env) : string := default "3" (MAX_RETRIES env).

(** [calculateNextExecutionTime]: the copy of [from] is moved with
    [setDate] or [setMonth]; the result is [Math.floor(getTime() / 1000)],
    [NaN] ([None]) for an invalid date. *)
Definition calculateNextExecutionTime (frequency : SavingsPlanFrequency) (from : Date)
    : Completion (option Z) :=
  let nextDate := from in
  let moved : Completion Date :=
    if String.eqb frequency DAILY then
      Return (setDate nextDate ((λ d, d + 1) <$> getDate nextDate))
    else if String.eqb frequency WEEKLY then
      Return (setDate nextDate ((λ d, d + 7) <$> getDate nextDate))
    else if String.eqb frequency BIWEEKLY then
      Return (setDate nextDate ((λ d, d + 14) <$> getDate nextDate))
    else if String.eqb frequency MONTHLY then
      Return (setMonth nextDate ((λ m, m + 1) <$> getMonth nextDate))
    else Throw (new_Error ("Unsupported frequency: " +:+ frequency)) in
  match moved with
  | Return nextDate' => Return ((λ t, t / 1000) <$> getTime nextDate')
  | Throw e => Throw e
  end.

(** [new Date()] *)
Definition new_Date (env : Env) : Date := TimeClip (Date_now env).

Definition getSavingsPlan (userId planId : string) : M SavingsPlan :=
  item ← plans_get (userId, planId);
  match item with
  | Some plan => ret plan
  | None =>
      throw (new_Error ("Savings plan " +:+ planId +:+ " for user " +:+ userId +:+ " not found"))
  end.

Definition updatePlanStatus (env : Env) (plan : SavingsPlan) (status : SavingsPlanStatus)
    : M unit :=
  plans_update (plan_userId plan, plan_planId plan) attribute_exists
    (with_status status (Date_now env)).

(** [updatePlanWithNextExecution]: the store takes no [NaN] as a number
    attribute. *)
Definition updatePlanWithNextExecution (env : Env) (plan : SavingsPlan)
    (nextExecutionTime : option Z) : M unit :=
  match nextExecutionTime with
  | Some next =>
      plans_update (plan_userId plan, plan_planId plan) attribute_exists
        (with_schedule ACTIVE next (Date_now env))
  | None => throw (ValidationException "NaN is not a number attribute")
  end.

Definition recordTransaction (transaction : SavingsPlanTransaction) : M unit :=
  transactions_put transaction attribute_not_exists.

(** The entry [publishEvent] sends: the detail extended with
    [timestamp] and [stage]. *)
Definition event_entry (env : Env) (eventType : EventType) (detail : gmap string Json)
    : PutEventsEntry :=
  mkEntry "bitcoin-broker.scheduler" eventType
    (<["stage" := JString (STAGE env)]> (<["timestamp" := JTime (Date_now env)]> detail))
    (EVENT_BUS_NAME env).

(** [publishEvent]: the call to the bus is awaited and not guarded. *)
Definition publishEvent (env : Env) (eventType : EventType) (detail : gmap string Json)
    : M unit :=
  eventBridge_putEvents env (event_entry env eventType detail).

Definition maxRetries_message (env : Env) : string :=
  "Maximum retry attempts (" +:+ max_retries_setting env +:+ ") exceeded".

Definition maxRetries_transaction (env : Env) (plan : SavingsPlan)
    (event : SchedulerExecutionEvent) (transactionId : string) : SavingsPlanTransaction :=
  mkTransaction (plan_userId plan) transactionId (plan_planId plan) (plan_amount plan)
    0%Q 0%Q TX_FAILED (Date_now env) (Some (maxRetries_message env))
    (list_to_map
       [("executionId", JString (ev_executionId event));
        ("attemptCount", JInt (ev_attemptCount event));
        ("maxRetries", JString (max_retries_setting env))]).

Definition maxRetries_detail (plan : SavingsPlan) (event : SchedulerExecutionEvent)
    (transaction : SavingsPlanTransaction) : gmap string Json :=
  list_to_map
    [("userId", JString (plan_userId plan));
     ("planId", JString (plan_planId plan));
     ("executionId", JString (ev_executionId event));
     ("transactionId", JString (tx_transactionId transaction));
     ("amount", JNumber (plan_amount plan));
     ("errorMessage", JOpt JString (tx_errorMessage transaction));
     ("attemptCount", JInt (ev_attemptCount event));
     ("maxRetriesExceeded", JBool true)].

Definition handleMaxRetries (env : Env) (event : SchedulerExecutionEvent) : M unit :=
  try_catch
    (plan ← getSavingsPlan (ev_userId event) (ev_planId event);
     updatePlanStatus env plan FAILED;;
     transactionId ← uuidv4 env;
     let transaction := maxRetries_transaction env plan event transactionId in
     recordTransaction transaction;;
     publishEvent env EXECUTION_FAILED (maxRetries_detail plan event transaction))
    (λ error, throw error).

(** [exchangeClient!]: the module-level client; a call through [null]
    is a [TypeError]. *)
Definition the_exchangeClient : M BitcoinExchangeClient := λ w,
  match exchangeClient w with
  | Some client => (Return client, w)
  | None =>
      (Throw (ErrorObj "TypeError" "Cannot read properties of null (reading 'purchaseBitcoin')"), w)
  end.

(** The transaction row built from the purchase result. *)
Definition purchase_transaction (env : Env) (plan : SavingsPlan)
    (executionEvent : SchedulerExecutionEvent) (purchaseResult : BitcoinPurchaseResult)
    (transactionId : string) : SavingsPlanTransaction :=
  mkTransaction (plan_userId plan) transactionId (plan_planId plan) (plan_amount plan)
    (or_zero (res_bitcoinAmount purchaseResult))
    (or_zero (res_exchangeRate purchaseResult))
    (if res_success purchaseResult then TX_COMPLETED else TX_FAILED)
    (Date_now env)
    (res_errorMessage purchaseResult)
    (list_to_map
       [("executionId", JString (ev_executionId executionEvent));
        ("exchangeTransactionId", JOpt JString (res_exchangeTransactionId purchaseResult));
        ("attemptCount", JInt (ev_attemptCount executionEvent));
        ("fees", JOpt JNumber (res_fees purchaseResult))]).

Definition started_detail (plan : SavingsPlan) (executionEvent : SchedulerExecutionEvent)
    : gmap string Json :=
  list_to_map
    [("userId", JString (plan_userId plan));
     ("planId", JString (plan_planId plan));
     ("executionId", JString (ev_executionId executionEvent));
     ("amount", JNumber (plan_amount plan));
     ("attemptCount", JInt (ev_attemptCount executionEvent))].

Definition completed_detail (plan : SavingsPlan) (executionEvent : SchedulerExecutionEvent)
    (transaction : SavingsPlanTransaction) (nextExecutionTime : option Z) : gmap string Json :=
  list_to_map
    [("userId", JString (plan_userId plan));
     ("planId", JString (plan_planId plan));
     ("executionId", JString (ev_executionId executionEvent));
     ("transactionId", JString (tx_transactionId transaction));
     ("amount", JNumber (plan_amount plan));
     ("bitcoinAmount", JNumber (tx_bitcoinAmount transaction));
     ("nextExecutionTime", JNum nextExecutionTime)].

Definition failed_detail (plan : SavingsPlan) (executionEvent : SchedulerExecutionEvent)
    (transaction : SavingsPlanTransaction) (purchaseResult : BitcoinPurchaseResult)
    : gmap string Json :=
  list_to_map
    [("userId", JString (plan_userId plan));
     ("planId", JString (plan_planId plan));
     ("executionId", JString (ev_executionId executionEvent));
     ("transactionId", JString (tx_transactionId transaction));
     ("amount", JNumber (plan_amount plan));
     ("errorMessage", JOpt JString (res_errorMessage purchaseResult));
     ("attemptCount", JInt (ev_attemptCount executionEvent))].

(** The two branches after the transaction row was stored. *)
Definition on_purchase_success (env : Env) (plan : SavingsPlan)
    (executionEvent : SchedulerExecutionEvent) (transaction : SavingsPlanTransaction)
    : M unit :=
  match calculateNextExecutionTime (plan_frequency plan) (new_Date env) with
  | Throw e => throw e
  | Return nextExecutionTime =>
      updatePlanWithNextExecution env plan nextExecutionTime;;
      publishEvent env EXECUTION_COMPLETED
        (completed_detail plan executionEvent transaction nextExecutionTime)
  end.

Definition on_purchase_failure (env : Env) (plan : SavingsPlan)
    (executionEvent : SchedulerExecutionEvent) (transaction : SavingsPlanTransaction)
    (purchaseResult : BitcoinPurchaseResult) : M unit :=
  updatePlanStatus env plan FAILED;;
  publishEvent env EXECUTION_FAILED
    (failed_detail plan executionEvent transaction purchaseResult);;
  throw (new_Error ("Purchase failed: " +:+ default "undefined" (res_errorMessage purchaseResult))).

(** What [processExecutionEvent] does with the purchase result: the
    transaction row is built and stored, then the plan is rescheduled or
    failed. *)
Definition record_purchase (env : Env) (plan : SavingsPlan)
    (executionEvent : SchedulerExecutionEvent) (purchaseResult : BitcoinPurchaseResult)
    : M unit :=
  transactionId ← uuidv4 env;
  let transaction :=
    purchase_transaction env plan executionEvent purchaseResult transactionId in
  recordTransaction transaction;;
  if res_success purchaseResult
  then on_purchase_success env plan executionEvent transaction
  else on_purchase_failure env plan executionEvent transaction purchaseResult.

Definition purchase_request (plan : SavingsPlan) (executionEvent : SchedulerExecutionEvent)
    : ExchangeClient.PurchaseRequest :=
  ExchangeClient.mkPurchaseRequest (plan_userId plan) (plan_amount plan)
    (plan_sourceOfFunds plan) (ev_executionId executionEvent).

Definition processExecutionEvent (env : Env) (record : SQSRecord) : M unit :=
  try_catch
    (let executionEvent := body record in
     if js_ge (ev_attemptCount executionEvent) (JsParse.parseInt (max_retries_setting env))
     then handleMaxRetries env executionEvent
     else
       plan ← getSavingsPlan (ev_userId executionEvent) (ev_planId executionEvent);
       updatePlanStatus env plan EXECUTING;;
       publishEvent env EXECUTION_STARTED (started_detail plan executionEvent);;
       client ← the_exchangeClient;
       purchaseResult ←
         ExchangeClient.purchaseBitcoin env client (purchase_request plan executionEvent);
       record_purchase env plan executionEvent purchaseResult)
    (λ error, throw error).

(** The [for] loop of [handler]: records in delivery order, the message
    id of each record whose processing threw is appended. *)
Fixpoint process_records (env : Env) (records : list SQSRecord)
    (batchItemFailures : list string) : M (list string) :=
  match records with
  | [] => ret batchItemFailures
  | record :: rest =>
      failures ← try_catch
        (processExecutionEvent env record;; ret batchItemFailures)
        (λ error, ret (batchItemFailures ++ [messageId record]));
      process_records env rest failures
  end.

Definition init_exchangeClient (env : Env) : M unit := λ w,
  match exchangeClient w with
  | Some _ => (Return (), w)
  | None =>
      match ExchangeClient.createFromSecrets env (EXCHANGE_API_SECRET_ID env) (STAGE env) w with
      | (Return client, w') => (Return (), set_exchangeClient (Some client) w')
      | (Throw e, w') => (Throw e, w')
      end
  end.

(** [handler]: the result is [batchItemFailures]. *)
Definition handler (env : Env) (Records : list SQSRecord) : M (list string) :=
  init_exchangeClient env;;
  process_records env Records [].

End Executor.

(* ===================================================================== *)
(** * Concrete worlds used by the examples below *)
(* ===================================================================== *)
Module Fixture.

(** 2024-01-31T00:00:00Z and one second later, in milliseconds. *)
Definition t_2024_01_31 : Z := 1706659200000.
Definition T : Z := 1706659201000.

Definition plan (userId planId : string) (status : SavingsPlanStatus) (due : Z) : SavingsPlan :=
  mkSavingsPlan userId planId 100 WEEKLY "bank-account" status due 0 None 0 0.

Definition uuid (n : nat) : string := "uuid-" +:+ pretty n.

(** An environment in which every collaborator answers and the exchange
    draws [failure = 1/2] (no simulated failure) and a price of 65000. *)
Definition env_ok : Env :=
  mkEnv None None "dev" "bitcoin-broker-events-dev"
    "https://sqs.us-east-1.amazonaws.com/bitcoin-broker-savings-plan-execution-dev.fifo"
    "exchange-secret" T uuid (λ _, 1 # 2)
    (λ _, None) (λ _, None)
    (λ _, Return (Some "{}"))
    (λ _, Return (mkExchangeConfig "k" "s" "https://api.example.com/v1" None None))
    [].

Definition with_random (r : nat → Q) (env : Env) : Env :=
  mkEnv (MAX_BATCH_SIZE env) (MAX_RETRIES env) (STAGE env) (EVENT_BUS_NAME env)
    (EXECUTION_QUEUE_URL env) (EXCHANGE_API_SECRET_ID env)
    (Date_now env) (uuidv4_at env) r (sendMessage_fault env) (putEvents_fault env)
    (getSecretValue env) (JSON_parse_config env) (arrivals env).

Definition with_sendMessage_fault (f : SendMessageRequest → option Thrown) (env : Env) : Env :=
  mkEnv (MAX_BATCH_SIZE env) (MAX_RETRIES env) (STAGE env) (EVENT_BUS_NAME env)
    (EXECUTION_QUEUE_URL env) (EXCHANGE_API_SECRET_ID env)
    (Date_now env) (uuidv4_at env) (Math_random_at env) f (putEvents_fault env)
    (getSecretValue env) (JSON_parse_config env) (arrivals env).

Definition with_secret_failure (stage : string) (env : Env) : Env :=
  mkEnv (MAX_BATCH_SIZE env) (MAX_RETRIES env) stage (EVENT_BUS_NAME env)
    (EXECUTION_QUEUE_URL env) (EXCHANGE_API_SECRET_ID env)
    (Date_now env) (uuidv4_at env) (Math_random_at env) (sendMessage_fault env)
    (putEvents_fault env)
    (λ _, Throw (ErrorObj "ResourceNotFoundException" "Secrets Manager can't find the secret"))
    (JSON_parse_config env) (arrivals env).

Definition with_batch_size (setting : string) (env : Env) : Env :=
  mkEnv (Some setting) (MAX_RETRIES env) (STAGE env) (EVENT_BUS_NAME env)
    (EXECUTION_QUEUE_URL env) (EXCHANGE_API_SECRET_ID env)
    (Date_now env) (uuidv4_at env) (Math_random_at env) (sendMessage_fault env)
    (putEvents_fault env) (getSecretValue env) (JSON_parse_config env) (arrivals env).

Definition with_arrivals (order : list nat) (env : Env) : Env :=
  mkEnv (MAX_BATCH_SIZE env) (MAX_RETRIES env) (STAGE env) (EVENT_BUS_NAME env)
    (EXECUTION_QUEUE_URL env) (EXCHANGE_API_SECRET_ID env)
    (Date_now env) (uuidv4_at env) (Math_random_at env) (sendMessage_fault env)
    (putEvents_fault env) (getSecretValue env) (JSON_parse_config env) order.

(** An exchange whose every draw is 1/100: the simulated failure. *)
Definition env_failing : Env := with_random (λ _, 1 # 100) env_ok.

Definition p1 : SavingsPlan := plan "alice" "plan-1" ACTIVE (T / 1000 - 1).
Definition p2 : SavingsPlan := plan "bob" "plan-2" ACTIVE (T / 1000 + 60).
Definition p3 : SavingsPlan := plan "carol" "plan-3" PAUSED (T / 1000 - 1).
Definition p4 : SavingsPlan := plan "dan" "plan-4" ACTIVE (T / 1000 - 5).

Definition demo_client : BitcoinExchangeClient := mkClient ExchangeClient.demo_config.

Definition world_of (plans : list SavingsPlan) : World :=
  mkWorld (list_to_map ((λ p, (plan_key p, p)) <$> plans)) ∅ [] [] 0 0 (Some demo_client).

Definition w0 : World := world_of [p1; p2; p3].

(** A store with two plans that are due, [p4] before [p1]. *)
Definition w_two : World := world_of [p1; p4].

(** The answers to [p1] overtake those to [p4], except the last one. *)
Definition env_overtaking : Env := with_arrivals [1; 1; 0; 0; 0; 1]%nat env_ok.

Definition task (p : SavingsPlan) (attemptCount : Z) : Executor.SQSRecord :=
  Executor.mkRecord "msg-1" (mkExecutionEvent (plan_userId p) (plan_planId p) T "exec-1" attemptCount).

(** Two Scanner invocations that overlap: both query before either
    updates, then each dispatches what it found. *)
Definition two_overlapping_scans (env : Env) : M unit :=
  itemsA ← Scanner.handler_query env;
  itemsB ← Scanner.handler_query env;
  Scanner.handler_dispatch env itemsA;;
  Scanner.handler_dispatch env itemsB.

(** A Scanner invocation during which another actor removes the plan
    [gone] between the query and the updates. *)
Definition scan_with_removal (env : Env) (gone : string * string) : M unit :=
  items ← Scanner.handler_query env;
  (λ w, (Return (), set_plansTable (delete gone) w));;
  Scanner.handler_dispatch env items.

Definition bus_down : Thrown := ErrorObj "InternalException" "EventBridge is unavailable".
Definition queue_down : Thrown := ErrorObj "ServiceUnavailable" "SQS is unavailable".

(** The bus rejects the entries of one detail type and accepts the rest. *)
Definition reject_type (ty : EventType) (entry : PutEventsEntry) : option Thrown :=
  if decide (DetailType entry = ty) then Some bus_down else None.

End Fixture.

(* ===================================================================== *)
(** * Closed forms and footprints of a run *)
(* ===================================================================== *)

Module Dispatch.
Import Scanner.

(** How the processing of one plan of a batch ends, read from the store
    as it was when the batch started and from the answers of the queue
    and the bus to this plan's own request and entry. *)
Definition plan_outcome (env : Env) (stored : gmap (string * string) SavingsPlan)
    (executionId : string) (plan : SavingsPlan) : Completion unit :=
  match stored !! plan_key plan with
  | None => Throw ConditionalCheckFailedException
  | Some _ =>
      match sendMessage_fault env (task_request env plan executionId) with
      | Some e => Throw e
      | None =>
          match putEvents_fault env (scheduled_entry env plan executionId) with
          | Some e => Throw e
          | None => Return ()
          end
      end
  end.

Fixpoint outcomes (env : Env) (stored : gmap (string * string) SavingsPlan)
    (count : nat) (plans : list SavingsPlan) : list (Completion unit) :=
  match plans with
  | [] => []
  | plan :: rest =>
      plan_outcome env stored (uuidv4_at env count) plan :: outcomes env stored (S count) rest
  end.

(** The requests the queue accepted. *)
Fixpoint sent_tasks (env : Env) (stored : gmap (string * string) SavingsPlan)
    (count : nat) (plans : list SavingsPlan) : list SendMessageRequest :=
  match plans with
  | [] => []
  | plan :: rest =>
      let request := task_request env plan (uuidv4_at env count) in
      match stored !! plan_key plan, sendMessage_fault env request with
      | Some _, None => request :: sent_tasks env stored (S count) rest
      | _, _ => sent_tasks env stored (S count) rest
      end
  end.

(** The entries the bus accepted. *)
Fixpoint published_entries (env : Env) (stored : gmap (string * string) SavingsPlan)
    (count : nat) (plans : list SavingsPlan) : list PutEventsEntry :=
  match plans with
  | [] => []
  | plan :: rest =>
      let executionId := uuidv4_at env count in
      match stored !! plan_key plan,
            sendMessage_fault env (task_request env plan executionId),
            putEvents_fault env (scheduled_entry env plan executionId) with
      | Some _, None, None =>
          scheduled_entry env plan executionId :: published_entries env stored (S count) rest
      | _, _, _ => published_entries env stored (S count) rest
      end
  end.

(** The entries a run publishes for [plans] when every plan is announced:
    the [n]-th plan with the [n]-th identifier drawn from [count] on. *)
Fixpoint expected_entries (env : Env) (count : nat) (plans : list SavingsPlan)
    : list PutEventsEntry :=
  match plans with
  | [] => []
  | plan :: rest =>
      scheduled_entry env plan (uuidv4_at env count) :: expected_entries env (S count) rest
  end.

(** The identifiers of a batch: the [n]-th plan is given the [n]-th
    identifier drawn, starting from the [count]-th. *)
Definition jobs (env : Env) (count : nat) (plans : list SavingsPlan)
    : list (SavingsPlan * string) :=
  zip plans (uuidv4_at env <$> seq count (length plans)).

(** How far the processing of one plan has come: the call it waits for,
    or how it ended. *)
Inductive Phase :=
| Updating
| Sending
| Publishing
| Reverting (error : Thrown)
| Finished (c : Completion unit).

(** The [catch] block of [processPlansForExecution]. *)
Definition revert_and_rethrow (env : Env) (plan : SavingsPlan) (error : Thrown) : Async unit :=
  async_try_catch (await (updatePlanStatus env plan ACTIVE)) (λ updateError, mret ());;
  async_throw error.

(** [processPlansForExecution] from each of its awaits on. *)
Definition pending (env : Env) (job : SavingsPlan * string) (phase : Phase) : Async unit :=
  let '(plan, executionId) := job in
  match phase with
  | Updating =>
      async_try_catch
        (await (updatePlanStatus env plan PENDING_EXECUTION);;
         await (sqs_sendMessage env (task_request env plan executionId));;
         await (eventBridge_putEvents env (scheduled_entry env plan executionId)))
        (revert_and_rethrow env plan)
  | Sending =>
      async_try_catch
        (await (sqs_sendMessage env (task_request env plan executionId));;
         await (eventBridge_putEvents env (scheduled_entry env plan executionId)))
        (revert_and_rethrow env plan)
  | Publishing =>
      async_try_catch
        (await (eventBridge_putEvents env (scheduled_entry env plan executionId)))
        (revert_and_rethrow env plan)
  | Reverting error => revert_and_rethrow env plan error
  | Finished c => Settled c
  end.

(** A phase that agrees with what the store, the queue and the bus have
    answered so far. *)
Definition consistent (env : Env) (stored : gmap (string * string) SavingsPlan)
    (job : SavingsPlan * string) (phase : Phase) : Prop :=
  match phase with
  | Updating => True
  | Sending => is_Some (stored !! plan_key job.1)
  | Publishing =>
      is_Some (stored !! plan_key job.1)
      ∧ sendMessage_fault env (task_request env job.1 job.2) = None
  | Reverting error => plan_outcome env stored job.2 job.1 = Throw error
  | Finished c => plan_outcome env stored job.2 job.1 = c
  end.

(** The request the queue has accepted from a plan in [phase], if any. *)
Definition sent_by (env : Env) (stored : gmap (string * string) SavingsPlan)
    (job : SavingsPlan * string) (phase : Phase) : option SendMessageRequest :=
  match phase with
  | Updating | Sending => None
  | _ =>
      match stored !! plan_key job.1, sendMessage_fault env (task_request env job.1 job.2) with
      | Some _, None => Some (task_request env job.1 job.2)
      | _, _ => None
      end
  end.

(** The entry the bus has accepted from a plan in [phase], if any. *)
Definition published_by (env : Env) (job : SavingsPlan * string) (phase : Phase)
    : option PutEventsEntry :=
  match phase with
  | Finished (Return _) => Some (scheduled_entry env job.1 job.2)
  | _ => None
  end.

(** What a plan in [phase] has made of its row. *)
Definition row_by (env : Env) (phase : Phase) (row : SavingsPlan) : SavingsPlan :=
  match phase with
  | Updating => row
  | Finished (Throw _) => with_status ACTIVE (Date_now env) row
  | _ => with_status PENDING_EXECUTION (Date_now env) row
  end.

(** The world [w] during the fan-out that started in [w0] over [js],
    with the plans in the phases [phases]. *)
Definition in_flight (env : Env) (w0 : World) (js : list (SavingsPlan * string))
    (phases : list Phase) (w : World) : Prop :=
  length phases = length js
  ∧ uuidCount w = uuidCount w0
  ∧ (∀ k, plansTable w !! k = None ↔ plansTable w0 !! k = None)
  ∧ Forall2 (consistent env (plansTable w0)) js phases
  ∧ (∀ k, k ∉ (plan_key ∘ fst) <$> js → plansTable w !! k = plansTable w0 !! k)
  ∧ (NoDup ((plan_key ∘ fst) <$> js) →
     Forall2 (λ job phase, plansTable w !! plan_key job.1
                           = row_by env phase <$> plansTable w0 !! plan_key job.1) js phases)
  ∧ (∃ sent, executionQueue w = executionQueue w0 ++ sent
       ∧ sent ≡ₚ omap (λ jp, sent_by env (plansTable w0) jp.1 jp.2) (zip js phases))
  ∧ (∃ published, eventBus w = eventBus w0 ++ published
       ∧ published ≡ₚ omap (λ jp, published_by env jp.1 jp.2) (zip js phases)).

(** What the Scanner may do to a row: nothing, or set its status to
    PENDING_EXECUTION or to ACTIVE together with the update time. *)
Definition status_moved (now : IsoTime) (p p' : SavingsPlan) : Prop :=
  p' = p ∨ p' = with_status PENDING_EXECUTION now p ∨ p' = with_status ACTIVE now p.

Definition scan_step (env : Env) (w w' : World) : Prop :=
  transactionsTable w' = transactionsTable w
  ∧ exchangeClient w' = exchangeClient w
  ∧ randomCount w' = randomCount w
  ∧ executionQueue w `prefix_of` executionQueue w'
  ∧ eventBus w `prefix_of` eventBus w'
  ∧ ∀ k, option_Forall2 (status_moved (Date_now env)) (plansTable w !! k) (plansTable w' !! k).

End Dispatch.

Module Batch.

(** The message ids of the records whose processing was rejected, in
    delivery order. *)
Definition failed_ids (records : list Executor.SQSRecord) (results : list (Completion unit))
    : list string :=
  (λ rr, Executor.messageId rr.1) <$> filter (λ rr, is_Throw rr.2 = true) (zip records results).

(** The transactions only grow, by at most [n] rows. *)
Definition ledger_step (n : nat) (w w' : World) : Prop :=
  transactionsTable w ⊆ transactionsTable w'
  ∧ (size (transactionsTable w') ≤ size (transactionsTable w) + n)%nat.

(** What the Executor leaves alone. *)
Definition quiet_step (w w' : World) : Prop :=
  executionQueue w' = executionQueue w
  ∧ eventBus w `prefix_of` eventBus w'
  ∧ (∀ client, exchangeClient w = Some client → exchangeClient w' = Some client)
  ∧ (∀ k, plansTable w' !! k = None ↔ plansTable w !! k = None)
  ∧ (uuidCount w ≤ uuidCount w')%nat
  ∧ (randomCount w ≤ randomCount w')%nat.

(** The attributes of a plan that the Executor never writes. *)
Definition same_terms (p p' : SavingsPlan) : Prop :=
  plan_userId p' = plan_userId p
  ∧ plan_planId p' = plan_planId p
  ∧ plan_amount p' = plan_amount p
  ∧ plan_frequency p' = plan_frequency p
  ∧ plan_sourceOfFunds p' = plan_sourceOfFunds p
  ∧ plan_startDate p' = plan_startDate p
  ∧ plan_endDate p' = plan_endDate p
  ∧ plan_createdAt p' = plan_createdAt p.

(** Starting from rows stored under their own keys: only the row under
    [key] may differ, and only in its status, schedule and update time. *)
Definition plan_step (key : string * string) (w w' : World) : Prop :=
  Scanner.keys_agree w →
  Scanner.keys_agree w'
  ∧ (∀ k, k ≠ key → plansTable w' !! k = plansTable w !! k)
  ∧ option_Forall2 same_terms (plansTable w !! key) (plansTable w' !! key).

End Batch.

(** The same environment with another [MAX_RETRIES] variable. *)
Definition with_max_retries (setting : option string) (env : Env) : Env :=
  mkEnv (MAX_BATCH_SIZE env) setting (STAGE env) (EVENT_BUS_NAME env)
    (EXECUTION_QUEUE_URL env) (EXCHANGE_API_SECRET_ID env)
    (Date_now env) (uuidv4_at env) (Math_random_at env) (sendMessage_fault env)
    (putEvents_fault env) (getSecretValue env) (JSON_parse_config env) (arrivals env).

(* ===================================================================== *)
(** * The HTTP client the exchange client builds ([exchange-client.ts]) *)
(* ===================================================================== *)
Module Axios.

(** The defaults handed to [axios.create]. *)
Record AxiosDefaults := mkAxiosDefaults {
  baseURL : string;
  timeout : Z;
  headers : list (string * string);
}.

(** The instance the constructor creates: the sandbox path is appended
    when [useSandbox] is truthy, and [timeout || 5000] takes the default
    for an absent timeout and for 0. *)
Definition axios_create (config : ExchangeConfig) : AxiosDefaults :=
  mkAxiosDefaults
    (if default false (cfg_useSandbox config)
     then cfg_baseUrl config +:+ "/sandbox" else cfg_baseUrl config)
    (match cfg_timeout config with
     | Some t => if t =? 0 then 5000 else t
     | None => 5000
     end)
    [("Content-Type", "application/json");
     ("Accept", "application/json");
     ("User-Agent", "Bitcoin-Broker-Scheduler/1.0")].

Definition axiosClient (client : BitcoinExchangeClient) : AxiosDefaults :=
  axios_create (client_config client).

End Axios.

(** ** [signRequest], the request interceptor

    Taken as given: the keyed hash
    [createHmac('sha256', key).update(payload).digest('hex')], and, for the
    data of a request, its truthiness and [JSON.stringify]. *)
Module Signing.
Section Signing.
Variable createHmac_sha256_hex : string → string → string.
Variable Data : Type.
Variable ToBoolean : Data → bool.
Variable JSON_stringify : Data → string.

(** The fields of an [AxiosRequestConfig] that [signRequest] reads or
    writes. Absent [headers] are the empty object. *)
Record AxiosRequestConfig := mkRequestConfig {
  rc_method  : option string;
  rc_url     : option string;
  rc_data    : option Data;
  rc_headers : gmap string string;
}.

(** [toUpperCase] on a string of ASCII characters. *)
Definition toUpperCase_char (c : ascii) : ascii :=
  let n := nat_of_ascii c in
  if ((97 <=? n) && (n <=? 122))%nat then ascii_of_nat (n - 32) else c.

Fixpoint toUpperCase (s : string) : string :=
  match s with
  | EmptyString => EmptyString
  | String c s' => String (toUpperCase_char c) (toUpperCase s')
  end.

(** [x || d] on an optional string: [undefined] and [''] are falsy. *)
Definition or_string (x : option string) (d : string) : string :=
  match x with
  | Some EmptyString | None => d
  | Some s => s
  end.

Definition signing_method (config : AxiosRequestConfig) : string :=
  or_string (toUpperCase <$> rc_method config) "GET".

Definition signing_path (config : AxiosRequestConfig) : string :=
  or_string (rc_url config) EmptyString.

Definition signing_body (config : AxiosRequestConfig) : string :=
  match rc_data config with
  | Some data => if ToBoolean data then JSON_stringify data else EmptyString
  | None => EmptyString
  end.

(** The signed payload: time stamp, method, path and body, one after the
    other. *)
Definition signing_payload (env : Env) (config : AxiosRequestConfig) : string :=
  pretty (Date_now env) +:+ signing_method config +:+ signing_path config
    +:+ signing_body config.

Definition signRequest (env : Env) (client : BitcoinExchangeClient)
    (config : AxiosRequestConfig) : AxiosRequestConfig :=
  let timestamp := pretty (Date_now env) in
  let signature :=
    createHmac_sha256_hex (cfg_apiSecret (client_config client)) (signing_payload env config) in
  mkRequestConfig (rc_method config) (rc_url config) (rc_data config)
    (<["X-API-Signature" := signature]>
       (<["X-API-Timestamp" := timestamp]>
          (<["X-API-Key" := cfg_apiKey (client_config client)]> (rc_headers config)))).

End Signing.

Arguments mkRequestConfig {Data} rc_method rc_url rc_data rc_headers.
Arguments rc_method {Data} _.
Arguments rc_url {Data} _.
Arguments rc_data {Data} _.
Arguments rc_headers {Data} _.
Arguments signing_method {Data} config.
Arguments signing_path {Data} config.
Arguments signing_body {Data} ToBoolean JSON_stringify config.
Arguments signing_payload {Data} ToBoolean JSON_stringify env config.
Arguments signRequest createHmac_sha256_hex {Data} ToBoolean JSON_stringify env client config.

End Signing.

(* ===================================================================== *)
(** * [lib/constructs/scheduler-service.ts]: the retry settings *)
(* ===================================================================== *)
Module SchedulerService.

(** [props.maxRetries || 3]: an absent property and 0 are falsy. *)
Definition maxRetries_or_default (maxRetries : option Z) : Z :=
  match maxRetries with
  | Some n => if n =? 0 then 3 else n
  | None => 3
  end.

(** [deadLetterQueue.maxReceiveCount] of the execution queue. *)
Definition maxReceiveCount (maxRetries : option Z) : Z := maxRetries_or_default maxRetries.

(** The [MAX_RETRIES] variable of both functions,
    [(props.maxRetries || 3).toString()]: an integer below 10^21 in
    absolute value is written in decimal digits. *)
Definition environment_MAX_RETRIES (maxRetries : option Z) : string :=
  pretty (maxRetries_or_default maxRetries).

End SchedulerService.


(* ===================================================================== *)
(** * Calendar facts *)
(* ===================================================================== *)
Section Calendar.
Import JsDate.

Lemma DayFromYear_mono (y y' : Z) : y ≤ y' → DayFromYear y ≤ DayFromYear y'.
Proof. unfold DayFromYear. intros H. Z.div_mod_to_equations. lia. Qed.

Lemma DayFromYear_succ (y : Z) : DayFromYear (y + 1) = DayFromYear y + DaysInYear y.
Proof.
  unfold DayFromYear, DaysInYear, isLeap.
  repeat match goal with |- context [?a =? ?b] => destruct (Z.eqb_spec a b) end;
    cbn [negb]; Z.div_mod_to_equations; lia.
Qed.

(** [YearFromDay d] is a year whose first day is not after [d] and whose
    successor starts after [d] ... *)
Lemma YearFromDay_spec (d : Z) :
  DayFromYear (YearFromDay d) ≤ d < DayFromYear (YearFromDay d + 1).
Proof.
  unfold YearFromDay.
  set (y0 := 1970 + 400 * d / 146097).
  assert (Hlo : DayFromYear (y0 - 1) ≤ d).
  { subst y0. unfold DayFromYear. Z.div_mod_to_equations. lia. }
  assert (Hhi : d < DayFromYear (y0 + 2)).
  { subst y0. unfold DayFromYear. Z.div_mod_to_equations. lia. }
  destruct (Z.leb_spec (DayFromYear (y0 + 1)) d).
  - replace (y0 + 1 + 1) with (y0 + 2) by lia. lia.
  - destruct (Z.leb_spec (DayFromYear y0) d).
    + lia.
    + replace (y0 - 1 + 1) with y0 by lia. lia.
Qed.

(** ... and it is the only such year. *)
Lemma YearFromDay_unique (d y : Z) :
  DayFromYear y ≤ d < DayFromYear (y + 1) → YearFromDay d = y.
Proof.
  intros Hy. pose proof (YearFromDay_spec d) as Hs.
  destruct (Z.lt_trichotomy (YearFromDay d) y) as [Hlt | [-> | Hgt]]; [| done |].
  - pose proof (DayFromYear_mono (YearFromDay d + 1) y ltac:(lia)). lia.
  - pose proof (DayFromYear_mono (y + 1) (YearFromDay d) ltac:(lia)). lia.
Qed.

Ltac month_cases m :=
  let H := fresh in
  assert (H : m = 0 ∨ m = 1 ∨ m = 2 ∨ m = 3 ∨ m = 4 ∨ m = 5 ∨ m = 6
              ∨ m = 7 ∨ m = 8 ∨ m = 9 ∨ m = 10 ∨ m = 11) by lia;
  repeat (destruct H as [-> | H]); [.. | subst m].

Ltac ltb_cases :=
  repeat match goal with
         | |- context [?a <? ?b] => destruct (Z.ltb_spec a b); try lia
         end.

Ltac month_starts :=
  repeat match goal with
         | |- context [monthStart (?a + 1) _] =>
             let v := eval vm_compute in (a + 1) in change (a + 1) with v
         | H : context [monthStart (?a + 1) _] |- _ =>
             let v := eval vm_compute in (a + 1) in change (a + 1) with v in H
         end;
  cbn [monthStart] in *.

Lemma leapDay_range (y : Z) : 0 ≤ leapDay y ≤ 1.
Proof. unfold leapDay. destruct (isLeap y); lia. Qed.

Lemma monthOfDay_range (d l : Z) : 0 ≤ monthOfDay d l ≤ 11.
Proof. unfold monthOfDay. ltb_cases. Qed.

Lemma MonthFromTime_range (t : Z) : 0 ≤ MonthFromTime t ≤ 11.
Proof. apply monthOfDay_range. Qed.

Lemma Day_TimeWithinDay (t : Z) : t = MakeDate (Day t) (TimeWithinDay t).
Proof. unfold MakeDate, Day, TimeWithinDay, msPerDay. Z.div_mod_to_equations. lia. Qed.

Lemma TimeWithinDay_range (t : Z) : 0 ≤ TimeWithinDay t < msPerDay.
Proof. unfold TimeWithinDay, msPerDay. Z.div_mod_to_equations. lia. Qed.

Lemma Day_MakeDate (day time : Z) :
  0 ≤ time < msPerDay → Day (MakeDate day time) = day ∧ TimeWithinDay (MakeDate day time) = time.
Proof. unfold MakeDate, Day, TimeWithinDay, msPerDay. intros H. Z.div_mod_to_equations. lia. Qed.

Lemma DayWithinYear_range (t : Z) : 0 ≤ DayWithinYear t < 365 + InLeapYear t.
Proof.
  unfold DayWithinYear, InLeapYear, leapDay, YearFromTime.
  pose proof (YearFromDay_spec (Day t)) as H.
  rewrite DayFromYear_succ in H. unfold DaysInYear in H.
  destruct (isLeap (YearFromDay (Day t))); lia.
Qed.

(** The day number of a time value, split into year, month and date. *)
Lemma Day_civil (t : Z) :
  Day t = DayFromYear (YearFromTime t)
          + monthStart (MonthFromTime t) (leapDay (YearFromTime t)) + DateFromTime t - 1.
Proof. unfold DateFromTime, DayWithinYear, InLeapYear. lia. Qed.

Lemma DateFromTime_range (t : Z) :
  1 ≤ DateFromTime t ≤ DaysInMonth (YearFromTime t) (MonthFromTime t).
Proof.
  pose proof (DayWithinYear_range t) as Hd.
  unfold DateFromTime, DaysInMonth, MonthFromTime, InLeapYear in *.
  pose proof (leapDay_range (YearFromTime t)) as Hl.
  set (l := leapDay (YearFromTime t)) in *. set (d := DayWithinYear t) in *.
  clearbody l d.
  unfold monthOfDay. ltb_cases; month_starts; lia.
Qed.

(** From a civil date back to the time value: the three readers invert
    [MakeDay] on dates that exist. *)
Lemma civil_roundtrip (y m dt tod : Z) :
  0 ≤ m ≤ 11 → 1 ≤ dt ≤ DaysInMonth y m → 0 ≤ tod < msPerDay →
  let r := MakeDate (DayFromYear y + monthStart m (leapDay y) + dt - 1) tod in
  YearFromTime r = y ∧ MonthFromTime r = m ∧ DateFromTime r = dt ∧ TimeWithinDay r = tod.
Proof.
  intros Hm Hdt Htod r.
  destruct (Day_MakeDate (DayFromYear y + monthStart m (leapDay y) + dt - 1) tod Htod)
    as [HDay Htw]. fold r in HDay, Htw.
  pose proof (leapDay_range y) as Hl.
  assert (Hy : YearFromTime r = y).
  { unfold YearFromTime. rewrite HDay. apply YearFromDay_unique.
    rewrite DayFromYear_succ. unfold DaysInYear, DaysInMonth in *.
    unfold leapDay in *. destruct (isLeap y); month_cases m; month_starts; lia. }
  assert (Hw : DayWithinYear r = monthStart m (leapDay y) + dt - 1).
  { unfold DayWithinYear. rewrite HDay, Hy. lia. }
  assert (Hmo : MonthFromTime r = m).
  { unfold MonthFromTime, InLeapYear. rewrite Hw, Hy.
    unfold DaysInMonth in Hdt.
    set (l := leapDay y) in *. unfold monthOfDay.
    clearbody l. month_cases m; month_starts; ltb_cases. }
  repeat split; try done.
  unfold DateFromTime, InLeapYear. rewrite Hw, Hmo, Hy. lia.
Qed.

(** [MakeDay] on the fields read from [t], with the date moved by [k]. *)
Lemma MakeDay_shift_date (t k : Z) :
  MakeDay (YearFromTime t) (MonthFromTime t) (DateFromTime t + k) = Day t + k.
Proof.
  pose proof (MonthFromTime_range t) as Hm.
  unfold MakeDay.
  replace (MonthFromTime t / 12) with 0 by (Z.div_mod_to_equations; lia).
  replace (MonthFromTime t mod 12) with (MonthFromTime t) by (Z.div_mod_to_equations; lia).
  rewrite !Z.add_0_r. pose proof (Day_civil t). lia.
Qed.

Lemma setDate_shift (t k : Z) :
  setDate (Some t) ((λ d, d + k) <$> getDate (Some t)) = TimeClip (t + k * msPerDay).
Proof.
  cbn. rewrite MakeDay_shift_date. f_equal.
  pose proof (Day_TimeWithinDay t). unfold MakeDate in *. lia.
Qed.

Lemma TimeClip_in_range (t : Z) : Z.abs t ≤ maxTime → TimeClip t = Some t.
Proof. unfold TimeClip. intros H. destruct (Z.ltb_spec maxTime (Z.abs t)); [lia | done]. Qed.

Lemma DaysInMonth_bounds (y m : Z) : 0 ≤ m ≤ 11 → 28 ≤ DaysInMonth y m ≤ 31.
Proof.
  intros Hm. unfold DaysInMonth. pose proof (leapDay_range y).
  month_cases m; month_starts; lia.
Qed.

(** The month after month [m] of year [y]. *)
Lemma next_month_cases (y m : Z) :
  0 ≤ m ≤ 11 →
  (m < 11 ∧ y + (m + 1) / 12 = y ∧ (m + 1) mod 12 = m + 1)
  ∨ (m = 11 ∧ y + (m + 1) / 12 = y + 1 ∧ (m + 1) mod 12 = 0).
Proof. intros Hm. Z.div_mod_to_equations. lia. Qed.

(** The first of the following month is one month length after the
    first of this month. *)
Lemma next_month_start (y m : Z) :
  0 ≤ m ≤ 11 →
  DayFromYear (y + (m + 1) / 12) + monthStart ((m + 1) mod 12) (leapDay (y + (m + 1) / 12))
  = DayFromYear y + monthStart m (leapDay y) + DaysInMonth y m.
Proof.
  intros Hm.
  destruct (next_month_cases y m Hm) as [(Hlt & -> & ->) | (-> & -> & ->)].
  - unfold DaysInMonth. lia.
  - rewrite DayFromYear_succ. unfold DaysInYear, DaysInMonth, leapDay.
    destruct (isLeap y); month_starts; lia.
Qed.

(** What [setMonth(getMonth() + 1)] computes before clipping: the first
    of the following month at the same time of day, moved forward by the
    date minus one.  When that date exists in the following month the
    fields read back are that month and that date. *)
Lemma setMonth_next (t : Z) :
  let ym := YearFromTime t + (MonthFromTime t + 1) / 12 in
  let mn := (MonthFromTime t + 1) mod 12 in
  let r := MakeDate (MakeDay (YearFromTime t) (MonthFromTime t + 1) (DateFromTime t))
                    (TimeWithinDay t) in
  r = t + DaysInMonth (YearFromTime t) (MonthFromTime t) * msPerDay
  ∧ (∃ f, YearFromTime f = ym ∧ MonthFromTime f = mn ∧ DateFromTime f = 1
          ∧ TimeWithinDay f = TimeWithinDay t ∧ r = f + (DateFromTime t - 1) * msPerDay)
  ∧ (DateFromTime t ≤ DaysInMonth ym mn →
     YearFromTime r = ym ∧ MonthFromTime r = mn ∧ DateFromTime r = DateFromTime t
     ∧ TimeWithinDay r = TimeWithinDay t).
Proof.
  intros ym mn r.
  pose proof (MonthFromTime_range t) as Hm.
  pose proof (TimeWithinDay_range t) as Htod.
  pose proof (DateFromTime_range t) as Hd.
  assert (Hmn : 0 ≤ mn ≤ 11) by (subst mn; Z.div_mod_to_equations; lia).
  assert (Hr : r = MakeDate (DayFromYear ym + monthStart mn (leapDay ym) + DateFromTime t - 1)
                            (TimeWithinDay t)) by done.
  split; [| split].
  - rewrite Hr. subst ym mn. rewrite next_month_start by done.
    pose proof (Day_civil t). pose proof (Day_TimeWithinDay t).
    unfold MakeDate in *. lia.
  - exists (MakeDate (DayFromYear ym + monthStart mn (leapDay ym) + 1 - 1) (TimeWithinDay t)).
    pose proof (DaysInMonth_bounds ym mn Hmn).
    destruct (civil_roundtrip ym mn 1 (TimeWithinDay t)) as (? & ? & ? & ?); [done | lia | done |].
    do 4 (split; [assumption |]). rewrite Hr. unfold MakeDate. lia.
  - intros Hex. rewrite Hr. apply civil_roundtrip; [done | lia | done].
Qed.
End Calendar.

(* ===================================================================== *)
(** * The next execution time *)
(* ===================================================================== *)
Section NextExecutionTime.
Import JsDate Executor.

Lemma seconds_shift (t k : Z) : (t + k * msPerDay) / 1000 = t / 1000 + k * 86400.
Proof. unfold msPerDay. Z.div_mod_to_equations. lia. Qed.

(** C4, as the claim has it, fails on its own example: one month after
    2024-01-31 is 2024-03-02, not 2024-02-29. *)
Lemma monthly_from_jan_31_is_mar_2 :
  calculateNextExecutionTime MONTHLY (Some (utc 2024 1 31))
    = Return (Some (utc 2024 3 2 / 1000))
  ∧ calculateNextExecutionTime MONTHLY (Some (utc 2024 1 31))
    ≠ Return (Some (utc 2024 2 29 / 1000)).
Proof. split; [vm_compute; reflexivity | vm_compute; discriminate]. Qed.

(** C4 (amended). For a reference instant [t] (in ms) at least 31 days
    inside the range of [Date], the next execution time is [t] in whole
    seconds plus 86400 for DAILY, plus 604800 for WEEKLY, plus 1209600 for
    BIWEEKLY. For MONTHLY it is [r] in whole seconds, where [r] is [t] plus
    the length of the calendar month [t] lies in; when the date of [t]
    exists in the following month, [r] reads back as that month with the
    same date and time of day. (In every case [r] is the first of the
    following month, at the time of day of [t], moved forward by the date
    of [t] minus one days.) *)
Theorem calculateNextExecutionTime_advance (t : Z) :
  Z.abs t + 31 * msPerDay ≤ maxTime →
  calculateNextExecutionTime DAILY (Some t) = Return (Some (t / 1000 + 86400))
  ∧ calculateNextExecutionTime WEEKLY (Some t) = Return (Some (t / 1000 + 604800))
  ∧ calculateNextExecutionTime BIWEEKLY (Some t) = Return (Some (t / 1000 + 1209600))
  ∧ ∃ r,
      calculateNextExecutionTime MONTHLY (Some t) = Return (Some (r / 1000))
      ∧ r = t + DaysInMonth (YearFromTime t) (MonthFromTime t) * msPerDay
      ∧ (∃ f, YearFromTime f = YearFromTime t + (MonthFromTime t + 1) / 12
              ∧ MonthFromTime f = (MonthFromTime t + 1) mod 12
              ∧ DateFromTime f = 1
              ∧ TimeWithinDay f = TimeWithinDay t
              ∧ r = f + (DateFromTime t - 1) * msPerDay)
      ∧ (DateFromTime t ≤ DaysInMonth (YearFromTime t + (MonthFromTime t + 1) / 12)
                                       ((MonthFromTime t + 1) mod 12) →
         YearFromTime r = YearFromTime t + (MonthFromTime t + 1) / 12
         ∧ MonthFromTime r = (MonthFromTime t + 1) mod 12
         ∧ DateFromTime r = DateFromTime t
         ∧ TimeWithinDay r = TimeWithinDay t).
Proof.
  intros Hrange.
  assert (Hday : ∀ k, 0 ≤ k ≤ 31 → TimeClip (t + k * msPerDay) = Some (t + k * msPerDay)).
  { intros k Hk. apply TimeClip_in_range. unfold msPerDay, maxTime in *. lia. }
  split; [| split; [| split]].
  - unfold calculateNextExecutionTime. change (String.eqb DAILY DAILY) with true. cbv iota.
    rewrite setDate_shift, (Hday 1) by lia. cbn [getTime fmap option_fmap option_map].
    by rewrite seconds_shift.
  - unfold calculateNextExecutionTime.
    change (String.eqb WEEKLY DAILY) with false. change (String.eqb WEEKLY WEEKLY) with true.
    cbv iota. rewrite setDate_shift, (Hday 7) by lia.
    cbn [getTime fmap option_fmap option_map]. by rewrite seconds_shift.
  - unfold calculateNextExecutionTime.
    change (String.eqb BIWEEKLY DAILY) with false.
    change (String.eqb BIWEEKLY WEEKLY) with false.
    change (String.eqb BIWEEKLY BIWEEKLY) with true.
    cbv iota. rewrite setDate_shift, (Hday 14) by lia.
    cbn [getTime fmap option_fmap option_map]. by rewrite seconds_shift.
  - destruct (setMonth_next t) as (Hr & Hf & Hback).
    pose proof (DaysInMonth_bounds (YearFromTime t) (MonthFromTime t) (MonthFromTime_range t)).
    eexists. split; [| split; [exact Hr | split; [exact Hf | exact Hback]]].
    unfold calculateNextExecutionTime.
    change (String.eqb MONTHLY DAILY) with false.
    change (String.eqb MONTHLY WEEKLY) with false.
    change (String.eqb MONTHLY BIWEEKLY) with false.
    change (String.eqb MONTHLY MONTHLY) with true.
    cbv iota. cbn [setMonth getMonth getTime fmap option_fmap option_map mbind option_bind].
    rewrite Hr, Hday by lia. reflexivity.
Qed.

(** The theorem at 2024-01-15T10:30:00.500Z, whose date exists in
    February. *)
Lemma calculateNextExecutionTime_advance_witness :
  let t := utc 2024 1 15 + 37800500 in
  Z.abs t + 31 * msPerDay ≤ maxTime
  ∧ calculateNextExecutionTime DAILY (Some t) = Return (Some (t / 1000 + 86400))
  ∧ ∃ r, calculateNextExecutionTime MONTHLY (Some t) = Return (Some (r / 1000))
         ∧ MonthFromTime r = 1 ∧ DateFromTime r = 15.
Proof.
  intros t.
  assert (Hrange : Z.abs t + 31 * msPerDay ≤ maxTime) by (vm_compute; discriminate).
  destruct (calculateNextExecutionTime_advance t Hrange)
    as (Hd & _ & _ & r & Hm & _ & _ & Hback).
  split; [exact Hrange | split; [exact Hd |]].
  exists r. split; [exact Hm |].
  destruct Hback as (_ & Hmo & Hda & _); [vm_compute; discriminate |].
  split; [exact Hmo | exact Hda].
Defined.

End NextExecutionTime.

(* ===================================================================== *)
(** * Stepping through computations *)
(* ===================================================================== *)
Section Stepping.
Context {A B : Type}.

Lemma bind_Return (m : M A) (k : A → M B) w a w' :
  m w = (Return a, w') → (m ≫= k) w = k a w'.
Proof. intros H. unfold mbind, M_bind, bind. by rewrite H. Qed.

Lemma bind_Throw (m : M A) (k : A → M B) w e w' :
  m w = (Throw e, w') → (m ≫= k) w = (Throw e, w').
Proof. intros H. unfold mbind, M_bind, bind. by rewrite H. Qed.

Lemma try_catch_Return (m : M A) (h : Thrown → M A) w a w' :
  m w = (Return a, w') → try_catch m h w = (Return a, w').
Proof. intros H. unfold try_catch. by rewrite H. Qed.

Lemma try_catch_Throw (m : M A) (h : Thrown → M A) w e w' :
  m w = (Throw e, w') → try_catch m h w = h e w'.
Proof. intros H. unfold try_catch. by rewrite H. Qed.

(** A handler that only rethrows is no handler. *)
Lemma try_catch_rethrow (m : M A) w : try_catch m (λ error, throw error) w = m w.
Proof. unfold try_catch, throw. by destruct (m w) as [[a | e] w']. Qed.

End Stepping.

Lemma attribute_exists_Some {V} (row : V) : attribute_exists (Some row) = true.
Proof. unfold attribute_exists. apply bool_decide_eq_true. by eexists. Qed.

Lemma attribute_exists_None {V} : attribute_exists (@None V) = false.
Proof. unfold attribute_exists. apply bool_decide_eq_false. by intros [? ?]. Qed.

Lemma plans_update_present key set w row :
  plansTable w !! key = Some row →
  plans_update key attribute_exists set w = (Return (), set_plansTable (alter set key) w).
Proof. intros H. unfold plans_update. by rewrite H, attribute_exists_Some. Qed.

Lemma plans_update_absent key set w :
  plansTable w !! key = None →
  plans_update key attribute_exists set w = (Throw ConditionalCheckFailedException, w).
Proof. intros H. unfold plans_update. by rewrite H, attribute_exists_None. Qed.


(* ===================================================================== *)
(** * Functions in flight *)
(* ===================================================================== *)
Section AsyncFacts.
Context {A : Type}.

Lemma in_turn_cons (m : M A) (ms : list (M A)) w r w1 rs w2 :
  m w = (r, w1) → in_turn ms w1 = (Return rs, w2) →
  in_turn (m :: ms) w = (Return (r :: rs), w2).
Proof.
  intros Hm Hms. cbn [in_turn].
  rewrite (bind_Return _ _ w r w1) by (unfold settle; by rewrite Hm).
  by rewrite (bind_Return _ _ w1 rs w2).
Qed.

(** Awaited on its own, a function that was called already goes on as if
    it were called now. *)
Lemma run_start (t : Async A) w : run t w = run (start t w).1 (start t w).2.
Proof.
  revert w. induction t as [c | X step k IH | X call k IH]; intros w; cbn [run start];
    [done | | done].
  destruct (step w) as [r w']. apply IH.
Qed.

Lemma length_start_each (ts : list (Async A)) w : length (start_each ts w).1 = length ts.
Proof.
  revert w. induction ts as [| t ts IH]; intros w; cbn [start_each]; [done |].
  destruct (start t w) as [p w1]. specialize (IH w1).
  destruct (start_each ts w1) as [ps w2]. cbn in *. by rewrite IH.
Qed.

Lemma length_answer order (ps : list (Async A)) w : length (answer order ps w).1 = length ps.
Proof.
  revert ps w. induction order as [| i order IH]; intros ps w; cbn [answer]; [done |].
  destruct (ps !! i) as [p |]; [| apply IH].
  destruct (resume p w) as [p' w']. by rewrite IH, length_insert.
Qed.

(** ** Invariants of a fan-out

    A property of the promises and the world that no answer to a pending
    call breaks holds when all of them have settled, in whatever order
    the calls were answered. *)
Section Interleaving.
Context (P : list (Async A) → World → Prop).
Hypothesis P_resume : ∀ ps w i p,
  P ps w → ps !! i = Some p → P (<[i := (resume p w).1]> ps) (resume p w).2.

Lemma answer_invariant order ps w :
  P ps w → P (answer order ps w).1 (answer order ps w).2.
Proof.
  revert ps w. induction order as [| i order IH]; intros ps w HP; cbn [answer]; [done |].
  destruct (ps !! i) as [p |] eqn:Hp; [| by apply IH].
  pose proof (P_resume ps w i p HP Hp) as H.
  destruct (resume p w) as [p' w']. by apply IH.
Qed.

Lemma resume_middle pre p post w :
  P (pre ++ p :: post) w → P (pre ++ (resume p w).1 :: post) (resume p w).2.
Proof.
  intros HP.
  pose proof (P_resume _ w (length pre) p HP (list_lookup_middle _ _ _ _ eq_refl)) as H.
  by rewrite insert_app_r_alt, Nat.sub_diag in H.
Qed.

Lemma run_invariant t : ∀ pre post w,
  P (pre ++ (start t w).1 :: post) (start t w).2 →
  P (pre ++ Settled (run t w).1 :: post) (run t w).2.
Proof.
  induction t as [c | X step k IH | X call k IH]; intros pre post w HP.
  - done.
  - cbn [run start] in *. destruct (step w) as [r w1]. by apply IH.
  - cbn [start fst snd] in HP. apply resume_middle in HP.
    cbn [run resume] in *. destruct (call w) as [r w1]. by apply IH.
Qed.

Lemma in_turn_invariant post : ∀ pre w,
  P (pre ++ post) w →
  ∃ rs w', in_turn (run <$> post) w = (Return rs, w')
    ∧ length rs = length post
    ∧ P (pre ++ (Settled <$> rs)) w'.
Proof.
  induction post as [| t post IH]; intros pre w HP.
  - exists [], w. by split_and!.
  - assert (Hs : P (pre ++ (start t w).1 :: post) (start t w).2).
    { destruct t as [c | X step k | X call k]; [done | | done].
      by apply resume_middle in HP. }
    apply run_invariant in Hs. destruct (run t w) as [c w1] eqn:Hrun.
    cbn [fst snd] in Hs. rewrite cons_middle, app_assoc in Hs.
    destruct (IH _ _ Hs) as (rs & w' & Hrest & Hlen & HP').
    exists (c :: rs), w'. split_and!.
    + cbn [fmap list_fmap]. by apply in_turn_cons with w1.
    + cbn. by rewrite Hlen.
    + by rewrite <- app_assoc in HP'.
Qed.

Theorem allSettled_invariant order ps w :
  P ps w →
  ∃ rs w', allSettled order ps w = (Return rs, w')
    ∧ length rs = length ps
    ∧ P (Settled <$> rs) w'.
Proof.
  intros HP. apply (answer_invariant order) in HP.
  pose proof (length_answer order ps w) as Hlen.
  unfold allSettled. destruct (answer order ps w) as [ps' w1]. cbn [fst snd] in *.
  destruct (in_turn_invariant ps' [] w1 HP) as (rs & w' & Hrun & Hlen' & HP').
  exists rs, w'. split_and!; [done | congruence | done].
Qed.

End Interleaving.

End AsyncFacts.

(** Lists that are changed in one place. *)
Section OneChange.
Context {J Ph X : Type} (f : J * Ph → option X).

Lemma omap_zip_insert_same js phases i j ph ph' :
  js !! i = Some j → phases !! i = Some ph → f (j, ph') = f (j, ph) →
  omap f (zip js (<[i := ph']> phases)) = omap f (zip js phases).
Proof.
  revert phases i. induction js as [| j0 js IH]; intros [| p0 phases] [| i] Hj Hp Hf;
    try done; cbn in Hj, Hp |- *.
  - simplify_eq. by rewrite Hf.
  - destruct (f (j0, p0)); [f_equal |]; by apply IH.
Qed.

Lemma omap_zip_insert_new js phases i j ph ph' x :
  js !! i = Some j → phases !! i = Some ph → f (j, ph) = None → f (j, ph') = Some x →
  omap f (zip js (<[i := ph']> phases)) ≡ₚ x :: omap f (zip js phases).
Proof.
  revert phases i. induction js as [| j0 js IH]; intros [| p0 phases] [| i] Hj Hp Hold Hnew;
    try done; cbn in Hj, Hp |- *.
  - simplify_eq. by rewrite Hold, Hnew.
  - pose proof (IH phases i Hj Hp Hold Hnew) as Hperm.
    destruct (f (j0, p0)) as [y |]; [| exact Hperm].
    etrans; [apply Permutation_skip, Hperm | apply Permutation_swap].
Qed.

End OneChange.


(* ===================================================================== *)
(** * The Scanner *)
(* ===================================================================== *)
Section ScannerFacts.
Import Scanner Dispatch Fixture.
Context (env : Env).

Lemma updatePlanStatus_present plan status w row :
  plansTable w !! plan_key plan = Some row →
  updatePlanStatus env plan status w
  = (Return (), set_plansTable (alter (with_status status (Date_now env)) (plan_key plan)) w).
Proof.
  intros H. unfold updatePlanStatus. rewrite try_catch_rethrow.
  by apply plans_update_present with row.
Qed.

Lemma updatePlanStatus_absent plan status w :
  plansTable w !! plan_key plan = None →
  updatePlanStatus env plan status w = (Throw ConditionalCheckFailedException, w).
Proof.
  intros H. unfold updatePlanStatus. rewrite try_catch_rethrow.
  by apply plans_update_absent.
Qed.

(** Every way [processPlansForExecution] can go when nothing else is in
    flight, with the world it leaves. *)
Lemma processPlansForExecution_cases plan w :
  let executionId := uuidv4_at env (uuidCount w) in
  let now := Date_now env in
  let key := plan_key plan in
  let w1 := set_uuidCount S w in
  run (processPlansForExecution env plan) w =
  match plansTable w !! key with
  | None => (Throw ConditionalCheckFailedException, w1)
  | Some _ =>
      let w2 := set_plansTable (alter (with_status PENDING_EXECUTION now) key) w1 in
      match sendMessage_fault env (task_request env plan executionId) with
      | Some e => (Throw e, set_plansTable (alter (with_status ACTIVE now) key) w2)
      | None =>
          let w3 := set_executionQueue (λ q, q ++ [task_request env plan executionId]) w2 in
          match putEvents_fault env (scheduled_entry env plan executionId) with
          | Some e => (Throw e, set_plansTable (alter (with_status ACTIVE now) key) w3)
          | None =>
              (Return (),
               set_eventBus (λ b, b ++ [scheduled_entry env plan executionId]) w3)
          end
      end
  end.
Proof.
  intros executionId now key w1.
  unfold processPlansForExecution, mbind, Async_bind, sync, await, mret, Async_ret, async_throw.
  cbn [async_bind async_try_catch run]. unfold uuidv4.
  cbn [async_bind async_try_catch run]. fold executionId w1.
  destruct (plansTable w !! key) as [row |] eqn:Hrow.
  - assert (Hrow1 : plansTable w1 !! plan_key plan = Some row) by done.
    rewrite (updatePlanStatus_present plan PENDING_EXECUTION w1 row Hrow1).
    fold key now. set (w2 := set_plansTable (alter (with_status PENDING_EXECUTION now) key) w1).
    assert (Hrow2 : plansTable w2 !! plan_key plan
                    = Some (with_status PENDING_EXECUTION now row)).
    { cbn. fold key. by rewrite lookup_alter_eq, Hrow. }
    cbn [async_bind async_try_catch run]. unfold sqs_sendMessage.
    destruct (sendMessage_fault env (task_request env plan executionId)) as [e |] eqn:Hsend.
    + cbn [async_bind async_try_catch run].
      rewrite (updatePlanStatus_present plan ACTIVE w2 _ Hrow2). done.
    + set (w3 := set_executionQueue (λ q, q ++ [task_request env plan executionId]) w2).
      cbn [async_bind async_try_catch run]. unfold eventBridge_putEvents.
      destruct (putEvents_fault env (scheduled_entry env plan executionId)) as [e |] eqn:Hput.
      * cbn [async_bind async_try_catch run].
        rewrite (updatePlanStatus_present plan ACTIVE w3 _ Hrow2). done.
      * done.
  - assert (Hrow1 : plansTable w1 !! plan_key plan = None) by done.
    rewrite (updatePlanStatus_absent plan PENDING_EXECUTION w1 Hrow1).
    cbn [async_bind async_try_catch run].
    rewrite (updatePlanStatus_absent plan ACTIVE w1 Hrow1). done.
Qed.

(** The function is called: the identifier is drawn, and the function
    waits for the update. *)
Lemma start_processPlansForExecution plan w :
  start (processPlansForExecution env plan) w
  = (pending env (plan, uuidv4_at env (uuidCount w)) Updating, set_uuidCount S w).
Proof. reflexivity. Qed.

(** The pending call of a plan is answered. *)
Lemma resume_pending plan executionId phase w :
  let job := (plan, executionId) in
  let now := Date_now env in
  let key := plan_key plan in
  resume (pending env job phase) w =
  match phase with
  | Updating =>
      match plansTable w !! key with
      | Some _ =>
          (pending env job Sending,
           set_plansTable (alter (with_status PENDING_EXECUTION now) key) w)
      | None => (pending env job (Reverting ConditionalCheckFailedException), w)
      end
  | Sending =>
      match sendMessage_fault env (task_request env plan executionId) with
      | None =>
          (pending env job Publishing,
           set_executionQueue (λ q, q ++ [task_request env plan executionId]) w)
      | Some e => (pending env job (Reverting e), w)
      end
  | Publishing =>
      match putEvents_fault env (scheduled_entry env plan executionId) with
      | None =>
          (pending env job (Finished (Return ())),
           set_eventBus (λ b, b ++ [scheduled_entry env plan executionId]) w)
      | Some e => (pending env job (Reverting e), w)
      end
  | Reverting e =>
      (pending env job (Finished (Throw e)),
       match plansTable w !! key with
       | Some _ => set_plansTable (alter (with_status ACTIVE now) key) w
       | None => w
       end)
  | Finished c => (pending env job (Finished c), w)
  end.
Proof.
  intros job now key. destruct phase as [| | | e | c]; cbn [pending job].
  - unfold mbind, Async_bind, await. cbn [async_bind async_try_catch resume].
    destruct (plansTable w !! key) as [row |] eqn:Hrow.
    + by rewrite (updatePlanStatus_present plan PENDING_EXECUTION w row Hrow).
    + by rewrite (updatePlanStatus_absent plan PENDING_EXECUTION w Hrow).
  - unfold mbind, Async_bind, await. cbn [async_bind async_try_catch resume].
    unfold sqs_sendMessage. by destruct (sendMessage_fault env _).
  - unfold mbind, Async_bind, await. cbn [async_bind async_try_catch resume].
    unfold eventBridge_putEvents. by destruct (putEvents_fault env _).
  - unfold revert_and_rethrow, mbind, Async_bind, await.
    cbn [async_bind async_try_catch resume].
    destruct (plansTable w !! key) as [row |] eqn:Hrow.
    + by rewrite (updatePlanStatus_present plan ACTIVE w row Hrow).
    + by rewrite (updatePlanStatus_absent plan ACTIVE w Hrow).
  - done.
Qed.


(** One plan of the batch moves on. *)
Lemma in_flight_step w0 js phases w i job phase phase' w' :
  in_flight env w0 js phases w →
  js !! i = Some job → phases !! i = Some phase →
  uuidCount w' = uuidCount w →
  consistent env (plansTable w0) job phase' →
  (∀ k, plansTable w' !! k = None ↔ plansTable w !! k = None) →
  (∀ k, k ≠ plan_key job.1 → plansTable w' !! k = plansTable w !! k) →
  (plansTable w !! plan_key job.1 = row_by env phase <$> plansTable w0 !! plan_key job.1 →
   plansTable w' !! plan_key job.1 = row_by env phase' <$> plansTable w0 !! plan_key job.1) →
  (executionQueue w' = executionQueue w
   ∧ sent_by env (plansTable w0) job phase' = sent_by env (plansTable w0) job phase
   ∨ ∃ req, executionQueue w' = executionQueue w ++ [req]
       ∧ sent_by env (plansTable w0) job phase = None
       ∧ sent_by env (plansTable w0) job phase' = Some req) →
  (eventBus w' = eventBus w ∧ published_by env job phase' = published_by env job phase
   ∨ ∃ entry, eventBus w' = eventBus w ++ [entry]
       ∧ published_by env job phase = None
       ∧ published_by env job phase' = Some entry) →
  in_flight env w0 js (<[i := phase']> phases) w'.
Proof.
  intros (Hlen & Hcount & Hdom & Hcons & Hoth & Hrows & Hq & Hb) Hjob Hphase
    Hcount' Hcons' Hdom' Hoth' Hrow' Hq' Hb'.
  unfold in_flight. split_and!.
  - by rewrite length_insert.
  - congruence.
  - intros k. by rewrite Hdom', Hdom.
  - rewrite <- (list_insert_id js i job Hjob). by apply Forall2_insert.
  - intros k Hk. rewrite Hoth', Hoth; [done | done |].
    intros ->. apply Hk. apply list_elem_of_fmap. exists job. split; [done |].
    by eapply list_elem_of_lookup_2.
  - intros Hnd. specialize (Hrows Hnd).
    apply Forall2_same_length_lookup_2; [by rewrite length_insert |].
    intros i' job' phase'' Hjob' Hphase''.
    destruct (decide (i' = i)) as [-> | Hne].
    + rewrite list_lookup_insert_eq in Hphase'' by (by eapply lookup_lt_Some).
      simplify_eq. apply Hrow'.
      exact (Forall2_lookup_lr _ _ _ i _ _ Hrows Hjob Hphase).
    + rewrite list_lookup_insert_ne in Hphase'' by done.
      rewrite Hoth'; [exact (Forall2_lookup_lr _ _ _ i' _ _ Hrows Hjob' Hphase'') |].
      intros Hkey. apply Hne.
      eapply (NoDup_lookup _ _ _ _ Hnd); rewrite list_lookup_fmap.
      * by rewrite Hjob'.
      * rewrite Hjob. cbn. by rewrite Hkey.
  - destruct Hq as (sent & Hsent & Hperm).
    destruct Hq' as [[Hsame Heq] | (req & Hmore & Hold & Hnew)].
    + exists sent. split; [congruence |].
      by rewrite (omap_zip_insert_same _ js phases i job phase phase').
    + exists (sent ++ [req]). split; [by rewrite Hmore, Hsent, app_assoc |].
      rewrite (omap_zip_insert_new _ js phases i job phase phase' req) by done.
      by rewrite <- Hperm, Permutation_app_comm.
  - destruct Hb as (published & Hpub & Hperm).
    destruct Hb' as [[Hsame Heq] | (entry & Hmore & Hold & Hnew)].
    + exists published. split; [congruence |].
      by rewrite (omap_zip_insert_same _ js phases i job phase phase').
    + exists (published ++ [entry]). split; [by rewrite Hmore, Hpub, app_assoc |].
      rewrite (omap_zip_insert_new _ js phases i job phase phase' entry) by done.
      by rewrite <- Hperm, Permutation_app_comm.
Qed.


(** The pending call of a plan of the batch is answered. *)
Lemma in_flight_resume w0 js phases w i job phase :
  in_flight env w0 js phases w →
  js !! i = Some job → phases !! i = Some phase →
  ∃ phase' w',
    resume (pending env job phase) w = (pending env job phase', w')
    ∧ in_flight env w0 js (<[i := phase']> phases) w'.
Proof.
  intros Hin Hjob Hphase. destruct job as [plan executionId].
  pose proof Hin as (_ & _ & Hdom & Hcons & _).
  pose proof (Forall2_lookup_lr _ _ _ i _ _ Hcons Hjob Hphase) as Hc. clear Hcons.
  rewrite resume_pending. cbv zeta.
  specialize (Hdom (plan_key plan)).
  destruct phase as [| | | e | c]; cbn [consistent fst snd] in Hc.
  - destruct (plansTable w !! plan_key plan) as [row |] eqn:Hrow.
    + assert (Hstored : is_Some (plansTable w0 !! plan_key plan)).
      { rewrite <- not_eq_None_Some, <- Hdom. done. }
      eexists Sending, _. split; [reflexivity |].
      eapply (in_flight_step _ _ _ _ _ _ _ _ _ Hin Hjob Hphase);
        cbn [fst snd plansTable set_plansTable].
      * done.
      * done.
      * intros k. by rewrite lookup_alter_None.
      * intros k Hk. by rewrite lookup_alter_ne.
      * intros Hw. rewrite lookup_alter_eq, Hw. by destruct (plansTable w0 !! _).
      * by left.
      * by left.
    + assert (Hstored : plansTable w0 !! plan_key plan = None) by (by apply Hdom).
      eexists (Reverting _), _. split; [reflexivity |].
      eapply (in_flight_step _ _ _ _ _ _ _ _ _ Hin Hjob Hphase); cbn [fst snd consistent].
      * done.
      * unfold plan_outcome. by rewrite Hstored.
      * done.
      * done.
      * intros _. by rewrite Hrow, Hstored.
      * left. split; [done |]. cbn. by rewrite Hstored.
      * by left.
  - destruct Hc as [row Hstored].
    destruct (sendMessage_fault env (task_request env plan executionId)) as [e |] eqn:Hsend.
    + eexists (Reverting e), _. split; [reflexivity |].
      eapply (in_flight_step _ _ _ _ _ _ _ _ _ Hin Hjob Hphase); cbn [fst snd consistent].
      * done.
      * unfold plan_outcome. by rewrite Hstored, Hsend.
      * done.
      * done.
      * done.
      * left. split; [done |]. cbn. by rewrite Hstored, Hsend.
      * by left.
    + eexists Publishing, _. split; [reflexivity |].
      eapply (in_flight_step _ _ _ _ _ _ _ _ _ Hin Hjob Hphase); cbn [fst snd consistent].
      * done.
      * split; [by eexists | done].
      * done.
      * done.
      * done.
      * right. eexists. split; [reflexivity |]. cbn. by rewrite Hstored, Hsend.
      * by left.
  - destruct Hc as [[row Hstored] Hsend].
    destruct (putEvents_fault env (scheduled_entry env plan executionId)) as [e |] eqn:Hput.
    + eexists (Reverting e), _. split; [reflexivity |].
      eapply (in_flight_step _ _ _ _ _ _ _ _ _ Hin Hjob Hphase); cbn [fst snd consistent].
      * done.
      * unfold plan_outcome. by rewrite Hstored, Hsend, Hput.
      * done.
      * done.
      * done.
      * by left.
      * by left.
    + eexists (Finished (Return ())), _. split; [reflexivity |].
      eapply (in_flight_step _ _ _ _ _ _ _ _ _ Hin Hjob Hphase); cbn [fst snd consistent].
      * done.
      * unfold plan_outcome. by rewrite Hstored, Hsend, Hput.
      * done.
      * done.
      * done.
      * by left.
      * right. eexists. by split_and!.
  - eexists (Finished (Throw e)), _. split; [reflexivity |].
    eapply (in_flight_step _ _ _ _ _ _ _ _ _ Hin Hjob Hphase); cbn [fst snd consistent].
    + by destruct (plansTable w !! plan_key plan).
    + done.
    + intros k. destruct (plansTable w !! plan_key plan); [| done].
      cbn. by rewrite lookup_alter_None.
    + intros k Hk. destruct (plansTable w !! plan_key plan); [| done].
      cbn. by rewrite lookup_alter_ne.
    + intros Hw. destruct (plansTable w0 !! plan_key plan) as [stored |]; cbn in Hw |- *.
      * rewrite Hw. cbn. by rewrite lookup_alter_eq, Hw.
      * by rewrite Hw.
    + left. by destruct (plansTable w !! plan_key plan).
    + left. by destruct (plansTable w !! plan_key plan).
  - exists (Finished c), w. split; [done |]. by rewrite list_insert_id.
Qed.

(** The batch when every function has been called and none has been
    answered. *)
Lemma in_flight_initial w0 js : in_flight env w0 js (replicate (length js) Updating) w0.
Proof.
  assert (Hnone : ∀ {X} (f : (SavingsPlan * string) * Phase → option X),
            (∀ job, f (job, Updating) = None) →
            omap f (zip js (replicate (length js) Updating)) = []).
  { intros X f Hf. induction js as [| job js' IH]; [done |]. cbn. by rewrite Hf. }
  assert (Hall : ∀ R : SavingsPlan * string → Phase → Prop,
            (∀ job, R job Updating) → Forall2 R js (replicate (length js) Updating)).
  { intros R HR. clear Hnone. induction js as [| job js' IH]; cbn; by constructor. }
  unfold in_flight. split_and!; try done.
  - by rewrite length_replicate.
  - by apply Hall.
  - intros _. apply Hall. intros job. cbn. by destruct (plansTable w0 !! _).
  - exists []. by rewrite app_nil_r, Hnone.
  - exists []. by rewrite app_nil_r, Hnone.
Qed.

Lemma jobs_cons count plan plans :
  jobs env count (plan :: plans) = (plan, uuidv4_at env count) :: jobs env (S count) plans.
Proof. done. Qed.

Lemma length_jobs count plans : length (jobs env count plans) = length plans.
Proof.
  revert count. induction plans as [| p plans IH]; intros count; [done |].
  rewrite jobs_cons. cbn. by rewrite IH.
Qed.

Lemma jobs_plans count plans : (plan_key ∘ fst) <$> jobs env count plans = plan_key <$> plans.
Proof.
  revert count. induction plans as [| p plans IH]; intros count; [done |].
  rewrite jobs_cons. cbn. by rewrite IH.
Qed.

Lemma jobs_lookup count plans i p :
  plans !! i = Some p → jobs env count plans !! i = Some (p, uuidv4_at env (count + i)).
Proof.
  revert count i. induction plans as [| q plans IH]; intros count [| i] Hi; try done.
  - cbn in Hi. simplify_eq. rewrite jobs_cons. cbn. by rewrite Nat.add_0_r.
  - rewrite jobs_cons, lookup_cons. rewrite (IH (S count) i Hi). do 3 f_equal. lia.
Qed.

(** A promise that has settled was in its last phase. *)
Lemma pending_settled js phases rs :
  length phases = length js →
  zip_with (pending env) js phases = Settled <$> rs → phases = Finished <$> rs.
Proof.
  revert phases rs. induction js as [| [plan executionId] js IH];
    intros [| phase phases] [| r rs] Hlen Heq; try done.
  cbn in Hlen, Heq. injection Heq as Hhead Htail.
  cbn. f_equal; [| apply IH; [lia | done]].
  by destruct phase; try discriminate; injection Hhead as ->.
Qed.

(** The functions of a batch are called. *)
Lemma start_each_plans plans w :
  ∃ w1,
    start_each (processPlansForExecution env <$> plans) w
    = (zip_with (pending env) (jobs env (uuidCount w) plans)
         (replicate (length plans) Updating), w1)
    ∧ plansTable w1 = plansTable w
    ∧ transactionsTable w1 = transactionsTable w
    ∧ executionQueue w1 = executionQueue w
    ∧ eventBus w1 = eventBus w
    ∧ uuidCount w1 = (uuidCount w + length plans)%nat
    ∧ randomCount w1 = randomCount w
    ∧ exchangeClient w1 = exchangeClient w.
Proof.
  revert w. induction plans as [| p plans IH]; intros w.
  - exists w. cbn. split_and!; first [done | lia].
  - destruct (IH (set_uuidCount S w)) as (w1 & Hrun & Hp & Ht & Hq & Hb & Hc & Hr & Hx).
    exists w1. cbn [fmap list_fmap start_each].
    rewrite start_processPlansForExecution, Hrun. split_and!; try done.
    rewrite Hc. cbn. lia.
Qed.

(** When every plan of the batch has settled. *)
Lemma finished_batch stored count plans rs :
  Forall2 (consistent env stored) (jobs env count plans) (Finished <$> rs) →
  rs = outcomes env stored count plans
  ∧ omap (λ jp, sent_by env stored jp.1 jp.2) (zip (jobs env count plans) (Finished <$> rs))
    = sent_tasks env stored count plans
  ∧ omap (λ jp, published_by env jp.1 jp.2) (zip (jobs env count plans) (Finished <$> rs))
    = published_entries env stored count plans.
Proof.
  revert count rs. induction plans as [| p plans IH]; intros count [| r rs] H;
    try by inversion H.
  rewrite jobs_cons in *. cbn [fmap list_fmap] in H. apply Forall2_cons in H as [Hr H].
  destruct (IH _ _ H) as (-> & Hsent & Hpub). cbn in Hr. subst r.
  cbn [outcomes sent_tasks published_entries zip zip_with omap list_omap fmap list_fmap
       fst snd sent_by published_by].
  rewrite Hsent, Hpub. split_and!; [done | |].
  - destruct (stored !! plan_key p); [| done]. by destruct (sendMessage_fault env _).
  - unfold plan_outcome. destruct (stored !! plan_key p); [| done].
    destruct (sendMessage_fault env _); [done |]. by destruct (putEvents_fault env _).
Qed.

Lemma outcomes_lookup stored count plans i p :
  plans !! i = Some p →
  outcomes env stored count plans !! i
  = Some (plan_outcome env stored (uuidv4_at env (count + i)) p).
Proof.
  revert count i. induction plans as [| q plans IH]; intros count [| i] Hi; try done.
  - cbn in Hi. simplify_eq. cbn. by rewrite Nat.add_0_r.
  - cbn [outcomes]. rewrite lookup_cons, (IH (S count) i Hi). do 3 f_equal. lia.
Qed.

(** The fan-out over a batch, in whatever order the pending calls are
    answered. *)
Lemma fan_out_closed_form plans w :
  let stored := plansTable w in
  let count := uuidCount w in
  ∃ w',
    fan_out env plans w = (Return (outcomes env stored count plans), w')
    ∧ uuidCount w' = (count + length plans)%nat
    ∧ (∀ k, plansTable w' !! k = None ↔ stored !! k = None)
    ∧ (∃ sent, executionQueue w' = executionQueue w ++ sent
         ∧ sent ≡ₚ sent_tasks env stored count plans)
    ∧ (∃ published, eventBus w' = eventBus w ++ published
         ∧ published ≡ₚ published_entries env stored count plans)
    ∧ (NoDup (plan_key <$> plans) →
       ∀ i p, plans !! i = Some p →
         plansTable w' !! plan_key p
         = with_status
             (if is_Return (plan_outcome env stored (uuidv4_at env (count + i)) p)
              then PENDING_EXECUTION else ACTIVE) (Date_now env)
           <$> stored !! plan_key p)
    ∧ (∀ k, k ∉ plan_key <$> plans → plansTable w' !! k = stored !! k).
Proof.
  intros stored count.
  destruct (start_each_plans plans w) as (w1 & Hstart & Hp1 & _ & Hq1 & Hb1 & Hc1 & _).
  set (js := jobs env count plans) in *.
  set (P := λ (ps : list (Async unit)) (w' : World),
         ∃ phases, ps = zip_with (pending env) js phases ∧ in_flight env w1 js phases w').
  assert (HP : ∀ ps w' i p,
            P ps w' → ps !! i = Some p → P (<[i := (resume p w').1]> ps) (resume p w').2).
  { intros ps w' i p (phases & -> & Hin) Hi.
    apply lookup_zip_with_Some in Hi as (job & phase & -> & Hjob & Hphase).
    destruct (in_flight_resume w1 js phases w' i job phase Hin Hjob Hphase)
      as (phase' & w'' & -> & Hin').
    exists (<[i := phase']> phases). split; [| done].
    cbn [fst]. rewrite insert_zip_with. by rewrite (list_insert_id js i job). }
  assert (H0 : P (zip_with (pending env) js (replicate (length plans) Updating)) w1).
  { eexists. split; [reflexivity |].
    rewrite <- (length_jobs count plans). apply in_flight_initial. }
  destruct (allSettled_invariant P HP (arrivals env) _ w1 H0)
    as (rs & w' & Hrun & _ & phases & Heq & Hin).
  pose proof Hin as (Hlen & _).
  symmetry in Heq. apply pending_settled in Heq; [| done]. subst phases.
  destruct Hin as (_ & Hcount & Hdom & Hcons & Hoth & Hrows & Hq & Hb).
  rewrite Hp1 in Hcons, Hdom, Hoth, Hrows, Hq. fold stored in Hcons, Hdom, Hoth, Hrows, Hq.
  destruct (finished_batch stored count plans rs Hcons) as (-> & Hsent & Hpub).
  subst js. rewrite Hsent in Hq. rewrite Hpub in Hb. rewrite jobs_plans in Hoth, Hrows.
  exists w'. split_and!.
  - unfold fan_out, call_each. erewrite bind_Return; [exact Hrun |]. by rewrite Hstart.
  - by rewrite Hcount, Hc1.
  - exact Hdom.
  - by rewrite <- Hq1.
  - by rewrite <- Hb1.
  - intros Hnd i p Hi. specialize (Hrows Hnd).
    assert (Hr : (Finished <$> outcomes env stored count plans) !! i
                 = Some (Finished (plan_outcome env stored (uuidv4_at env (count + i)) p))).
    { by rewrite list_lookup_fmap, (outcomes_lookup stored count plans i p Hi). }
    pose proof (Forall2_lookup_lr _ _ _ i _ _ Hrows (jobs_lookup count plans i p Hi) Hr) as Hrow.
    cbn [fst] in Hrow. rewrite Hrow.
    by destruct (plan_outcome env stored _ p).
  - exact Hoth.
Qed.


Lemma rejected_count_pos {X} (results : list (Completion X)) :
  (0 < length (filter (λ r, is_Throw r = true) results))%nat
  ↔ Exists (λ r, is_Throw r = true) results.
Proof.
  set (failed := filter (λ r, is_Throw r = true) results).
  rewrite Exists_exists. split.
  - destruct failed as [| r failed'] eqn:Hf; [cbn; lia |]. intros _.
    assert (Hr : r ∈ filter (λ r, is_Throw r = true) results)
      by (fold failed; rewrite Hf; by left).
    apply list_elem_of_filter in Hr as [? ?]. by exists r.
  - intros (r & Hr & Ht).
    assert (Hin : r ∈ failed) by (by apply list_elem_of_filter).
    destruct failed; [by apply elem_of_nil in Hin | cbn; lia].
Qed.

Lemma no_rejection {X} (results : list (Completion X)) :
  Forall (λ r, is_Return r = true) results ↔
  length (filter (λ r, is_Throw r = true) results) = 0%nat.
Proof.
  induction results as [| r results IH]; [done |].
  rewrite Forall_cons, IH, filter_cons. destruct r as [a | e]; cbn.
  - rewrite decide_False by done. split; [by intros [_ ?] | done].
  - rewrite decide_True by done. cbn. split; [by intros [? _] | done].
Qed.

(** The run throws exactly when some plan was rejected. *)
Lemma handler_dispatch_result plans w results w' :
  fan_out env plans w = (Return results, w') →
  let failureCount := length (filter (λ r, is_Throw r = true) results) in
  handler_dispatch env plans w
  = (if decide (0 < failureCount)%nat
     then Throw (new_Error ("Failed to process all " +:+ pretty failureCount +:+ " plans"))
     else Return (), w').
Proof.
  intros Hs failureCount. unfold handler_dispatch.
  rewrite (bind_Return _ _ w results w') by done. fold failureCount.
  by case_decide.
Qed.

(** Whose request the queue has accepted. *)
Lemma sent_tasks_elem stored count plans m :
  m ∈ sent_tasks env stored count plans →
  ∃ p, p ∈ plans ∧ request_key m = plan_key p ∧ is_Some (stored !! plan_key p).
Proof.
  revert count. induction plans as [| p plans IH]; intros count; cbn [sent_tasks].
  - by intros ?%elem_of_nil.
  - assert (Hrest : m ∈ sent_tasks env stored (S count) plans →
              ∃ q, q ∈ p :: plans ∧ request_key m = plan_key q
                   ∧ is_Some (stored !! plan_key q)).
    { intros (q & Hq & Hkey & Hsome)%IH. exists q. split_and!; [by right | done | done]. }
    destruct (stored !! plan_key p) as [row |] eqn:Hrow; [| done].
    destruct (sendMessage_fault env _); [done |].
    intros [-> | Hm]%elem_of_cons; [| by apply Hrest].
    exists p. split_and!; [by left | done |]. rewrite Hrow. by eexists.
Qed.

Lemma outcomes_accepted (m : gmap (string * string) SavingsPlan) count plans :
  (∀ p, p ∈ plans → is_Some (m !! plan_key p)) →
  (∀ req, sendMessage_fault env req = None) →
  sent_tasks env m count plans = expected_tasks env count plans
  ∧ ((∀ entry, putEvents_fault env entry = None) →
     Forall (λ r, r = Return ()) (outcomes env m count plans)
     ∧ published_entries env m count plans = expected_entries env count plans).
Proof.
  intros Hall Hsend. revert count.
  induction plans as [| p plans IH]; intros count; cbn; [done |].
  destruct (IH (λ q Hq, Hall q (list_elem_of_further _ _ _ Hq)) (S count)) as (Hs & Hrest).
  unfold plan_outcome. destruct (Hall p (list_elem_of_here _ _)) as [row ->].
  rewrite Hsend, Hs. split; [done |]. intros Hbus. destruct (Hrest Hbus) as (Ho & Hp).
  rewrite Hbus, Hp. split; [by constructor | done].
Qed.

(** The rows the query returns, for a batch limit of [n]. *)
Lemma handler_query_result w n :
  JsParse.parseInt (batch_size_setting env) = Some n → 1 ≤ n →
  handler_query env w
  = (Return (take (Z.to_nat n)
       (merge_sort earlier
          (filter (due (Date_now env / 1000)) (map_to_list (plansTable w)).*2))), w).
Proof.
  intros Hn Hpos. unfold handler_query, plans_query. rewrite Hn.
  destruct (Z.leb_spec 1 n); [done | lia].
Qed.

(** The setting of the batch size: the variable itself, or "25" when it
    is not set or is empty. *)
Lemma batch_size_configured n :
  match MAX_BATCH_SIZE env with
  | None | Some EmptyString => n = 25
  | Some setting => JsParse.parseInt setting = Some n
  end →
  JsParse.parseInt (batch_size_setting env) = Some n.
Proof.
  unfold batch_size_setting. destruct (MAX_BATCH_SIZE env) as [[| c setting] |]; by intros ->.
Qed.

Lemma earlier_transitive : Transitive earlier.
Proof. unfold earlier. intros p q r. lia. Qed.

Lemma earlier_total : Total earlier.
Proof. unfold earlier. intros p q. lia. Qed.

Lemma query_selection w n :
  keys_agree w →
  let now := Date_now env / 1000 in
  let items :=
    take n (merge_sort earlier (filter (due now) (map_to_list (plansTable w)).*2)) in
  (∀ p, p ∈ items → plansTable w !! plan_key p = Some p ∧ due now p)
  ∧ NoDup (plan_key <$> items)
  ∧ (length items ≤ n)%nat
  ∧ (∀ k p, plansTable w !! k = Some p → due now p →
       p ∈ items ∨ (length items = n ∧ ∀ q, q ∈ items → earlier q p)).
Proof.
  intros Hk now items.
  pose proof earlier_transitive as Htransitive. pose proof earlier_total as Htotal.
  set (rows := (map_to_list (plansTable w)).*2).
  set (found := merge_sort earlier (filter (due now) rows)).
  assert (Hperm : found ≡ₚ filter (due now) rows) by apply merge_sort_Permutation.
  assert (Hsorted : StronglySorted earlier found)
    by (apply StronglySorted_merge_sort; apply _).
  assert (Hrows : ∀ p, p ∈ rows ↔ plansTable w !! plan_key p = Some p).
  { intros p. subst rows. rewrite list_elem_of_fmap. split.
    - intros ([k q] & -> & Hin). apply elem_of_map_to_list in Hin. cbn.
      by rewrite (Hk k q Hin).
    - intros Hp. exists (plan_key p, p). split; [done |]. by apply elem_of_map_to_list. }
  assert (Hfound : ∀ p, p ∈ found ↔ due now p ∧ plansTable w !! plan_key p = Some p).
  { intros p. by rewrite Hperm, list_elem_of_filter, Hrows. }
  assert (Hnd : NoDup (plan_key <$> found)).
  { rewrite Hperm. apply sublist_NoDup with (plan_key <$> rows);
      [| apply fmap_sublist, sublist_filter].
    assert (Heq : plan_key <$> rows = (map_to_list (plansTable w)).*1).
    { subst rows. rewrite <- list_fmap_compose. apply list_fmap_ext.
      intros j [k q] Hj. cbn. apply list_elem_of_lookup_2, elem_of_map_to_list in Hj.
      by apply Hk. }
    rewrite Heq. apply NoDup_fst_map_to_list. }
  fold rows found in items. split_and!.
  - intros p Hp. subst items. apply elem_of_take in Hp as (i & Hi & _).
    apply list_elem_of_lookup_2, Hfound in Hi as [? ?]. done.
  - apply sublist_NoDup with (plan_key <$> found); [done |].
    apply fmap_sublist, sublist_take.
  - subst items. rewrite length_take. lia.
  - intros k p Hp Hdue.
    assert (Hin : p ∈ found).
    { apply Hfound. split; [done |]. by rewrite (Hk k p Hp). }
    rewrite <- (take_drop n found) in Hin, Hsorted. fold items in Hin, Hsorted.
    apply elem_of_app in Hin as [Hin | Hin]; [by left | right].
    split.
    + subst items. rewrite length_take.
      destruct (decide (n ≤ length found)%nat) as [Hle | Hgt]; [lia |].
      rewrite drop_ge in Hin by lia. by apply elem_of_nil in Hin.
    + intros q Hq. by eapply StronglySorted_app_1_elem_of.
Qed.

Lemma expected_tasks_keys count plans :
  request_key <$> expected_tasks env count plans = plan_key <$> plans.
Proof. revert count. induction plans as [| p plans IH]; intros count; cbn; [done | by f_equal]. Qed.

Lemma expected_tasks_ids count plans :
  MessageDeduplicationId <$> expected_tasks env count plans
  = uuidv4_at env <$> seq count (length plans).
Proof. revert count. induction plans as [| p plans IH]; intros count; cbn; [done | by f_equal]. Qed.

Lemma expected_tasks_shape count plans m :
  m ∈ expected_tasks env count plans →
  ev_attemptCount (MessageBody m) = 0
  ∧ MessageDeduplicationId m = ev_executionId (MessageBody m)
  ∧ MessageGroupId m = ev_userId (MessageBody m).
Proof.
  revert count. induction plans as [| p plans IH]; intros count; cbn.
  - by intros ?%elem_of_nil.
  - intros [-> | Hm]%elem_of_cons; [done | by eapply IH].
Qed.


(** C1, as the claim has it, fails: the only due plan vanishes between
    the query and the update; the update is refused, nothing is enqueued,
    and the run still throws. *)
Lemma vanished_plan_counts_as_run_failure :
  fst (handler_query env_ok w0) = Return [p1]
  ∧ fst (updatePlanStatus env_ok p1 PENDING_EXECUTION
           (set_plansTable (delete (plan_key p1)) w0))
    = Throw ConditionalCheckFailedException
  ∧ fst (scan_with_removal env_ok (plan_key p1) w0)
    = Throw (new_Error "Failed to process all 1 plans")
  ∧ executionQueue (snd (scan_with_removal env_ok (plan_key p1) w0)) = [].
Proof. vm_compute. done. Qed.

(** C1 (amended). When the row of a plan of the batch is gone at update
    time, the plan's processing ends with the store's conditional-check
    error and leaves the world as it was but for the identifier drawn:
    nothing is enqueued, published or written.  The error is one of the
    rejected results, so the run throws; no request for that plan was
    added to the queue. *)
Theorem vanished_plan_is_skipped_and_fails_the_run plans gone w :
  gone ∈ plans → plansTable w !! plan_key gone = None →
  run (processPlansForExecution env gone) w
  = (Throw ConditionalCheckFailedException, set_uuidCount S w)
  ∧ ∃ failureCount w',
      handler_dispatch env plans w
      = (Throw (new_Error ("Failed to process all " +:+ pretty failureCount +:+ " plans")), w')
      ∧ (0 < failureCount)%nat
      ∧ plansTable w' !! plan_key gone = None
      ∧ (∀ m, m ∈ executionQueue w' → request_key m = plan_key gone → m ∈ executionQueue w).
Proof.
  intros Hin Hgone. split.
  - rewrite processPlansForExecution_cases. cbv zeta. by rewrite Hgone.
  - destruct (fan_out_closed_form plans w)
      as (w' & Hs & _ & Hdom & (sent & Hq & Hsent) & _).
    pose proof (handler_dispatch_result plans w _ w' Hs) as Hd. cbv zeta in Hd.
    assert (Hex : Exists (λ r, is_Throw r = true)
                    (outcomes env (plansTable w) (uuidCount w) plans)).
    { apply list_elem_of_lookup_1 in Hin as [i Hi].
      apply Exists_exists. eexists. split.
      - eapply list_elem_of_lookup_2. by apply outcomes_lookup.
      - unfold plan_outcome. by rewrite Hgone. }
    apply rejected_count_pos in Hex.
    eexists _, w'. split_and!.
    + rewrite Hd. by rewrite decide_True.
    + done.
    + by apply Hdom.
    + intros m Hm Hkey. rewrite Hq in Hm. apply elem_of_app in Hm as [? | Hm]; [done |].
      rewrite Hsent in Hm. apply sent_tasks_elem in Hm as (q & _ & Hkq & Hsome).
      rewrite Hkey in Hkq. rewrite <- Hkq, Hgone in Hsome. by destruct Hsome.
Qed.


(** C2, as the claim has it, fails twice over: a row whose stored status
    is PAUSED is overwritten with PENDING_EXECUTION, and two overlapping
    runs that both found the plan both enqueue a task for it. *)
Lemma overlapping_scans_schedule_the_plan_twice :
  (plan_status <$> plansTable (world_of [p3]) !! plan_key p3 = Some PAUSED
   ∧ fst (updatePlanStatus env_ok p3 PENDING_EXECUTION (world_of [p3])) = Return ()
   ∧ plan_status <$>
       plansTable (snd (updatePlanStatus env_ok p3 PENDING_EXECUTION (world_of [p3])))
         !! plan_key p3 = Some PENDING_EXECUTION)
  ∧ fst (two_overlapping_scans env_ok w0) = Return ()
  ∧ request_key <$> executionQueue (snd (two_overlapping_scans env_ok w0))
    = [plan_key p1; plan_key p1]
  ∧ MessageDeduplicationId <$> executionQueue (snd (two_overlapping_scans env_ok w0))
    = ["uuid-0"; "uuid-1"].
Proof. vm_compute. done. Qed.

(** C2 (amended). The Scanner's status update is conditional on the
    existence of the plan's row and on nothing else: without a row it
    fails with the conditional-check error and writes nothing; with a
    row, whatever its stored status, it succeeds, writes the new status
    and the update time into that row, and leaves every other row alone. *)
Theorem updatePlanStatus_checks_existence_only plan status w :
  (plansTable w !! plan_key plan = None →
   updatePlanStatus env plan status w = (Throw ConditionalCheckFailedException, w))
  ∧ (∀ row, plansTable w !! plan_key plan = Some row →
     ∃ w', updatePlanStatus env plan status w = (Return (), w')
       ∧ plansTable w' !! plan_key plan = Some (with_status status (Date_now env) row)
       ∧ (∀ k, k ≠ plan_key plan → plansTable w' !! k = plansTable w !! k)
       ∧ executionQueue w' = executionQueue w).
Proof.
  split.
  - apply updatePlanStatus_absent.
  - intros row Hrow. eexists. split; [by apply updatePlanStatus_present with row |].
    cbn. split_and!; [| | done].
    + by rewrite lookup_alter_eq, Hrow.
    + intros k Hk. by rewrite lookup_alter_ne.
Qed.

(** C6. The batch size is read from [MAX_BATCH_SIZE], and is 25 when the
    variable is not set or is empty. When it reads as [n ≥ 1], with rows
    stored under their own keys and a queue that accepts what it is
    sent, a run selects at most [n] plans, each stored, ACTIVE and due at
    [now]; no plan is selected twice; every stored ACTIVE due plan is
    selected unless the batch is full, and then none of the selected
    plans is due later than it.  In whatever order the calls of the
    fan-out are answered, the run adds to the queue exactly one request
    per selected plan and nothing else, the request of the [i]-th plan
    with the [i]-th identifier drawn as execution id and deduplication
    id (pairwise distinct when the generator never repeats itself),
    attempt count 0, and the plan's user as message group. *)
Theorem scan_selects_due_plans_and_enqueues_one_task_each w n :
  match MAX_BATCH_SIZE env with
  | None | Some EmptyString => n = 25
  | Some setting => JsParse.parseInt setting = Some n
  end →
  1 ≤ n →
  keys_agree w →
  (∀ req, sendMessage_fault env req = None) →
  let now := Date_now env / 1000 in
  ∃ items r w' sent,
    handler_query env w = (Return items, w)
    ∧ handler env w = (r, w')
    ∧ (∀ p, p ∈ items →
         plansTable w !! plan_key p = Some p
         ∧ plan_status p = ACTIVE ∧ plan_nextExecutionTime p ≤ now)
    ∧ NoDup (plan_key <$> items)
    ∧ (length items ≤ Z.to_nat n)%nat
    ∧ (∀ k p, plansTable w !! k = Some p →
         plan_status p = ACTIVE → plan_nextExecutionTime p ≤ now →
         p ∈ items
         ∨ (length items = Z.to_nat n
            ∧ ∀ q, q ∈ items → plan_nextExecutionTime q ≤ plan_nextExecutionTime p))
    ∧ executionQueue w' = executionQueue w ++ sent
    ∧ sent ≡ₚ expected_tasks env (uuidCount w) items
    ∧ request_key <$> expected_tasks env (uuidCount w) items = plan_key <$> items
    ∧ MessageDeduplicationId <$> expected_tasks env (uuidCount w) items
      = uuidv4_at env <$> seq (uuidCount w) (length items)
    ∧ ((∀ i j, uuidv4_at env i = uuidv4_at env j → i = j) →
       NoDup (MessageDeduplicationId <$> expected_tasks env (uuidCount w) items))
    ∧ (∀ m, m ∈ expected_tasks env (uuidCount w) items →
         ev_attemptCount (MessageBody m) = 0
         ∧ MessageDeduplicationId m = ev_executionId (MessageBody m)
         ∧ MessageGroupId m = ev_userId (MessageBody m)).
Proof.
  intros Hn%batch_size_configured Hpos Hkeys Hsend now.
  pose proof (handler_query_result w n Hn Hpos) as Hq. fold now in Hq.
  destruct (query_selection w (Z.to_nat n) Hkeys) as (Hsel & Hnd & Hlen & Hall).
  fold now in Hsel, Hnd, Hlen, Hall.
  set (items := take (Z.to_nat n)
                  (merge_sort earlier (filter (due now) (map_to_list (plansTable w)).*2))) in *.
  assert (Hrun : ∃ r w' sent, handler env w = (r, w')
            ∧ executionQueue w' = executionQueue w ++ sent
            ∧ sent ≡ₚ expected_tasks env (uuidCount w) items).
  { unfold handler. rewrite try_catch_rethrow.
    rewrite (bind_Return _ _ w items w) by done.
    destruct items as [| p items'] eqn:Hitems.
    - eexists _, _, []. split_and!; [done | by rewrite app_nil_r | done].
    - rewrite <- Hitems in *.
      destruct (fan_out_closed_form items w) as (w' & Hs & _ & _ & (sent & Hsent & Hperm) & _).
      pose proof (handler_dispatch_result items w _ w' Hs) as Hd. cbv zeta in Hd.
      eexists _, w', sent. split_and!; [by rewrite Hd | done |].
      rewrite Hperm.
      destruct (outcomes_accepted (plansTable w) (uuidCount w) items) as [-> _]; [| done..].
      intros q Hq'. destruct (Hsel q Hq') as [-> _]. by eexists. }
  destruct Hrun as (r & w' & sent & Hh & Hqueue & Hperm).
  exists items, r, w', sent. split_and!.
  - exact Hq.
  - exact Hh.
  - intros p Hp. destruct (Hsel p Hp) as [? [? ?]]. done.
  - exact Hnd.
  - exact Hlen.
  - intros k p Hp Hst Hdue. by apply (Hall k p).
  - exact Hqueue.
  - exact Hperm.
  - apply expected_tasks_keys.
  - apply expected_tasks_ids.
  - intros Hinj. rewrite expected_tasks_ids.
    apply NoDup_fmap_2; [exact Hinj | apply NoDup_seq].
  - apply expected_tasks_shape.
Qed.

End ScannerFacts.



Section ScannerExamples.
Import Scanner Fixture.

Lemma keys_agree_world_of plans : keys_agree (world_of plans).
Proof.
  intros k p Hp. cbn in Hp. apply elem_of_list_to_map_2 in Hp.
  apply list_elem_of_fmap in Hp as (q & [= -> ->] & _). done.
Qed.

(** The amended C1 at a batch holding [p1] and a store that has lost it. *)
Lemma vanished_plan_is_skipped_and_fails_the_run_witness :
  p1 ∈ [p1]
  ∧ plansTable (world_of [p2]) !! plan_key p1 = None
  ∧ run (processPlansForExecution env_ok p1) (world_of [p2])
    = (Throw ConditionalCheckFailedException, set_uuidCount S (world_of [p2]))
  ∧ ∃ failureCount w',
      handler_dispatch env_ok [p1] (world_of [p2])
      = (Throw (new_Error ("Failed to process all " +:+ pretty failureCount +:+ " plans")), w')
      ∧ (0 < failureCount)%nat.
Proof.
  assert (H1 : p1 ∈ [p1]) by (apply list_elem_of_here).
  assert (H2 : plansTable (world_of [p2]) !! plan_key p1 = None) by (vm_compute; reflexivity).
  destruct (vanished_plan_is_skipped_and_fails_the_run env_ok [p1] p1 (world_of [p2]) H1 H2)
    as (Hskip & failureCount & w' & Hrun & Hpos & _).
  split; [exact H1 | split; [exact H2 | split; [exact Hskip |]]].
  exists failureCount, w'. split; [exact Hrun | exact Hpos].
Defined.

(** The amended C2 at a store without the row, and at a store holding the
    row with status PAUSED. *)
Lemma updatePlanStatus_checks_existence_only_witness :
  plansTable (world_of [p2]) !! plan_key p3 = None
  ∧ plan_status p3 = PAUSED
  ∧ plansTable (world_of [p3]) !! plan_key p3 = Some p3
  ∧ updatePlanStatus env_ok p3 PENDING_EXECUTION (world_of [p2])
    = (Throw ConditionalCheckFailedException, world_of [p2])
  ∧ ∃ w', updatePlanStatus env_ok p3 PENDING_EXECUTION (world_of [p3]) = (Return (), w')
      ∧ plansTable w' !! plan_key p3 = Some (with_status PENDING_EXECUTION T p3).
Proof.
  assert (H1 : plansTable (world_of [p2]) !! plan_key p3 = None) by (vm_compute; reflexivity).
  assert (H2 : plansTable (world_of [p3]) !! plan_key p3 = Some p3) by (vm_compute; reflexivity).
  split; [exact H1 | split; [reflexivity | split; [exact H2 | split]]].
  - exact (proj1 (updatePlanStatus_checks_existence_only env_ok p3 PENDING_EXECUTION
                    (world_of [p2])) H1).
  - destruct (proj2 (updatePlanStatus_checks_existence_only env_ok p3 PENDING_EXECUTION
                       (world_of [p3])) p3 H2) as (w' & Hrun & Hrow & _).
    exists w'. split; [exact Hrun | exact Hrow].
Defined.

(** The order of the queue is not the order of the batch: at the store
    with two due plans, [p4] comes first in the batch, and the queue
    accepts the request for [p1] first when its answers overtake. *)
Example overtaking_answers :
  fst (handler_query env_overtaking w_two) = Return [p4; p1]
  ∧ fst (handler env_overtaking w_two) = Return ()
  ∧ request_key <$> executionQueue (snd (handler env_overtaking w_two))
    = [plan_key p1; plan_key p4]
  ∧ MessageDeduplicationId <$> executionQueue (snd (handler env_overtaking w_two))
    = ["uuid-1"; "uuid-0"]
  ∧ (λ entry, Detail entry !! "executionId") <$> eventBus (snd (handler env_overtaking w_two))
    = [Some (JString "uuid-0"); Some (JString "uuid-1")].
Proof. vm_compute. done. Qed.

(** C6 at the store with two due plans, with a configured batch size of
    1, and answers that overtake. *)
Lemma scan_selects_due_plans_and_enqueues_one_task_each_witness :
  let env := with_batch_size "1" env_overtaking in
  MAX_BATCH_SIZE env = Some "1"
  ∧ JsParse.parseInt "1" = Some 1
  ∧ keys_agree w_two
  ∧ (∀ req, sendMessage_fault env req = None)
  ∧ ∃ items r w' sent,
      handler_query env w_two = (Return items, w_two)
      ∧ handler env w_two = (r, w')
      ∧ (length items ≤ 1)%nat
      ∧ executionQueue w' = executionQueue w_two ++ sent
      ∧ sent ≡ₚ expected_tasks env (uuidCount w_two) items
      ∧ (∀ p, p ∈ items → plan_status p = ACTIVE ∧ plan_nextExecutionTime p ≤ T / 1000).
Proof.
  intros env.
  assert (H1 : JsParse.parseInt "1" = Some 1) by reflexivity.
  assert (H2 : 1 ≤ 1) by lia.
  assert (H3 : keys_agree w_two) by apply keys_agree_world_of.
  assert (H4 : ∀ req, sendMessage_fault env req = None) by (intros req; reflexivity).
  destruct (scan_selects_due_plans_and_enqueues_one_task_each env w_two 1 H1 H2 H3 H4)
    as (items & r & w' & sent & Hq & Hh & Hsel & _ & Hlen & _ & Hqueue & Hperm & _).
  split; [reflexivity | split; [exact H1 | split; [exact H3 | split; [exact H4 |]]]].
  exists items, r, w', sent.
  split; [exact Hq | split; [exact Hh | split; [exact Hlen | split; [exact Hqueue |]]]].
  split; [exact Hperm |].
  intros p Hp. destruct (Hsel p Hp) as (_ & Hst & Hdue). split; [exact Hst | exact Hdue].
Defined.

End ScannerExamples.

(* ===================================================================== *)
(** * The exchange client *)
(* ===================================================================== *)
Section ExchangeClientFacts.
Import ExchangeClient Fixture.
Context (env : Env).

(** The secret store failing, an empty secret and an unreadable secret
    all end the [try] block of [createFromSecrets] abruptly. *)
Lemma load_config_failures secretId stage :
  (∀ e, getSecretValue env secretId = Throw e → load_config env secretId stage = Throw e)
  ∧ (getSecretValue env secretId = Return None →
     load_config env secretId stage = Throw (new_Error "Secret value is empty"))
  ∧ (∀ s e, getSecretValue env secretId = Return (Some s) → s ≠ EmptyString →
     JSON_parse_config env s = Throw e → load_config env secretId stage = Throw e).
Proof.
  unfold load_config. split_and!.
  - by intros e ->.
  - by intros ->.
  - intros s e -> Hs ->. by destruct s.
Qed.

(** C9, as the claim has it, fails: staging is not production, and there
    the failure of the secret store propagates. *)
Lemma staging_does_not_fall_back :
  Executor.init_exchangeClient (with_secret_failure "staging" env_ok)
    (set_exchangeClient None w0)
  = (Throw (ErrorObj "ResourceNotFoundException" "Secrets Manager can't find the secret"),
     set_exchangeClient None w0)
  ∧ fst (createFromSecrets (with_secret_failure "staging" env_ok)
           "exchange-secret" "staging" w0)
    = Throw (ErrorObj "ResourceNotFoundException" "Secrets Manager can't find the secret").
Proof. split; reflexivity. Qed.

(** C9 (amended). When the retrieval of the credentials fails with [e],
    the factory returns a client built from the fixed demo credentials
    for the stage ['dev'] and for no other stage: for every other stage,
    'prod' and 'staging' among them, [e] propagates. *)
Theorem createFromSecrets_falls_back_only_on_dev secretId stage w e :
  load_config env secretId stage = Throw e →
  (stage = "dev" → createFromSecrets env secretId stage w = (Return (mkClient demo_config), w))
  ∧ (stage ≠ "dev" → createFromSecrets env secretId stage w = (Throw e, w)).
Proof.
  intros Hload. unfold createFromSecrets, try_catch. rewrite Hload. cbn. split.
  - by intros ->.
  - intros Hne. destruct (String.eqb_spec stage "dev"); [done | done].
Qed.


(** The test [a < b] on the draws. *)
Lemma Qltb_lt (a b : Q) : Qltb a b = true ↔ (a < b)%Q.
Proof.
  unfold Qltb. rewrite negb_true_iff, <- not_true_iff_false, Qle_bool_iff.
  split; [apply Qnot_le_lt | apply Qlt_not_le].
Qed.

(** The two ways [purchaseBitcoin] can go, by the second random draw. *)
Lemma purchaseBitcoin_cases client request w :
  let failure := Math_random_at env (S (randomCount w)) in
  purchaseBitcoin env client request w =
  if Qltb failure (5 # 100)
  then (Return (purchase_catch env request (new_Error "Exchange API temporary error")),
        set_randomCount S (set_randomCount S w))
  else
    let price := Math_random_at env (S (S (randomCount w))) in
    let suffix := Math_random_at env (S (S (S (randomCount w)))) in
    let exchangeRate := Double.add 60000 (Double.mul price 10000) in
    (Return (mkPurchaseResult true
       (Some ("tx-" +:+ pretty (Date_now env) +:+ "-"
              +:+ pretty (Qfloor (Double.mul suffix 10000))))
       (Some (Double.div (req_amount request) exchangeRate)) (Some exchangeRate)
       (Some (Double.mul (req_amount request) (Double.round (1 # 100)))) None None),
     set_randomCount S (set_randomCount S (set_randomCount S (set_randomCount S w)))).
Proof.
  cbv zeta. unfold purchaseBitcoin, try_catch, purchase_try, mbind, M_bind, bind, Math_random.
  cbn [randomCount set_randomCount]. by destruct (Qltb _ _).
Qed.

Lemma purchaseBitcoin_returns client request w :
  ∃ result w', purchaseBitcoin env client request w = (Return result, w').
Proof.
  rewrite purchaseBitcoin_cases. cbv zeta. destruct (Qltb _ _); by eexists _, _.
Qed.


End ExchangeClientFacts.


(* ===================================================================== *)
(** * The Executor *)
(* ===================================================================== *)
Section ExecutorFacts.
Import Executor Fixture.
Context (env : Env).

Lemma getSavingsPlan_present userId planId w plan :
  plansTable w !! (userId, planId) = Some plan →
  getSavingsPlan userId planId w = (Return plan, w).
Proof. intros H. unfold getSavingsPlan, mbind, M_bind, bind, plans_get. by rewrite H. Qed.

Lemma getSavingsPlan_absent userId planId w :
  plansTable w !! (userId, planId) = None →
  getSavingsPlan userId planId w
  = (Throw (new_Error ("Savings plan " +:+ planId +:+ " for user " +:+ userId +:+ " not found")),
     w).
Proof. intros H. unfold getSavingsPlan, mbind, M_bind, bind, plans_get. by rewrite H. Qed.

Lemma recordTransaction_fresh tx w :
  transactionsTable w !! tx_key tx = None →
  recordTransaction tx w = (Return (), set_transactionsTable (<[tx_key tx := tx]>) w).
Proof.
  intros H. unfold recordTransaction, transactions_put, attribute_not_exists.
  by rewrite H, attribute_exists_None.
Qed.

Lemma recordTransaction_taken tx w old :
  transactionsTable w !! tx_key tx = Some old →
  recordTransaction tx w = (Throw ConditionalCheckFailedException, w).
Proof.
  intros H. unfold recordTransaction, transactions_put, attribute_not_exists.
  by rewrite H, attribute_exists_Some.
Qed.

Lemma publishEvent_cases eventType detail w :
  publishEvent env eventType detail w =
  match putEvents_fault env (event_entry env eventType detail) with
  | Some e => (Throw e, w)
  | None => (Return (), set_eventBus (λ b, b ++ [event_entry env eventType detail]) w)
  end.
Proof. done. Qed.

(** [handleMaxRetries] on a stored plan. *)
Lemma handleMaxRetries_present event w plan :
  plansTable w !! (ev_userId event, ev_planId event) = Some plan →
  plan_key plan = (ev_userId event, ev_planId event) →
  let transaction := maxRetries_transaction env plan event (uuidv4_at env (uuidCount w)) in
  let entry := event_entry env EXECUTION_FAILED (maxRetries_detail plan event transaction) in
  let w1 := set_uuidCount S
              (set_plansTable (alter (with_status FAILED (Date_now env)) (plan_key plan)) w) in
  handleMaxRetries env event w =
  match transactionsTable w !! tx_key transaction with
  | Some _ => (Throw ConditionalCheckFailedException, w1)
  | None =>
      let w2 := set_transactionsTable (<[tx_key transaction := transaction]>) w1 in
      match putEvents_fault env entry with
      | Some e => (Throw e, w2)
      | None => (Return (), set_eventBus (λ b, b ++ [entry]) w2)
      end
  end.
Proof.
  intros Hplan Hkey transaction entry w1.
  unfold handleMaxRetries. rewrite try_catch_rethrow.
  rewrite (bind_Return _ _ w plan w) by (by apply getSavingsPlan_present).
  erewrite bind_Return; last first.
  { unfold updatePlanStatus. apply plans_update_present with plan.
    fold (plan_key plan). by rewrite Hkey. }
  erewrite bind_Return by reflexivity. fold (plan_key plan). fold w1.
  cbn [uuidCount set_plansTable]. fold transaction.
  destruct (transactionsTable w !! tx_key transaction) as [old |] eqn:Htx.
  - apply bind_Throw. by apply recordTransaction_taken with old.
  - erewrite bind_Return by (by apply recordTransaction_fresh).
    rewrite publishEvent_cases. fold entry. by destruct (putEvents_fault env entry).
Qed.

(** [processExecutionEvent] on the normal path, up to the purchase. *)
Lemma processExecutionEvent_normal record w plan :
  js_ge (ev_attemptCount (body record)) (JsParse.parseInt (max_retries_setting env)) = false →
  plansTable w !! (ev_userId (body record), ev_planId (body record)) = Some plan →
  plan_key plan = (ev_userId (body record), ev_planId (body record)) →
  let started := event_entry env EXECUTION_STARTED (started_detail plan (body record)) in
  let w1 := set_plansTable (alter (with_status EXECUTING (Date_now env)) (plan_key plan)) w in
  processExecutionEvent env record w =
  match putEvents_fault env started with
  | Some e => (Throw e, w1)
  | None =>
      let w2 := set_eventBus (λ b, b ++ [started]) w1 in
      match exchangeClient w with
      | None =>
          (Throw (ErrorObj "TypeError"
                    "Cannot read properties of null (reading 'purchaseBitcoin')"), w2)
      | Some client =>
          match ExchangeClient.purchaseBitcoin env client
                  (purchase_request plan (body record)) w2 with
          | (Return purchaseResult, w3) =>
              record_purchase env plan (body record) purchaseResult w3
          | (Throw e, w3) => (Throw e, w3)
          end
      end
  end.
Proof.
  intros Hnormal Hplan Hkey started w1.
  unfold processExecutionEvent. rewrite try_catch_rethrow. rewrite Hnormal.
  rewrite (bind_Return _ _ w plan w) by (by apply getSavingsPlan_present).
  erewrite bind_Return; last first.
  { unfold updatePlanStatus. apply plans_update_present with plan.
    fold (plan_key plan). by rewrite Hkey. }
  fold (plan_key plan). fold w1.
  destruct (putEvents_fault env started) as [e |] eqn:Hput.
  - apply bind_Throw. rewrite publishEvent_cases. fold started. by rewrite Hput.
  - erewrite bind_Return by (rewrite publishEvent_cases; fold started; by rewrite Hput).
    destruct (exchangeClient w) as [client |] eqn:Hclient.
    + erewrite bind_Return by (unfold the_exchangeClient; cbn; by rewrite Hclient).
      unfold mbind, M_bind, bind. by destruct (ExchangeClient.purchaseBitcoin _ _ _ _) as [[? | ?] ?].
    + apply bind_Throw. unfold the_exchangeClient. cbn. by rewrite Hclient.
Qed.

(** Every way [record_purchase] can go once the plan's row is there. *)
Lemma record_purchase_cases plan event result w row :
  plansTable w !! plan_key plan = Some row →
  let now := Date_now env in
  let transaction := purchase_transaction env plan event result (uuidv4_at env (uuidCount w)) in
  let w1 := set_uuidCount S w in
  record_purchase env plan event result w =
  match transactionsTable w !! tx_key transaction with
  | Some _ => (Throw ConditionalCheckFailedException, w1)
  | None =>
      let w2 := set_transactionsTable (<[tx_key transaction := transaction]>) w1 in
      if res_success result then
        match calculateNextExecutionTime (plan_frequency plan) (new_Date env) with
        | Throw e => (Throw e, w2)
        | Return None => (Throw (ValidationException "NaN is not a number attribute"), w2)
        | Return (Some next) =>
            let entry := event_entry env EXECUTION_COMPLETED
                           (completed_detail plan event transaction (Some next)) in
            let w3 := set_plansTable
                        (alter (with_schedule ACTIVE next now) (plan_key plan)) w2 in
            match putEvents_fault env entry with
            | Some e => (Throw e, w3)
            | None => (Return (), set_eventBus (λ b, b ++ [entry]) w3)
            end
        end
      else
        let entry := event_entry env EXECUTION_FAILED
                       (failed_detail plan event transaction result) in
        let w3 := set_plansTable (alter (with_status FAILED now) (plan_key plan)) w2 in
        match putEvents_fault env entry with
        | Some e => (Throw e, w3)
        | None =>
            (Throw (new_Error ("Purchase failed: "
                      +:+ default "undefined" (res_errorMessage result))),
             set_eventBus (λ b, b ++ [entry]) w3)
        end
  end.
Proof.
  intros Hrow now transaction w1.
  unfold record_purchase. erewrite bind_Return by reflexivity.
  fold w1. fold transaction.
  destruct (transactionsTable w !! tx_key transaction) as [old |] eqn:Htx.
  - apply bind_Throw. by apply recordTransaction_taken with old.
  - erewrite bind_Return by (by apply recordTransaction_fresh).
    cbv zeta. destruct (res_success result).
    + unfold on_purchase_success.
      destruct (calculateNextExecutionTime _ _) as [[next |] | e]; [| done | done].
      erewrite bind_Return; last first.
      { unfold updatePlanWithNextExecution. by apply plans_update_present with row. }
      fold (plan_key plan). rewrite (publishEvent_cases EXECUTION_COMPLETED).
      by destruct (putEvents_fault env _).
    + unfold on_purchase_failure.
      erewrite bind_Return; last first.
      { unfold updatePlanStatus. by apply plans_update_present with row. }
      fold (plan_key plan). unfold mbind, M_bind, bind.
      rewrite (publishEvent_cases EXECUTION_FAILED).
      by destruct (putEvents_fault env _).
Qed.

(** The exchange client touches nothing but the random-number count,
    which it moves forward. *)
Lemma purchaseBitcoin_frame client request w r w' :
  ExchangeClient.purchaseBitcoin env client request w = (r, w') →
  plansTable w' = plansTable w
  ∧ transactionsTable w' = transactionsTable w
  ∧ executionQueue w' = executionQueue w
  ∧ eventBus w' = eventBus w
  ∧ uuidCount w' = uuidCount w
  ∧ exchangeClient w' = exchangeClient w
  ∧ (randomCount w < randomCount w')%nat.
Proof.
  rewrite purchaseBitcoin_cases. cbv zeta.
  destruct (ExchangeClient.Qltb _ _); intros [= <- <-]; cbn; split_and!; try done; lia.
Qed.

(** A failed result of the exchange client carries no amounts; a
    successful one carries both. *)
Lemma purchaseBitcoin_amounts client request w result w' :
  ExchangeClient.purchaseBitcoin env client request w = (Return result, w') →
  (res_success result = false →
   res_bitcoinAmount result = None ∧ res_exchangeRate result = None)
  ∧ (res_success result = true →
     ∃ bitcoinAmount exchangeRate,
       res_bitcoinAmount result = Some bitcoinAmount
       ∧ res_exchangeRate result = Some exchangeRate).
Proof.
  rewrite purchaseBitcoin_cases. cbv zeta.
  destruct (ExchangeClient.Qltb _ _); intros [= <- <-]; cbn; split; try done.
  intros _. by eexists _, _.
Qed.

(** With the retries used up, processing is [handleMaxRetries]. *)
Lemma processExecutionEvent_exhausted record w :
  js_ge (ev_attemptCount (body record)) (JsParse.parseInt (max_retries_setting env)) = true →
  processExecutionEvent env record w = handleMaxRetries env (body record) w.
Proof. intros H. unfold processExecutionEvent. by rewrite try_catch_rethrow, H. Qed.

Lemma processExecutionEvent_missing record w :
  plansTable w !! (ev_userId (body record), ev_planId (body record)) = None →
  processExecutionEvent env record w
  = (Throw (new_Error ("Savings plan " +:+ ev_planId (body record) +:+ " for user "
                       +:+ ev_userId (body record) +:+ " not found")), w).
Proof.
  intros Hnone. unfold processExecutionEvent. rewrite try_catch_rethrow.
  destruct (js_ge _ _).
  - unfold handleMaxRetries. rewrite try_catch_rethrow.
    apply bind_Throw. by apply getSavingsPlan_absent.
  - apply bind_Throw. by apply getSavingsPlan_absent.
Qed.

(** A batch of one record: the record is reported as failed exactly when
    its processing threw. *)
Lemma process_one_record record w r w' :
  processExecutionEvent env record w = (r, w') →
  process_records env [record] [] w
  = (Return (if is_Return r then [] else [messageId record]), w').
Proof.
  intros H. cbn [process_records]. destruct r as [[] | e].
  - erewrite bind_Return; [done |].
    apply try_catch_Return. by erewrite bind_Return.
  - erewrite bind_Return; [done |].
    erewrite try_catch_Throw; [done |]. by apply bind_Throw.
Qed.

(** C3, as the claim has it, fails: with the retries used up and the plan
    missing, the lookup error is rethrown and the task is reported as
    failed. *)
Lemma max_retries_with_missing_plan_throws :
  let ghost := plan "dave" "plan-9" ACTIVE 0 in
  plansTable w0 !! plan_key ghost = None
  ∧ fst (processExecutionEvent env_ok (task ghost 3) w0)
    = Throw (new_Error "Savings plan plan-9 for user dave not found")
  ∧ fst (handler env_ok [task ghost 3] w0) = Return ["msg-1"].
Proof. vm_compute. done. Qed.

(** C3 (amended). For a task whose attempt count has reached the
    configured maximum the exchange client is not called (no random number
    is drawn). If the plan is missing, the lookup error is rethrown and the
    task is reported as failed. If the plan is stored, and the store takes
    the new transaction id and the bus takes the event, the task is
    acknowledged: the plan's status is FAILED, one FAILED transaction with
    zero amounts and the message "Maximum retry attempts (n) exceeded" is
    stored, and EXECUTION_FAILED is published with [maxRetriesExceeded]. *)
Theorem max_retries_path record w m :
  JsParse.parseInt (max_retries_setting env) = Some m →
  m ≤ ev_attemptCount (body record) →
  Scanner.keys_agree w →
  let event := body record in
  let key := (ev_userId event, ev_planId event) in
  (∀ r w', processExecutionEvent env record w = (r, w') → randomCount w' = randomCount w)
  ∧ (plansTable w !! key = None →
     processExecutionEvent env record w
     = (Throw (new_Error ("Savings plan " +:+ ev_planId event +:+ " for user "
                          +:+ ev_userId event +:+ " not found")), w)
     ∧ process_records env [record] [] w = (Return [messageId record], w))
  ∧ (∀ plan, plansTable w !! key = Some plan →
     let transaction := maxRetries_transaction env plan event (uuidv4_at env (uuidCount w)) in
     let entry := event_entry env EXECUTION_FAILED (maxRetries_detail plan event transaction) in
     transactionsTable w !! tx_key transaction = None →
     putEvents_fault env entry = None →
     ∃ w', processExecutionEvent env record w = (Return (), w')
       ∧ process_records env [record] [] w = (Return [], w')
       ∧ plansTable w' !! key = Some (with_status FAILED (Date_now env) plan)
       ∧ transactionsTable w' = <[tx_key transaction := transaction]> (transactionsTable w)
       ∧ tx_status transaction = TX_FAILED
       ∧ tx_bitcoinAmount transaction = 0%Q ∧ tx_exchangeRate transaction = 0%Q
       ∧ tx_errorMessage transaction
         = Some ("Maximum retry attempts (" +:+ max_retries_setting env +:+ ") exceeded")
       ∧ eventBus w' = eventBus w ++ [entry]
       ∧ DetailType entry = EXECUTION_FAILED
       ∧ Detail entry !! "maxRetriesExceeded" = Some (JBool true)).
Proof.
  intros Hm Hle Hkeys event key.
  assert (Hpath : processExecutionEvent env record w = handleMaxRetries env event w).
  { apply processExecutionEvent_exhausted. rewrite Hm. cbn [js_ge].
    by destruct (Z.leb_spec m (ev_attemptCount (body record))); [| lia]. }
  assert (Habsent : plansTable w !! key = None →
            handleMaxRetries env event w
            = (Throw (new_Error ("Savings plan " +:+ ev_planId event +:+ " for user "
                                 +:+ ev_userId event +:+ " not found")), w)).
  { intros Hnone. unfold handleMaxRetries. rewrite try_catch_rethrow.
    apply bind_Throw. by apply getSavingsPlan_absent. }
  split_and!.
  - intros r w'. rewrite Hpath.
    destruct (plansTable w !! key) as [plan |] eqn:Hplan.
    + rewrite (handleMaxRetries_present event w plan Hplan (Hkeys _ _ Hplan)). cbv zeta.
      destruct (transactionsTable w !! _); [by intros [= <- <-] |].
      destruct (putEvents_fault env _); by intros [= <- <-].
    + rewrite Habsent by done. by intros [= <- <-].
  - intros Hnone. rewrite Hpath, Habsent by done. split; [done |].
    eapply (process_one_record record w (Throw _) w). by rewrite Hpath, Habsent.
  - intros plan Hplan transaction entry Hfresh Hbus.
    pose proof (handleMaxRetries_present event w plan Hplan (Hkeys _ _ Hplan)) as Hrun.
    cbv zeta in Hrun. fold transaction entry in Hrun. rewrite Hfresh, Hbus in Hrun.
    eexists. split_and!.
    + by rewrite Hpath.
    + apply (process_one_record record w (Return ())). by rewrite Hpath.
    + cbn. rewrite (Hkeys _ _ Hplan). fold key. by rewrite lookup_alter_eq, Hplan.
    + done.
    + done.
    + done.
    + done.
    + done.
    + done.
    + done.
    + by vm_compute.
Qed.

(** C5. On the normal path, with the plan stored under its key, the
    client initialised, a bus that takes the events and a transaction id
    the store has not seen, processing is the call of the exchange client
    in the world [w_call] that the EXECUTING update and the
    EXECUTION_STARTED entry have left, followed by what is done with the
    result; that call returns a result. If the result of that call has
    [success] false, then after processing the plan's status is FAILED,
    exactly one row was added to the transactions, with status FAILED and
    the result's error message, EXECUTION_STARTED and then
    EXECUTION_FAILED were published, nothing was drawn after the call,
    and processing ended by throwing "Purchase failed: ...", so the task
    is reported as failed. *)
Theorem failed_purchase_is_recorded_and_signalled record w plan client :
  let event := body record in
  let key := (ev_userId event, ev_planId event) in
  let started := event_entry env EXECUTION_STARTED (started_detail plan event) in
  let w_call :=
    set_eventBus (λ b, b ++ [started])
      (set_plansTable (alter (with_status EXECUTING (Date_now env)) key) w) in
  js_ge (ev_attemptCount event) (JsParse.parseInt (max_retries_setting env)) = false →
  plansTable w !! key = Some plan →
  plan_key plan = key →
  exchangeClient w = Some client →
  (∀ entry, putEvents_fault env entry = None) →
  transactionsTable w !! (plan_userId plan, uuidv4_at env (uuidCount w)) = None →
  processExecutionEvent env record w
  = match ExchangeClient.purchaseBitcoin env client (purchase_request plan event) w_call with
    | (Return purchaseResult, w_ret) => record_purchase env plan event purchaseResult w_ret
    | (Throw e, w_ret) => (Throw e, w_ret)
    end
  ∧ (∃ result w_ret,
       ExchangeClient.purchaseBitcoin env client (purchase_request plan event) w_call
       = (Return result, w_ret))
  ∧ ∀ result w_ret,
      ExchangeClient.purchaseBitcoin env client (purchase_request plan event) w_call
      = (Return result, w_ret) →
      res_success result = false →
      let transaction :=
        purchase_transaction env plan event result (uuidv4_at env (uuidCount w)) in
      let failed := event_entry env EXECUTION_FAILED
                      (failed_detail plan event transaction result) in
      ∃ w',
        processExecutionEvent env record w
        = (Throw (new_Error ("Purchase failed: "
                    +:+ default "undefined" (res_errorMessage result))), w')
        ∧ process_records env [record] [] w = (Return [messageId record], w')
        ∧ plan_status <$> plansTable w' !! key = Some FAILED
        ∧ transactionsTable w' = <[tx_key transaction := transaction]> (transactionsTable w)
        ∧ transactionsTable w !! tx_key transaction = None
        ∧ tx_status transaction = TX_FAILED
        ∧ tx_errorMessage transaction = res_errorMessage result
        ∧ eventBus w' = eventBus w ++ [started; failed]
        ∧ DetailType failed = EXECUTION_FAILED
        ∧ randomCount w' = randomCount w_ret.
Proof.
  intros event key started w_call Hnormal Hplan Hkey Hclient Hbus Hfresh.
  pose proof (processExecutionEvent_normal record w plan Hnormal Hplan Hkey) as Hrun.
  cbv zeta in Hrun. rewrite Hbus, Hclient, Hkey in Hrun. fold event key started w_call in Hrun.
  split; [exact Hrun |]. split; [apply purchaseBitcoin_returns |].
  intros result w3 Hcall Hfail transaction failed.
  rewrite Hcall in Hrun.
  destruct (purchaseBitcoin_frame _ _ _ _ _ Hcall) as (Hp3 & Ht3 & _ & Hb3 & Hu3 & _ & _).
  assert (Hrow3 : plansTable w3 !! plan_key plan
                  = Some (with_status EXECUTING (Date_now env) plan)).
  { rewrite Hp3, Hkey. unfold w_call. cbn [plansTable set_eventBus set_plansTable].
    by rewrite lookup_alter_eq, Hplan. }
  rewrite (record_purchase_cases plan event result w3 _ Hrow3) in Hrun. cbv zeta in Hrun.
  rewrite Hu3 in Hrun. cbn [uuidCount set_eventBus set_plansTable w_call] in Hrun.
  fold transaction in Hrun.
  assert (Hfresh' : transactionsTable w !! tx_key transaction = None) by done.
  rewrite Ht3 in Hrun. cbn [transactionsTable set_eventBus set_plansTable w_call] in Hrun.
  rewrite Hfresh', Hfail, Hbus in Hrun.
  eexists. split_and!.
  - exact Hrun.
  - eapply (process_one_record record w (Throw _)). exact Hrun.
  - cbn [plansTable set_eventBus set_plansTable set_transactionsTable set_uuidCount].
    rewrite Hkey, lookup_alter_eq, Hp3. unfold w_call.
    cbn [plansTable set_eventBus set_plansTable]. by rewrite lookup_alter_eq, Hplan.
  - cbn. by rewrite Ht3.
  - done.
  - cbn. by rewrite Hfail.
  - done.
  - cbn. rewrite Hb3. cbn. by rewrite <- app_assoc.
  - done.
  - done.
Qed.

End ExecutorFacts.

(* ===================================================================== *)
(** * Failures of the event bus *)
(* ===================================================================== *)
Section BusFailures.
Import Executor Fixture.
Context (env : Env).

(** Swapping the bus changes none of the values the Executor computes. *)
Lemma with_bus_same f :
  max_retries_setting (with_bus f env) = max_retries_setting env
  ∧ Date_now (with_bus f env) = Date_now env
  ∧ uuidv4_at (with_bus f env) = uuidv4_at env
  ∧ new_Date (with_bus f env) = new_Date env
  ∧ maxRetries_transaction (with_bus f env) = maxRetries_transaction env
  ∧ purchase_transaction (with_bus f env) = purchase_transaction env
  ∧ event_entry (with_bus f env) = event_entry env
  ∧ ExchangeClient.purchaseBitcoin (with_bus f env) = ExchangeClient.purchaseBitcoin env
  ∧ putEvents_fault (with_bus f env) = f.
Proof. by split_and!. Qed.

Ltac same_bus H :=
  let L := fresh in
  pose proof (with_bus_same (λ _, None)) as L;
  destruct L as (L1 & L2 & L3 & L4 & L5 & L6 & L7 & L8 & L9);
  rewrite ?L1, ?L2, ?L3, ?L4, ?L5, ?L6, ?L7, ?L8, ?L9 in H;
  clear L1 L2 L3 L4 L5 L6 L7 L8 L9; cbv beta in H.

Ltac refused :=
  simplify_eq; split_and!; first [done | by left | by right | by intros [=]].

(** C8, as the claim has it, fails: a publish that fails changes how the
    task ends. With a bus that refuses EXECUTION_COMPLETED the purchase
    is recorded and the plan rescheduled as with a bus that takes it, but
    the task that was acknowledged is now reported as failed; with a bus
    that refuses EXECUTION_STARTED the task fails before the exchange is
    called, and neither a transaction nor a new schedule is written. *)
Lemma publish_failure_fails_the_task :
  let completed_down := with_bus (reject_type EXECUTION_COMPLETED) env_ok in
  let started_down := with_bus (reject_type EXECUTION_STARTED) env_ok in
  (fst (processExecutionEvent env_ok (task p1 0) w0) = Return ()
   ∧ fst (handler env_ok [task p1 0] w0) = Return [])
  ∧ (fst (processExecutionEvent completed_down (task p1 0) w0) = Throw bus_down
     ∧ fst (handler completed_down [task p1 0] w0) = Return ["msg-1"]
     ∧ (λ p, (plan_status p, plan_nextExecutionTime p))
         <$> plansTable (snd (processExecutionEvent completed_down (task p1 0) w0))
               !! plan_key p1
       = Some (ACTIVE, T / 1000 + 604800)
     ∧ tx_status
         <$> transactionsTable (snd (processExecutionEvent completed_down (task p1 0) w0))
               !! ("alice", "uuid-0")
       = Some TX_COMPLETED)
  ∧ (fst (processExecutionEvent started_down (task p1 0) w0) = Throw bus_down
     ∧ fst (handler started_down [task p1 0] w0) = Return ["msg-1"]
     ∧ plan_status <$> plansTable (snd (processExecutionEvent started_down (task p1 0) w0))
                         !! plan_key p1 = Some EXECUTING
     ∧ transactionsTable (snd (processExecutionEvent started_down (task p1 0) w0)) = ∅
     ∧ randomCount (snd (processExecutionEvent started_down (task p1 0) w0)) = 0%nat).
Proof. vm_compute. repeat split. Qed.

(** C8 (amended). Executor: compare processing a task with the run in
    which the bus takes every event. Either the bus refused nothing the
    run published, and the two runs are the same. Or it refused
    EXECUTION_STARTED: then the error of the bus is thrown with the
    plan's status written to EXECUTING and nothing else done -- no
    purchase, no transaction, no new schedule. Or it refused
    EXECUTION_COMPLETED or EXECUTION_FAILED: then every write was made as
    in the other run, which differs only by the entry on the bus, but
    the error of the bus is thrown, also where the other run returned.
    Scanner: with the plan stored, a failure of the enqueue or of the
    publish is rethrown and leaves the plan's status back at ACTIVE. *)
Theorem publish_failure_is_rethrown_after_the_writes record w :
  Scanner.keys_agree w →
  let key := (ev_userId (body record), ev_planId (body record)) in
  (∀ r w' r0 w0',
     processExecutionEvent env record w = (r, w') →
     processExecutionEvent (with_bus (λ _, None) env) record w = (r0, w0') →
     (r = r0 ∧ w' = w0')
     ∨ (∃ plan e,
          plansTable w !! key = Some plan
          ∧ putEvents_fault env
              (event_entry env EXECUTION_STARTED (started_detail plan (body record))) = Some e
          ∧ r = Throw e
          ∧ w' = set_plansTable (alter (with_status EXECUTING (Date_now env)) key) w)
     ∨ (∃ entry e,
          putEvents_fault env entry = Some e
          ∧ (DetailType entry = EXECUTION_COMPLETED ∨ DetailType entry = EXECUTION_FAILED)
          ∧ r = Throw e
          ∧ w0' = set_eventBus (λ b, b ++ [entry]) w'
          ∧ (DetailType entry = EXECUTION_COMPLETED → r0 = Return ())))
  ∧ (∀ plan row e,
       plansTable w !! plan_key plan = Some row →
       let executionId := uuidv4_at env (uuidCount w) in
       sendMessage_fault env (Scanner.task_request env plan executionId) = Some e
       ∨ (sendMessage_fault env (Scanner.task_request env plan executionId) = None
          ∧ putEvents_fault env (Scanner.scheduled_entry env plan executionId) = Some e) →
       ∃ w', run (Scanner.processPlansForExecution env plan) w = (Throw e, w')
         ∧ plan_status <$> plansTable w' !! plan_key plan = Some ACTIVE).
Proof.
  intros Hkeys key. split.
  - intros r w' r0 w0' Hrun Hrun0.
    destruct (plansTable w !! key) as [plan |] eqn:Hplan; last first.
    { rewrite (processExecutionEvent_missing env) in Hrun by done.
      rewrite (processExecutionEvent_missing (with_bus (λ _, None) env)) in Hrun0 by done.
      left. by simplify_eq. }
    pose proof (Hkeys _ _ Hplan) as Hkey.
    destruct (js_ge (ev_attemptCount (body record))
                (JsParse.parseInt (max_retries_setting env))) eqn:Hpath.
    + rewrite (processExecutionEvent_exhausted env) in Hrun by done.
      rewrite (processExecutionEvent_exhausted (with_bus (λ _, None) env)) in Hrun0 by done.
      rewrite (handleMaxRetries_present env (body record) w plan Hplan Hkey) in Hrun.
      rewrite (handleMaxRetries_present (with_bus (λ _, None) env)
                 (body record) w plan Hplan Hkey) in Hrun0.
      cbv zeta in Hrun, Hrun0. same_bus Hrun0.
      destruct (transactionsTable w !! _); [left; by simplify_eq |].
      match type of Hrun with
      | context [putEvents_fault env ?entry] =>
          destruct (putEvents_fault env entry) as [e |] eqn:Hput;
            [right; right; exists entry, e; refused | left; by simplify_eq]
      end.
    + rewrite (processExecutionEvent_normal env record w plan Hpath Hplan Hkey) in Hrun.
      rewrite (processExecutionEvent_normal (with_bus (λ _, None) env)
                 record w plan Hpath Hplan Hkey) in Hrun0.
      cbv zeta in Hrun, Hrun0. same_bus Hrun0.
      destruct (putEvents_fault env _) as [e |] eqn:Hstarted.
      { right. left. exists plan, e. rewrite Hkey in Hrun. simplify_eq. by split_and!. }
      destruct (exchangeClient w) as [client |]; [| left; by simplify_eq].
      match type of Hrun with
      | context [ExchangeClient.purchaseBitcoin env client ?req ?w2] =>
          destruct (ExchangeClient.purchaseBitcoin env client req w2)
            as [[result | e] w3] eqn:Hcall
      end; [| left; by simplify_eq].
      destruct (purchaseBitcoin_frame env _ _ _ _ _ Hcall) as (Hp3 & _).
      assert (Hrow3 : plansTable w3 !! plan_key plan
                      = Some (with_status EXECUTING (Date_now env) plan)).
      { rewrite Hp3. cbn. by rewrite lookup_alter_eq, Hkey, Hplan. }
      rewrite (record_purchase_cases env plan (body record) result w3 _ Hrow3) in Hrun.
      rewrite (record_purchase_cases (with_bus (λ _, None) env)
                 plan (body record) result w3 _ Hrow3) in Hrun0.
      cbv zeta in Hrun, Hrun0. same_bus Hrun0.
      destruct (transactionsTable w3 !! _); [left; by simplify_eq |].
      destruct (res_success result).
      * destruct (calculateNextExecutionTime _ _) as [[next |] | e];
          [| left; by simplify_eq | left; by simplify_eq].
        match type of Hrun with
        | context [putEvents_fault env ?entry] =>
            destruct (putEvents_fault env entry) as [e |] eqn:Hput;
              [right; right; exists entry, e; refused | left; by simplify_eq]
        end.
      * match type of Hrun with
        | context [putEvents_fault env ?entry] =>
            destruct (putEvents_fault env entry) as [e |] eqn:Hput;
              [right; right; exists entry, e; refused | left; by simplify_eq]
        end.
  - intros plan row e Hrow executionId Hfault.
    rewrite processPlansForExecution_cases. cbv zeta. fold executionId. rewrite Hrow.
    destruct Hfault as [-> | [-> ->]]; eexists; (split; [reflexivity |]); cbn;
      by rewrite !lookup_alter_eq, Hrow.
Qed.

End BusFailures.


(* ===================================================================== *)
(** * The rows the Executor records *)
(* ===================================================================== *)
Section RecordedAmounts.
Import Executor Fixture.
Context (env : Env).

Lemma or_zero_eq (q : Q) : (or_zero (Some q) == q)%Q.
Proof.
  unfold or_zero. destruct (Qeq_bool q 0) eqn:Hq; [| reflexivity].
  apply Qeq_bool_eq in Hq. by rewrite Hq.
Qed.

(** Where a new row comes from.  A transaction row that processing a task
    adds was built for the plan the task names, either on the max-retries
    path or from the very result the exchange client returned to this
    run: the call is the one the run makes, with the request built from
    the plan and the task, in the world the run has reached by then (the
    plan marked EXECUTING, EXECUTION_STARTED published). *)
Lemma processExecutionEvent_row record w k tx :
  let event := body record in
  let key := (ev_userId event, ev_planId event) in
  transactionsTable (processExecutionEvent env record w).2 !! k = Some tx →
  transactionsTable w !! k = None →
  ∃ plan,
    plansTable w !! key = Some plan
    ∧ ((js_ge (ev_attemptCount event) (JsParse.parseInt (max_retries_setting env)) = true
        ∧ tx = maxRetries_transaction env plan event (uuidv4_at env (uuidCount w)))
       ∨ ∃ client result w_ret,
           exchangeClient w = Some client
           ∧ ExchangeClient.purchaseBitcoin env client (purchase_request plan event)
               (set_eventBus
                  (λ b, b ++ [event_entry env EXECUTION_STARTED (started_detail plan event)])
                  (set_plansTable
                     (alter (with_status EXECUTING (Date_now env)) (plan_key plan)) w))
             = (Return result, w_ret)
           ∧ tx = purchase_transaction env plan event result (uuidv4_at env (uuidCount w))).
Proof.
  intros event key Hnew Hold.
  unfold processExecutionEvent in Hnew. rewrite try_catch_rethrow in Hnew.
  fold event in Hnew.
  assert (Hleaf : ∀ (t : SavingsPlanTransaction) (w1 : World),
            transactionsTable w1 = transactionsTable w ∨
            transactionsTable w1 = <[tx_key t := t]> (transactionsTable w) →
            transactionsTable w1 !! k = Some tx → tx = t).
  { intros t w1 [Heq | Heq] Hk; rewrite Heq in Hk; [congruence |].
    apply lookup_insert_Some in Hk as [[_ <-] | [_ Hk]]; [done | congruence]. }
  destruct (plansTable w !! key) as [plan |] eqn:Hplan; last first.
  { exfalso. destruct (js_ge _ _).
    - unfold handleMaxRetries in Hnew. rewrite try_catch_rethrow in Hnew.
      erewrite bind_Throw in Hnew by (by apply getSavingsPlan_absent). cbn in Hnew. congruence.
    - erewrite bind_Throw in Hnew by (by apply getSavingsPlan_absent). cbn in Hnew. congruence. }
  exists plan. split; [done |].
  destruct (js_ge _ _).
  - left. split; [done |]. unfold handleMaxRetries in Hnew. rewrite try_catch_rethrow in Hnew.
    erewrite bind_Return in Hnew by (by apply getSavingsPlan_present).
    eapply (Hleaf _ _ _ Hnew). Unshelve.
    unfold updatePlanStatus, plans_update, recordTransaction, transactions_put, publishEvent,
      eventBridge_putEvents, uuidv4, mbind, M_bind, bind.
    repeat (case_match; simplify_eq/=); auto.
  - right.
    erewrite bind_Return in Hnew by (by apply getSavingsPlan_present).
    unfold updatePlanStatus, plans_update in Hnew.
    unfold mbind, M_bind, bind in Hnew.
    destruct (attribute_exists _); [| cbn in Hnew; congruence].
    rewrite publishEvent_cases in Hnew.
    destruct (putEvents_fault env _); [cbn in Hnew; congruence |].
    unfold the_exchangeClient in Hnew. cbn [exchangeClient set_eventBus set_plansTable] in Hnew.
    destruct (exchangeClient w) as [client |] eqn:Hclient; [| cbn in Hnew; congruence].
    destruct (ExchangeClient.purchaseBitcoin _ _ _ _) as [[result | e] w3] eqn:Hcall.
    + exists client, result, w3. split; [done |]. split; [exact Hcall |].
      destruct (purchaseBitcoin_frame env _ _ _ _ _ Hcall) as (_ & Ht3 & _ & _ & Hu3 & _).
      cbn in Ht3, Hu3. rewrite <- Hu3.
      eapply (Hleaf _ _ _ Hnew). Unshelve.
      unfold record_purchase, recordTransaction, transactions_put, on_purchase_success,
        on_purchase_failure, updatePlanWithNextExecution, updatePlanStatus, plans_update,
        publishEvent, eventBridge_putEvents, uuidv4, mbind, M_bind, bind, throw.
      rewrite <- Ht3.
      repeat (case_match; simplify_eq/=); auto.
    + exfalso. destruct (purchaseBitcoin_frame env _ _ _ _ _ Hcall) as (_ & Ht3 & _).
      cbn in Hnew, Ht3. congruence.
Qed.

(** C10. Whatever the task and the world, every transaction row that
    processing the task adds has zero [bitcoinAmount] and [exchangeRate]
    when its status is FAILED.  When its status is COMPLETED, it is the
    row built from the result of the purchase this run made for the plan
    the task names: the exchange client's call, with the request built
    from that plan and task in the world the run had reached, returned a
    successful result, and the row carries that result's [bitcoinAmount]
    and [exchangeRate]. *)
Theorem recorded_rows_have_the_stated_amounts record w k tx :
  let event := body record in
  transactionsTable (processExecutionEvent env record w).2 !! k = Some tx →
  transactionsTable w !! k = None →
  (tx_status tx = TX_FAILED → tx_bitcoinAmount tx = 0%Q ∧ tx_exchangeRate tx = 0%Q)
  ∧ (tx_status tx = TX_COMPLETED →
     ∃ plan client result w_ret bitcoinAmount exchangeRate,
       plansTable w !! (ev_userId event, ev_planId event) = Some plan
       ∧ exchangeClient w = Some client
       ∧ ExchangeClient.purchaseBitcoin env client (purchase_request plan event)
           (set_eventBus
              (λ b, b ++ [event_entry env EXECUTION_STARTED (started_detail plan event)])
              (set_plansTable
                 (alter (with_status EXECUTING (Date_now env)) (plan_key plan)) w))
         = (Return result, w_ret)
       ∧ res_success result = true
       ∧ tx = purchase_transaction env plan event result (uuidv4_at env (uuidCount w))
       ∧ res_bitcoinAmount result = Some bitcoinAmount
       ∧ res_exchangeRate result = Some exchangeRate
       ∧ (tx_bitcoinAmount tx == bitcoinAmount)%Q
       ∧ (tx_exchangeRate tx == exchangeRate)%Q).
Proof.
  intros event Hnew Hold.
  destruct (processExecutionEvent_row record w k tx Hnew Hold)
    as (plan & Hplan & [[_ ->] | (client & result & w_ret & Hclient & Hcall & ->)]).
  { split; [done | by intros [=]]. }
  destruct (purchaseBitcoin_amounts env _ _ _ _ _ Hcall) as [Hfail Hok].
  split; cbn; destruct (res_success result) eqn:Hs; try done.
  - intros _. destruct (Hfail eq_refl) as [-> ->]. done.
  - intros _. destruct (Hok eq_refl) as (bitcoinAmount & exchangeRate & Hb & Hr).
    exists plan, client, result, w_ret, bitcoinAmount, exchangeRate.
    split_and!; try done.
    + rewrite Hb. apply or_zero_eq.
    + rewrite Hr. apply or_zero_eq.
Qed.

End RecordedAmounts.

(* ===================================================================== *)
(** * The theorems at concrete worlds *)
(* ===================================================================== *)
Section Scenarios.
Import Fixture.

(** A weekly plan of 100, ACTIVE and due one second ago, is scanned at
    [T]: its status becomes PENDING_EXECUTION and one task is emitted. *)
Example scenario_scan :
  fst (Scanner.handler env_ok w0) = Return ()
  ∧ plan_status <$> plansTable (snd (Scanner.handler env_ok w0)) !! plan_key p1
    = Some PENDING_EXECUTION
  ∧ executionQueue (snd (Scanner.handler env_ok w0))
    = [Scanner.task_request env_ok p1 "uuid-0"]
  ∧ plan_status <$> plansTable (snd (Scanner.handler env_ok w0)) !! plan_key p2 = Some ACTIVE
  ∧ plan_status <$> plansTable (snd (Scanner.handler env_ok w0)) !! plan_key p3 = Some PAUSED.
Proof. vm_compute. done. Qed.

(** That task is executed with a successful purchase at a rate of 65000:
    the transaction is COMPLETED for the double nearest to 100/65000
    bitcoin, the plan is ACTIVE again and due one week after [T]. *)
Example scenario_execute :
  let after := snd (Executor.handler env_ok [task p1 0] w0) in
  fst (Executor.handler env_ok [task p1 0] w0) = Return []
  ∧ (λ tx, (tx_status tx, Qeq_bool (tx_bitcoinAmount tx) (Double.div 100 65000),
             Qeq_bool (tx_exchangeRate tx) 65000))
      <$> transactionsTable after !! ("alice", "uuid-0")
    = Some (TX_COMPLETED, true, true)
  ∧ (λ p, (plan_status p, plan_nextExecutionTime p)) <$> plansTable after !! plan_key p1
    = Some (ACTIVE, T / 1000 + 604800)
  ∧ DetailType <$> eventBus after = [EXECUTION_STARTED; EXECUTION_COMPLETED].
Proof. vm_compute. done. Qed.

(** The queue refuses the task: the plan is back to ACTIVE, nothing is
    enqueued or published, and the run throws. *)
Example scenario_queue_down :
  let env := with_sendMessage_fault (λ _, Some queue_down) env_ok in
  fst (Scanner.handler env w0) = Throw (new_Error "Failed to process all 1 plans")
  ∧ plan_status <$> plansTable (snd (Scanner.handler env w0)) !! plan_key p1 = Some ACTIVE
  ∧ executionQueue (snd (Scanner.handler env w0)) = []
  ∧ eventBus (snd (Scanner.handler env w0)) = [].
Proof. vm_compute. done. Qed.

End Scenarios.

Section Examples.
Import Executor ExchangeClient Fixture.

Lemma failing_exchange_fails client request w result w' :
  purchaseBitcoin env_failing client request w = (Return result, w') →
  res_success result = false.
Proof. rewrite purchaseBitcoin_cases. cbv zeta. by intros [= <- <-]. Qed.

(** The amended C3 with the plan stored, and with the plan missing. *)
Lemma max_retries_path_witness :
  JsParse.parseInt (max_retries_setting env_ok) = Some 3
  ∧ 3 ≤ ev_attemptCount (body (task p1 3))
  ∧ Scanner.keys_agree w0
  ∧ (∃ w', processExecutionEvent env_ok (task p1 3) w0 = (Return (), w')
       ∧ plansTable w' !! plan_key p1 = Some (with_status FAILED T p1)
       ∧ randomCount w' = randomCount w0)
  ∧ process_records env_ok [task (plan "dave" "plan-9" ACTIVE 0) 3] [] w0
    = (Return ["msg-1"], w0).
Proof.
  assert (H1 : JsParse.parseInt (max_retries_setting env_ok) = Some 3) by reflexivity.
  assert (H2 : 3 ≤ ev_attemptCount (body (task p1 3))) by (cbn; lia).
  assert (H3 : Scanner.keys_agree w0) by apply keys_agree_world_of.
  split; [exact H1 | split; [exact H2 | split; [exact H3 | split]]].
  - destruct (max_retries_path env_ok (task p1 3) w0 3 H1 H2 H3) as (Hquiet & _ & Hpresent).
    destruct (Hpresent p1) as (w' & Hrun & _ & Hrow & _);
      [vm_compute; reflexivity | vm_compute; reflexivity | reflexivity |].
    exists w'. split; [exact Hrun | split; [exact Hrow |]].
    exact (Hquiet _ _ Hrun).
  - assert (H2' : 3 ≤ ev_attemptCount (body (task (plan "dave" "plan-9" ACTIVE 0) 3)))
      by (cbn; lia).
    destruct (max_retries_path env_ok (task (plan "dave" "plan-9" ACTIVE 0) 3) w0 3 H1 H2' H3)
      as (_ & Hmissing & _).
    destruct Hmissing as [_ Hbatch]; [vm_compute; reflexivity |].
    exact Hbatch.
Defined.

(** C5 with an exchange that fails the purchase. *)
Lemma failed_purchase_is_recorded_and_signalled_witness :
  js_ge (ev_attemptCount (body (task p1 0)))
    (JsParse.parseInt (max_retries_setting env_failing)) = false
  ∧ plansTable w0 !! plan_key p1 = Some p1
  ∧ exchangeClient w0 = Some demo_client
  ∧ transactionsTable w0 !! (plan_userId p1, uuidv4_at env_failing (uuidCount w0)) = None
  ∧ ∃ e w',
      processExecutionEvent env_failing (task p1 0) w0 = (Throw e, w')
      ∧ process_records env_failing [task p1 0] [] w0 = (Return ["msg-1"], w')
      ∧ plan_status <$> plansTable w' !! plan_key p1 = Some FAILED.
Proof.
  assert (H1 : js_ge (ev_attemptCount (body (task p1 0)))
                 (JsParse.parseInt (max_retries_setting env_failing)) = false) by reflexivity.
  assert (H2 : plansTable w0 !! plan_key p1 = Some p1) by (vm_compute; reflexivity).
  assert (H3 : plan_key p1 = plan_key p1) by reflexivity.
  assert (H4 : exchangeClient w0 = Some demo_client) by reflexivity.
  assert (H5 : ∀ entry, putEvents_fault env_failing entry = None) by (intros; reflexivity).
  assert (H6 : transactionsTable w0
                 !! (plan_userId p1, uuidv4_at env_failing (uuidCount w0)) = None)
    by (vm_compute; reflexivity).
  destruct (failed_purchase_is_recorded_and_signalled env_failing (task p1 0) w0 p1 demo_client
              H1 H2 H3 H4 H5 H6) as (_ & (result & w_ret & Hcall) & Hfailed).
  destruct (Hfailed result w_ret Hcall (failing_exchange_fails _ _ _ _ _ Hcall))
    as (w' & Hrun & Hbatch & Hstatus & _).
  split; [exact H1 | split; [exact H2 | split; [exact H4 | split; [exact H6 |]]]].
  eexists _, w'. split; [exact Hrun | split; [exact Hbatch | exact Hstatus]].
Defined.


(** The amended C8 with a bus that rejects EXECUTION_COMPLETED (Executor)
    and one that rejects EXECUTION_SCHEDULED (Scanner). *)
Lemma publish_failure_is_rethrown_after_the_writes_witness :
  Scanner.keys_agree w0
  ∧ (let env_down := with_bus (reject_type EXECUTION_COMPLETED) env_ok in
     fst (processExecutionEvent env_down (task p1 0) w0) = Throw bus_down
     ∧ fst (processExecutionEvent (with_bus (λ _, None) env_down) (task p1 0) w0) = Return ()
     ∧ ∃ entry,
         snd (processExecutionEvent (with_bus (λ _, None) env_down) (task p1 0) w0)
         = set_eventBus (λ b, b ++ [entry])
             (snd (processExecutionEvent env_down (task p1 0) w0)))
  ∧ ∃ w', run (Scanner.processPlansForExecution
                 (with_bus (reject_type EXECUTION_SCHEDULED) env_ok) p1) w0
          = (Throw bus_down, w')
      ∧ plan_status <$> plansTable w' !! plan_key p1 = Some ACTIVE.
Proof.
  assert (H1 : Scanner.keys_agree w0) by apply keys_agree_world_of.
  split; [exact H1 | split].
  - intros env_down.
    assert (Hthrown : fst (processExecutionEvent env_down (task p1 0) w0) = Throw bus_down)
      by (vm_compute; reflexivity).
    assert (Hreturned : fst (processExecutionEvent (with_bus (λ _, None) env_down)
                               (task p1 0) w0) = Return ())
      by (vm_compute; reflexivity).
    split; [exact Hthrown | split; [exact Hreturned |]].
    destruct (publish_failure_is_rethrown_after_the_writes env_down (task p1 0) w0 H1)
      as [Hexec _].
    destruct (Hexec _ _ _ _ (surjective_pairing _) (surjective_pairing _))
      as [[Hsame _] | [(plan & e & _ & Hstarted & _) | (entry & e & _ & _ & _ & Hworld & _)]].
    + rewrite Hthrown, Hreturned in Hsame. discriminate Hsame.
    + vm_compute in Hstarted. discriminate Hstarted.
    + exists entry. exact Hworld.
  - destruct (publish_failure_is_rethrown_after_the_writes
                (with_bus (reject_type EXECUTION_SCHEDULED) env_ok) (task p1 0) w0 H1)
      as [_ Hscan].
    apply (Hscan p1 p1 bus_down); [vm_compute; reflexivity |].
    right. split; reflexivity.
Defined.

(** The amended C9 on 'dev' and on 'prod'. *)
Lemma createFromSecrets_falls_back_only_on_dev_witness :
  load_config (with_secret_failure "dev" env_ok) "exchange-secret" "dev"
  = Throw (ErrorObj "ResourceNotFoundException" "Secrets Manager can't find the secret")
  ∧ createFromSecrets (with_secret_failure "dev" env_ok) "exchange-secret" "dev" w0
    = (Return (mkClient demo_config), w0)
  ∧ createFromSecrets (with_secret_failure "prod" env_ok) "exchange-secret" "prod" w0
    = (Throw (ErrorObj "ResourceNotFoundException" "Secrets Manager can't find the secret"),
       w0).
Proof.
  assert (H1 : load_config (with_secret_failure "dev" env_ok) "exchange-secret" "dev"
               = Throw (ErrorObj "ResourceNotFoundException"
                          "Secrets Manager can't find the secret")) by reflexivity.
  assert (H2 : load_config (with_secret_failure "prod" env_ok) "exchange-secret" "prod"
               = Throw (ErrorObj "ResourceNotFoundException"
                          "Secrets Manager can't find the secret")) by reflexivity.
  split; [exact H1 | split].
  - exact (proj1 (createFromSecrets_falls_back_only_on_dev _ _ _ w0 _ H1) eq_refl).
  - apply (proj2 (createFromSecrets_falls_back_only_on_dev _ _ _ w0 _ H2)). discriminate.
Defined.

(** C10 on the row of a successful purchase. *)
Lemma recorded_rows_have_the_stated_amounts_witness :
  ∃ tx,
    transactionsTable (processExecutionEvent env_ok (task p1 0) w0).2 !! ("alice", "uuid-0")
    = Some tx
    ∧ transactionsTable w0 !! ("alice", "uuid-0") = None
    ∧ tx_status tx = TX_COMPLETED
    ∧ ∃ result bitcoinAmount,
        res_success result = true
        ∧ res_bitcoinAmount result = Some bitcoinAmount
        ∧ (tx_bitcoinAmount tx == bitcoinAmount)%Q.
Proof.
  eexists. split; [vm_compute; reflexivity |].
  split; [vm_compute; reflexivity | split; [reflexivity |]].
  destruct (recorded_rows_have_the_stated_amounts env_ok (task p1 0) w0 ("alice", "uuid-0") _
              ltac:(vm_compute; reflexivity) ltac:(vm_compute; reflexivity)) as [_ Hcompleted].
  destruct (Hcompleted eq_refl)
    as (_ & _ & result & _ & bitcoinAmount & _ & _ & _ & _ & Hok & _ & Hamount & _ & Heq & _).
  exists result, bitcoinAmount. split; [exact Hok | split; [exact Hamount | exact Heq]].
Defined.

End Examples.


Section Invariants.
Context (R : World → World → Prop).
Hypothesis R_refl : ∀ w, R w w.
Hypothesis R_trans : ∀ w1 w2 w3, R w1 w2 → R w2 w3 → R w1 w3.

Lemma inv_ret {A} (a : A) : keeps R (mret a).
Proof. intros w. apply R_refl. Qed.

Lemma inv_throw {A} e : keeps R (@throw A e).
Proof. intros w. apply R_refl. Qed.

Lemma inv_bind_returned {A B} (m : M A) (k : A → M B) :
  keeps R m →
  (∀ w a w1, m w = (Return a, w1) → R w1 (k a w1).2) →
  keeps R (m ≫= k).
Proof.
  intros Hm Hk w. unfold mbind, M_bind, bind.
  pose proof (Hm w) as Hw. destruct (m w) as [[a | e] w1] eqn:Hrun; [| done].
  eapply R_trans; [exact Hw |]. by eapply Hk.
Qed.

Lemma inv_bind {A B} (m : M A) (k : A → M B) :
  keeps R m → (∀ a, keeps R (k a)) → keeps R (m ≫= k).
Proof. intros Hm Hk. apply inv_bind_returned; [done |]. intros w a w1 _. apply Hk. Qed.

Lemma inv_try_catch {A} (m : M A) (h : Thrown → M A) :
  keeps R m → (∀ e, keeps R (h e)) → keeps R (try_catch m h).
Proof.
  intros Hm Hh w. unfold try_catch.
  pose proof (Hm w) as Hw. destruct (m w) as [[a | e] w1]; [done |].
  eapply R_trans; [exact Hw |]. apply Hh.
Qed.

Lemma inv_settle {A} (m : M A) : keeps R m → keeps R (settle m).
Proof. intros Hm w. unfold settle. pose proof (Hm w) as Hw. by destruct (m w). Qed.

Lemma inv_in_turn {A} (ms : list (M A)) :
  Forall (keeps R) ms → keeps R (in_turn ms).
Proof.
  induction 1 as [| m ms Hm _ IH]; cbn [in_turn]; [apply inv_ret |].
  apply inv_bind; [by apply inv_settle | intros r].
  apply inv_bind; [exact IH | intros rs; apply inv_ret].
Qed.

(** ** Functions that run side by side

    When every step and every call of the functions keeps [R], so does
    their fan-out, in whatever order the calls are answered. *)
Lemma inv_start {A} (t : Async A) w :
  all_steps (λ X, keeps R) t →
  all_steps (λ X, keeps R) (start t w).1 ∧ R w (start t w).2.
Proof.
  revert w. induction t as [c | X step k IH | X call k IH]; intros w Ht; cbn [start].
  - split; [done | apply R_refl].
  - destruct Ht as [Hstep Hk]. pose proof (Hstep w) as Hw.
    destruct (step w) as [r w1]. destruct (IH r w1 (Hk r)) as [Hall Hw1].
    split; [done |]. by eapply R_trans.
  - split; [done | apply R_refl].
Qed.

Lemma inv_resume {A} (t : Async A) w :
  all_steps (λ X, keeps R) t →
  all_steps (λ X, keeps R) (resume t w).1 ∧ R w (resume t w).2.
Proof.
  destruct t as [c | X step k | X call k]; intros Ht; cbn [resume];
    [by apply inv_start.. |].
  destruct Ht as [Hcall Hk]. pose proof (Hcall w) as Hw.
  destruct (call w) as [r w1]. destruct (inv_start (k r) w1 (Hk r)) as [Hall Hw1].
  split; [done |]. by eapply R_trans.
Qed.

Lemma inv_start_each {A} (ts : list (Async A)) w :
  Forall (all_steps (λ X, keeps R)) ts →
  Forall (all_steps (λ X, keeps R)) (start_each ts w).1 ∧ R w (start_each ts w).2.
Proof.
  intros Hts. revert w. induction Hts as [| t ts Ht _ IH]; intros w; cbn [start_each].
  - split; [done | apply R_refl].
  - destruct (inv_start t w Ht) as [Hp Hw]. destruct (start t w) as [p w1].
    destruct (IH w1) as [Hps Hw1]. destruct (start_each ts w1) as [ps w2].
    split; [by constructor |]. by eapply R_trans.
Qed.

Lemma inv_allSettled {A} order (ps : list (Async A)) :
  Forall (all_steps (λ X, keeps R)) ps → keeps R (allSettled order ps).
Proof.
  intros Hps w.
  set (P := λ (qs : list (Async A)) (w' : World),
         Forall (all_steps (λ X, keeps R)) qs ∧ R w w').
  assert (HP : ∀ qs w' i q,
            P qs w' → qs !! i = Some q → P (<[i := (resume q w').1]> qs) (resume q w').2).
  { intros qs w' i q [Hall Hw'] Hi.
    destruct (inv_resume q w' (Forall_lookup_1 _ _ _ _ Hall Hi)) as [Hq Hstep].
    split; [by apply Forall_insert | by eapply R_trans]. }
  destruct (allSettled_invariant P HP order ps w) as (rs & w' & -> & _ & _ & Hw').
  - split; [done | apply R_refl].
  - done.
Qed.

(** The fan-out of [ts]: all are called, then all are joined. *)
Lemma inv_fan_out {A} order (ts : list (Async A)) :
  Forall (all_steps (λ X, keeps R)) ts →
  keeps R (ps ← call_each ts; allSettled order ps).
Proof.
  intros Hts w. unfold mbind, M_bind, bind, call_each.
  destruct (inv_start_each ts w Hts) as [Hps Hw].
  destruct (start_each ts w) as [ps w1].
  eapply R_trans; [exact Hw |]. by apply inv_allSettled.
Qed.

Lemma all_steps_bind {A B} (Q : ∀ X, M X → Prop) (t : Async A) (f : A → Async B) :
  all_steps Q t → (∀ a, all_steps Q (f a)) → all_steps Q (async_bind t f).
Proof.
  intros Ht Hf. induction t as [[a | e] | X step k IH | X call k IH]; cbn; [done.. | |];
    destruct Ht as [Hq Hk]; (split; [done |]); intros r; by apply IH.
Qed.

Lemma all_steps_try_catch {A} (Q : ∀ X, M X → Prop) (t : Async A) (h : Thrown → Async A) :
  all_steps Q t → (∀ e, all_steps Q (h e)) → all_steps Q (async_try_catch t h).
Proof.
  intros Ht Hh. induction t as [[a | e] | X step k IH | X call k IH]; cbn; [done.. | |];
    destruct Ht as [Hq Hk]; (split; [done |]); intros r; by apply IH.
Qed.

End Invariants.

Section ScannerFootprint.
Import Scanner Dispatch.
Context (env : Env).

Lemma status_moved_trans now p1 p2 p3 :
  status_moved now p1 p2 → status_moved now p2 p3 → status_moved now p1 p3.
Proof.
  unfold status_moved. intros [-> | [-> | ->]] [-> | [-> | ->]]; auto.
Qed.

Lemma scan_step_refl w : scan_step env w w.
Proof.
  unfold scan_step. split_and!; try done.
  intros k. destruct (plansTable w !! k); constructor. by left.
Qed.

Lemma scan_step_trans w1 w2 w3 :
  scan_step env w1 w2 → scan_step env w2 w3 → scan_step env w1 w3.
Proof.
  intros (Ht1 & Hc1 & Hr1 & Hq1 & Hb1 & Hp1) (Ht2 & Hc2 & Hr2 & Hq2 & Hb2 & Hp2).
  unfold scan_step. split_and!; try congruence.
  - by etrans.
  - by etrans.
  - intros k. specialize (Hp1 k). specialize (Hp2 k).
    destruct Hp1 as [p1 p2 H12 |]; inversion Hp2; subst; constructor.
    by eapply status_moved_trans.
Qed.

Lemma scan_step_update plan status :
  status = PENDING_EXECUTION ∨ status = ACTIVE →
  keeps (scan_step env) (updatePlanStatus env plan status).
Proof.
  intros Hs w. unfold updatePlanStatus. rewrite try_catch_rethrow.
  unfold plans_update. destruct (attribute_exists _); [| apply scan_step_refl].
  unfold scan_step. cbn. split_and!; try done.
  intros k. rewrite lookup_alter. case_decide as Hk.
  - subst k. destruct (plansTable w !! _) as [p |]; constructor.
    destruct Hs as [-> | ->]; [right; by left | right; by right].
  - destruct (plansTable w !! k); constructor. by left.
Qed.

Lemma scan_step_sendMessage req : keeps (scan_step env) (sqs_sendMessage env req).
Proof.
  intros w. unfold sqs_sendMessage. destruct (sendMessage_fault env req); [apply scan_step_refl |].
  unfold scan_step. cbn. split_and!; try done.
  - by apply prefix_app_r.
  - intros k. destruct (plansTable w !! k); constructor. by left.
Qed.

Lemma scan_step_putEvents entry : keeps (scan_step env) (eventBridge_putEvents env entry).
Proof.
  intros w. unfold eventBridge_putEvents.
  destruct (putEvents_fault env entry); [apply scan_step_refl |].
  unfold scan_step. cbn. split_and!; try done.
  - by apply prefix_app_r.
  - intros k. destruct (plansTable w !! k); constructor. by left.
Qed.

Lemma scan_step_uuidv4 : keeps (scan_step env) (uuidv4 env).
Proof.
  intros w. unfold scan_step. cbn. split_and!; try done.
  intros k. destruct (plansTable w !! k); constructor. by left.
Qed.

Lemma scan_step_query status now Limit : keeps (scan_step env) (plans_query status now Limit).
Proof.
  intros w. unfold plans_query. destruct Limit as [n |]; [| apply scan_step_refl].
  destruct (1 <=? n); apply scan_step_refl.
Qed.

Lemma scan_step_processPlansForExecution plan :
  all_steps (λ X, keeps (scan_step env)) (processPlansForExecution env plan).
Proof.
  unfold processPlansForExecution, mbind, Async_bind.
  apply all_steps_bind; [split; [apply scan_step_uuidv4 | done] | intros executionId].
  apply all_steps_try_catch.
  - apply all_steps_bind; [split; [apply scan_step_update; by left | done] | intros _].
    apply all_steps_bind; [split; [apply scan_step_sendMessage | done] | intros _].
    split; [apply scan_step_putEvents | done].
  - intros error. apply all_steps_bind; [| done].
    apply all_steps_try_catch; [| done].
    split; [apply scan_step_update; by right | done].
Qed.

Lemma scan_step_handler : keeps (scan_step env) (handler env).
Proof.
  pose proof scan_step_refl as Hr. pose proof scan_step_trans as Ht.
  unfold handler.
  apply inv_try_catch; [done.. | | intros; by apply inv_throw].
  apply inv_bind; [done.. | apply scan_step_query | intros items].
  destruct items as [| p items]; [by apply inv_ret |].
  unfold handler_dispatch.
  apply inv_bind; [done.. | | intros results].
  - apply inv_fan_out; [done.. |]. apply Forall_fmap, Forall_forall.
    intros q _. apply scan_step_processPlansForExecution.
  - cbv zeta. case_decide; [by apply inv_throw | by apply inv_ret].
Qed.

(** A step of the Scanner leaves every row under the key it had. *)
Lemma scan_step_keys_agree w w' : scan_step env w w' → keys_agree w → keys_agree w'.
Proof.
  intros (_ & _ & _ & _ & _ & Hp) Hkeys k p' Hk. specialize (Hp k). rewrite Hk in Hp.
  inversion Hp as [p q Hmoved Hw |]; subst.
  symmetry in Hw. specialize (Hkeys k p Hw).
  by destruct Hmoved as [-> | [-> | ->]].
Qed.

(** X1. Whatever the store, the queue, the bus and the batch size are, a
    run of the Scanner writes no transaction, leaves the exchange client
    and the random-number count alone, only appends to the queue and to
    the bus, and neither adds nor removes a plan: each row is left as it
    was, or has its status set to PENDING_EXECUTION or to ACTIVE together
    with its update time, and nothing else. *)
Theorem scan_only_moves_status w :
  let w' := (handler env w).2 in
  transactionsTable w' = transactionsTable w
  ∧ exchangeClient w' = exchangeClient w
  ∧ randomCount w' = randomCount w
  ∧ executionQueue w `prefix_of` executionQueue w'
  ∧ eventBus w `prefix_of` eventBus w'
  ∧ ∀ k, match plansTable w !! k with
         | None => plansTable w' !! k = None
         | Some p =>
             plansTable w' !! k = Some p
             ∨ plansTable w' !! k = Some (with_status PENDING_EXECUTION (Date_now env) p)
             ∨ plansTable w' !! k = Some (with_status ACTIVE (Date_now env) p)
         end.
Proof.
  intros w'. destruct (scan_step_handler w) as (Ht & Hc & Hr & Hq & Hb & Hp).
  fold w' in Ht, Hc, Hr, Hq, Hb, Hp. split_and!; try done.
  intros k. specialize (Hp k).
  destruct Hp as [p p' [-> | [-> | ->]] |]; auto.
Qed.

End ScannerFootprint.

Section ScannerRuns.
Import Scanner Dispatch Fixture.
Context (env : Env).

(** X2. The fan-out treats each plan of a batch on its own, in whatever
    order the calls that are pending side by side are answered. Whether
    the processing of a plan is fulfilled, whether its task is enqueued
    and whether it is announced depends only on whether its row is stored
    and on the answers of the queue and of the bus to this plan's own
    request and entry: a plan that fails stops none of the others. The
    run throws exactly when some plan was rejected; the tasks added to
    the queue and the entries added to the bus are those of the plans
    that got that far, in some order; with pairwise distinct plans each
    stored row ends PENDING_EXECUTION when its plan was fulfilled and
    ACTIVE when it was rejected; rows outside the batch are untouched. *)
Theorem fan_out_treats_each_plan_on_its_own plans w :
  let stored := plansTable w in
  let count := uuidCount w in
  ∃ w',
    fan_out env plans w = (Return (outcomes env stored count plans), w')
    ∧ (handler_dispatch env plans w).2 = w'
    ∧ ((handler_dispatch env plans w).1 = Return ()
       ↔ Forall (λ r, is_Return r = true) (outcomes env stored count plans))
    ∧ (∃ sent, executionQueue w' = executionQueue w ++ sent
         ∧ sent ≡ₚ sent_tasks env stored count plans)
    ∧ (∃ published, eventBus w' = eventBus w ++ published
         ∧ published ≡ₚ published_entries env stored count plans)
    ∧ (NoDup (plan_key <$> plans) →
       ∀ i p, plans !! i = Some p →
         plansTable w' !! plan_key p
         = with_status
             (if is_Return (plan_outcome env stored (uuidv4_at env (count + i)) p)
              then PENDING_EXECUTION else ACTIVE) (Date_now env)
           <$> stored !! plan_key p)
    ∧ (∀ k, k ∉ plan_key <$> plans → plansTable w' !! k = stored !! k).
Proof.
  intros stored count.
  destruct (fan_out_closed_form env plans w) as (w' & Hs & _ & _ & Hq & Hb & Hrows & Hoth).
  pose proof (handler_dispatch_result env plans w _ w' Hs) as Hd. cbv zeta in Hd.
  exists w'. split_and!; try done.
  - by rewrite Hd.
  - rewrite Hd, no_rejection.
    subst stored count.
    destruct (decide _) as [Hpos | Hzero]; cbn [fst]; split; intros H;
      first [discriminate | lia | done].
Qed.

(** X3. With a batch size that reads as [n ≥ 1], a run that finds no
    stored plan both ACTIVE and due returns at once and changes
    nothing: nothing is drawn, written, enqueued or published. *)
Theorem scan_with_nothing_due w n :
  JsParse.parseInt (batch_size_setting env) = Some n → 1 ≤ n →
  (∀ k p, plansTable w !! k = Some p → ¬ due (Date_now env / 1000) p) →
  handler env w = (Return (), w).
Proof.
  intros Hn Hpos Hnone. unfold handler. rewrite try_catch_rethrow.
  rewrite (bind_Return _ _ w _ w (handler_query_result env w n Hn Hpos)).
  destruct (filter _ _) as [| q rest] eqn:Hf;
    [change (merge_sort earlier []) with (@nil SavingsPlan); by rewrite take_nil |].
  exfalso.
  assert (Hq : q ∈ filter (due (Date_now env / 1000)) (map_to_list (plansTable w)).*2)
    by (rewrite Hf; by left).
  apply list_elem_of_filter in Hq as [Hdue Hq].
  apply list_elem_of_fmap in Hq as ([k q'] & -> & Hq).
  apply elem_of_map_to_list in Hq. by apply (Hnone k q').
Qed.

End ScannerRuns.

Section ScannerRunExamples.
Import Scanner Dispatch Fixture.

(** The theorem at a batch of a stored plan, a plan whose row is gone and
    another stored plan, with a bus that takes nothing: both stored plans
    are enqueued, around the one that is missing. *)
Lemma fan_out_treats_each_plan_on_its_own_witness :
  let env_down := with_bus (λ _, Some bus_down) env_ok in
  let ghost := plan "dave" "plan-9" ACTIVE 0 in
  NoDup (plan_key <$> [p1; ghost; p2])
  ∧ ∃ w' sent,
      (handler_dispatch env_down [p1; ghost; p2] w0).2 = w'
      ∧ executionQueue w' = sent
      ∧ sent ≡ₚ [task_request env_down p1 "uuid-0"; task_request env_down p2 "uuid-2"]
      ∧ plan_status <$> plansTable w' !! plan_key p2 = Some ACTIVE.
Proof.
  intros env_down ghost.
  assert (Hnd : NoDup (plan_key <$> [p1; ghost; p2])).
  { apply (bool_decide_unpack _). vm_compute. exact I. }
  split; [exact Hnd |].
  destruct (fan_out_treats_each_plan_on_its_own env_down [p1; ghost; p2] w0)
    as (w' & _ & Hd & _ & (sent & Hq & Hsent) & _ & Hrows & _).
  exists w', sent. split; [exact Hd | split; [exact Hq | split; [exact Hsent |]]].
  rewrite (Hrows Hnd 2%nat p2 eq_refl). vm_compute. reflexivity.
Defined.

(** The theorem at a store whose plans are not yet due, or PAUSED. *)
Lemma scan_with_nothing_due_witness :
  JsParse.parseInt (batch_size_setting env_ok) = Some 25
  ∧ 1 ≤ 25
  ∧ (∀ k p, plansTable (world_of [p2; p3]) !! k = Some p → ¬ due (Date_now env_ok / 1000) p)
  ∧ handler env_ok (world_of [p2; p3]) = (Return (), world_of [p2; p3]).
Proof.
  assert (H1 : JsParse.parseInt (batch_size_setting env_ok) = Some 25) by reflexivity.
  assert (H2 : 1 ≤ 25) by lia.
  assert (H3 : ∀ k p, plansTable (world_of [p2; p3]) !! k = Some p
                      → ¬ due (Date_now env_ok / 1000) p).
  { intros k p Hp [Hst Hdue]. cbn in Hp.
    apply lookup_insert_Some in Hp as [[<- <-] | [_ Hp]].
    - vm_compute in Hdue. by apply Hdue.
    - apply lookup_insert_Some in Hp as [[<- <-] | [_ Hp]]; [discriminate Hst |].
      by rewrite lookup_empty in Hp. }
  split; [exact H1 | split; [exact H2 | split; [exact H3 |]]].
  exact (scan_with_nothing_due env_ok (world_of [p2; p3]) 25 H1 H2 H3).
Defined.

End ScannerRunExamples.

Section AcceptedScan.
Import Scanner Dispatch Fixture.
Context (env : Env).

(** An accepted run, plan by plan. *)
Lemma accepted_scan w n :
  JsParse.parseInt (batch_size_setting env) = Some n → 1 ≤ n →
  keys_agree w →
  (∀ req, sendMessage_fault env req = None) →
  (∀ entry, putEvents_fault env entry = None) →
  ∃ items w' published,
    handler_query env w = (Return items, w)
    ∧ handler env w = (Return (), w')
    ∧ (∀ p, p ∈ items →
         plansTable w' !! plan_key p
         = Some (with_status PENDING_EXECUTION (Date_now env) p))
    ∧ (∀ k, k ∉ plan_key <$> items → plansTable w' !! k = plansTable w !! k)
    ∧ eventBus w' = eventBus w ++ published
    ∧ published ≡ₚ expected_entries env (uuidCount w) items
    ∧ keys_agree w'.
Proof.
  intros Hn Hpos Hkeys Hsend Hbus.
  pose proof (handler_query_result env w n Hn Hpos) as Hq.
  destruct (query_selection env w (Z.to_nat n) Hkeys) as (Hsel & Hnd & _ & _).
  set (items := take (Z.to_nat n)
                  (merge_sort earlier
                     (filter (due (Date_now env / 1000)) (map_to_list (plansTable w)).*2)))
    in *.
  assert (Hstored : ∀ p, p ∈ items → is_Some (plansTable w !! plan_key p)).
  { intros p Hp. destruct (Hsel p Hp) as [-> _]. by eexists. }
  destruct (outcomes_accepted env (plansTable w) (uuidCount w) items Hstored Hsend)
    as (_ & Haccepted).
  destruct (Haccepted Hbus) as (Hall & Hpub).
  destruct (fan_out_closed_form env items w)
    as (w' & Hs & _ & _ & _ & (published & Hb & Hperm) & Hrows & Hoth).
  assert (Hmarked : ∀ p, p ∈ items →
            plansTable w' !! plan_key p
            = Some (with_status PENDING_EXECUTION (Date_now env) p)).
  { intros p Hp. pose proof Hp as Hin. apply list_elem_of_lookup_1 in Hp as [i Hi].
    rewrite (Hrows Hnd i p Hi). destruct (Hsel p Hin) as [-> _].
    unfold plan_outcome. destruct (Hstored p Hin) as [row ->].
    by rewrite Hsend, Hbus. }
  assert (Hdispatch : handler_dispatch env items w = (Return (), w')).
  { rewrite (handler_dispatch_result env items w _ w' Hs).
    apply (Forall_impl _ (λ r, is_Return r = true)) in Hall; [| by intros r ->].
    apply no_rejection in Hall. rewrite Hall. by rewrite decide_False by lia. }
  assert (Hrun : handler env w = (Return (), if items is [] then w else w')).
  { unfold handler. rewrite try_catch_rethrow.
    rewrite (bind_Return _ _ w items w Hq).
    destruct items as [| p items']; [done | exact Hdispatch]. }
  assert (Hkeys' : keys_agree (handler env w).2)
    by (eapply scan_step_keys_agree; [apply scan_step_handler | done]).
  rewrite Hrun in Hkeys'. cbn [snd] in Hkeys'.
  destruct items as [| p0 items'] eqn:Hitems.
  - exists [], w, []. split_and!; try done.
    + by intros p ?%elem_of_nil.
    + by rewrite app_nil_r.
  - rewrite <- Hitems in *. clear Hitems.
    exists items, w', published. split_and!; try done.
    by rewrite Hperm, Hpub.
Qed.

(** X4. With a batch size that reads as [n ≥ 1], rows stored under their
    own keys, and a queue and a bus that take what they are sent, the run
    returns normally; every selected plan is left PENDING_EXECUTION with
    the update time of the run and otherwise as it was, every other row is
    untouched, and one EXECUTION_SCHEDULED entry per selected plan is
    published, in the order in which the bus was reached. *)
Theorem accepted_scan_marks_every_selected_plan w n :
  JsParse.parseInt (batch_size_setting env) = Some n → 1 ≤ n →
  keys_agree w →
  (∀ req, sendMessage_fault env req = None) →
  (∀ entry, putEvents_fault env entry = None) →
  ∃ items w' published,
    handler_query env w = (Return items, w)
    ∧ handler env w = (Return (), w')
    ∧ (∀ p, p ∈ items →
         plansTable w' !! plan_key p
         = Some (with_status PENDING_EXECUTION (Date_now env) p))
    ∧ (∀ k, k ∉ plan_key <$> items → plansTable w' !! k = plansTable w !! k)
    ∧ eventBus w' = eventBus w ++ published
    ∧ published ≡ₚ expected_entries env (uuidCount w) items
    ∧ length published = length items
    ∧ Forall (λ entry, DetailType entry = EXECUTION_SCHEDULED) published.
Proof.
  intros Hn Hpos Hkeys Hsend Hbus.
  destruct (accepted_scan w n Hn Hpos Hkeys Hsend Hbus)
    as (items & w' & published & Hq & Hrun & Hmarked & Hoth & Hb & Hperm & _).
  exists items, w', published. split_and!; try done.
  - assert (Hlen : ∀ plans count, length (expected_entries env count plans) = length plans).
    { induction plans as [| p plans IH]; intros count; cbn; [done | by rewrite IH]. }
    by rewrite Hperm, Hlen.
  - assert (Hall : ∀ plans count,
              Forall (λ entry, DetailType entry = EXECUTION_SCHEDULED)
                (expected_entries env count plans)).
    { induction plans as [| p plans IH]; intros count; cbn; constructor; [done | apply IH]. }
    rewrite Hperm. apply Hall.
Qed.

(** X5. When the bus refuses the announcement of a plan whose task the
    queue has already taken, the error is rethrown and the plan is put
    back to ACTIVE, but the task stays on the queue. The row is as due as
    it was before, and processing the plan again enqueues a second task
    for it under a new execution id. *)
Theorem refused_announcement_leaves_the_task_enqueued plan row w e :
  let id0 := uuidv4_at env (uuidCount w) in
  let id1 := uuidv4_at env (S (uuidCount w)) in
  plansTable w !! plan_key plan = Some row →
  sendMessage_fault env (task_request env plan id0) = None →
  putEvents_fault env (scheduled_entry env plan id0) = Some e →
  ∃ w1,
    run (processPlansForExecution env plan) w = (Throw e, w1)
    ∧ executionQueue w1 = executionQueue w ++ [task_request env plan id0]
    ∧ eventBus w1 = eventBus w
    ∧ plansTable w1 !! plan_key plan = Some (with_status ACTIVE (Date_now env) row)
    ∧ (∀ now, due now row → due now (with_status ACTIVE (Date_now env) row))
    ∧ (sendMessage_fault env (task_request env plan id1) = None →
       ∃ r2 w2,
         run (processPlansForExecution env plan) w1 = (r2, w2)
         ∧ executionQueue w2
           = executionQueue w ++ [task_request env plan id0; task_request env plan id1]).
Proof.
  intros id0 id1 Hrow Hsend Hput.
  pose proof (processPlansForExecution_cases env plan w) as Hrun. cbv zeta in Hrun.
  fold id0 in Hrun. rewrite Hrow, Hsend, Hput in Hrun.
  eexists. split; [exact Hrun |].
  assert (Hrow1 : ∀ status, alter (with_status ACTIVE (Date_now env)) (plan_key plan)
            (alter (with_status status (Date_now env)) (plan_key plan) (plansTable w))
            !! plan_key plan = Some (with_status ACTIVE (Date_now env) row)).
  { intros status. by rewrite !lookup_alter_eq, Hrow. }
  split_and!.
  - done.
  - done.
  - apply Hrow1.
  - by intros now [_ Hdue].
  - intros Hsend1. rewrite processPlansForExecution_cases. cbv zeta.
    cbn [plansTable uuidCount set_plansTable set_executionQueue set_uuidCount].
    fold id1. rewrite Hrow1, Hsend1.
    destruct (putEvents_fault env (scheduled_entry env plan id1));
      eexists _, _; (split; [reflexivity |]); cbn;
      by rewrite <- app_assoc.
Qed.

End AcceptedScan.

Section AcceptedScanExamples.
Import Scanner Dispatch Fixture.

(** The theorem at the three-plan store. *)
Lemma accepted_scan_marks_every_selected_plan_witness :
  JsParse.parseInt (batch_size_setting env_ok) = Some 25
  ∧ 1 ≤ 25
  ∧ keys_agree w0
  ∧ (∀ req, sendMessage_fault env_ok req = None)
  ∧ (∀ entry, putEvents_fault env_ok entry = None)
  ∧ ∃ items w' published,
      handler_query env_ok w0 = (Return items, w0)
      ∧ handler env_ok w0 = (Return (), w')
      ∧ (∀ p, p ∈ items →
           plansTable w' !! plan_key p = Some (with_status PENDING_EXECUTION T p))
      ∧ eventBus w' = eventBus w0 ++ published
      ∧ published ≡ₚ expected_entries env_ok (uuidCount w0) items.
Proof.
  assert (H1 : JsParse.parseInt (batch_size_setting env_ok) = Some 25) by reflexivity.
  assert (H2 : 1 ≤ 25) by lia.
  assert (H3 : keys_agree w0) by apply keys_agree_world_of.
  assert (H4 : ∀ req, sendMessage_fault env_ok req = None) by (intros req; reflexivity).
  assert (H5 : ∀ entry, putEvents_fault env_ok entry = None) by (intros entry; reflexivity).
  destruct (accepted_scan_marks_every_selected_plan env_ok w0 25 H1 H2 H3 H4 H5)
    as (items & w' & published & Hq & Hrun & Hmarked & _ & Hbus & Hperm & _).
  split; [exact H1 | split; [exact H2 | split; [exact H3 | split; [exact H4 |]]]].
  split; [exact H5 |].
  exists items, w', published.
  split; [exact Hq | split; [exact Hrun | split; [exact Hmarked |]]].
  split; [exact Hbus | exact Hperm].
Defined.

(** The theorem at a bus that refuses EXECUTION_SCHEDULED. *)
Lemma refused_announcement_leaves_the_task_enqueued_witness :
  let env_down := with_bus (reject_type EXECUTION_SCHEDULED) env_ok in
  plansTable w0 !! plan_key p1 = Some p1
  ∧ sendMessage_fault env_down (task_request env_down p1 "uuid-0") = None
  ∧ putEvents_fault env_down (scheduled_entry env_down p1 "uuid-0") = Some bus_down
  ∧ ∃ w1 r2 w2,
      run (processPlansForExecution env_down p1) w0 = (Throw bus_down, w1)
      ∧ run (processPlansForExecution env_down p1) w1 = (r2, w2)
      ∧ executionQueue w2
        = [task_request env_down p1 "uuid-0"; task_request env_down p1 "uuid-1"].
Proof.
  intros env_down.
  assert (H1 : plansTable w0 !! plan_key p1 = Some p1) by (vm_compute; reflexivity).
  assert (H2 : sendMessage_fault env_down (task_request env_down p1 "uuid-0") = None)
    by reflexivity.
  assert (H3 : putEvents_fault env_down (scheduled_entry env_down p1 "uuid-0") = Some bus_down)
    by reflexivity.
  destruct (refused_announcement_leaves_the_task_enqueued env_down p1 p1 w0 bus_down H1 H2 H3)
    as (w1 & Hrun & _ & _ & _ & _ & Hagain).
  destruct (Hagain eq_refl) as (r2 & w2 & Hrun2 & Hq2).
  split; [exact H1 | split; [exact H2 | split; [exact H3 |]]].
  exists w1, r2, w2. split; [exact Hrun | split; [exact Hrun2 | exact Hq2]].
Defined.

End AcceptedScanExamples.

Section NextExecutionTimeBounds.
Import JsDate Executor.

Lemma TimeClip_Some (t r : Z) : TimeClip t = Some r → r = t.
Proof. unfold TimeClip. destruct (maxTime <? Z.abs t); [done | by intros [= <-]]. Qed.

Lemma supported_cases (frequency : SavingsPlanFrequency) :
  frequency ∈ [DAILY; WEEKLY; BIWEEKLY; MONTHLY] →
  frequency = DAILY ∨ frequency = WEEKLY ∨ frequency = BIWEEKLY ∨ frequency = MONTHLY.
Proof.
  intros H. repeat (apply elem_of_cons in H as [-> | H]); auto.
  by apply elem_of_nil in H.
Qed.

Lemma unsupported_eqb (frequency : SavingsPlanFrequency) :
  frequency ∉ [DAILY; WEEKLY; BIWEEKLY; MONTHLY] →
  String.eqb frequency DAILY = false ∧ String.eqb frequency WEEKLY = false
  ∧ String.eqb frequency BIWEEKLY = false ∧ String.eqb frequency MONTHLY = false.
Proof.
  intros H. split_and!; apply String.eqb_neq; intros ->; apply H.
  - by left.
  - right. by left.
  - do 2 right. by left.
  - do 3 right. by left.
Qed.

Lemma calculateNextExecutionTime_unsupported frequency from :
  frequency ∉ [DAILY; WEEKLY; BIWEEKLY; MONTHLY] →
  calculateNextExecutionTime frequency from
  = Throw (new_Error ("Unsupported frequency: " +:+ frequency)).
Proof.
  intros (H1 & H2 & H3 & H4)%unsupported_eqb.
  unfold calculateNextExecutionTime. by rewrite H1, H2, H3, H4.
Qed.

(** The time the copy of [from] is moved to, before clipping. *)
Lemma calculateNextExecutionTime_moved frequency t :
  frequency ∈ [DAILY; WEEKLY; BIWEEKLY; MONTHLY] →
  ∃ k, 1 ≤ k ≤ 31
    ∧ calculateNextExecutionTime frequency (Some t)
      = Return ((λ r, r / 1000) <$> TimeClip (t + k * msPerDay)).
Proof.
  intros [-> | [-> | [-> | ->]]]%supported_cases.
  - exists 1. split; [lia |]. unfold calculateNextExecutionTime.
    change (String.eqb DAILY DAILY) with true. cbv iota. by rewrite setDate_shift.
  - exists 7. split; [lia |]. unfold calculateNextExecutionTime.
    change (String.eqb WEEKLY DAILY) with false. change (String.eqb WEEKLY WEEKLY) with true.
    cbv iota. by rewrite setDate_shift.
  - exists 14. split; [lia |]. unfold calculateNextExecutionTime.
    change (String.eqb BIWEEKLY DAILY) with false.
    change (String.eqb BIWEEKLY WEEKLY) with false.
    change (String.eqb BIWEEKLY BIWEEKLY) with true.
    cbv iota. by rewrite setDate_shift.
  - exists (DaysInMonth (YearFromTime t) (MonthFromTime t)).
    pose proof (DaysInMonth_bounds (YearFromTime t) (MonthFromTime t) (MonthFromTime_range t)).
    split; [lia |]. destruct (setMonth_next t) as (Hr & _).
    unfold calculateNextExecutionTime.
    change (String.eqb MONTHLY DAILY) with false.
    change (String.eqb MONTHLY WEEKLY) with false.
    change (String.eqb MONTHLY BIWEEKLY) with false.
    change (String.eqb MONTHLY MONTHLY) with true.
    cbv iota. cbn [setMonth getMonth getTime fmap option_fmap option_map mbind option_bind].
    by rewrite Hr.
Qed.

Lemma calculateNextExecutionTime_invalid frequency :
  frequency ∈ [DAILY; WEEKLY; BIWEEKLY; MONTHLY] →
  calculateNextExecutionTime frequency None = Return None.
Proof. by intros [-> | [-> | [-> | ->]]]%supported_cases. Qed.

(** A next execution time, when there is one, is between one and
    thirty-one days after the reference instant. *)
Lemma calculateNextExecutionTime_later frequency t next :
  calculateNextExecutionTime frequency (Some t) = Return (Some next) →
  t / 1000 + 86400 ≤ next ≤ t / 1000 + 2678400.
Proof.
  intros Hnext.
  destruct (decide (frequency ∈ [DAILY; WEEKLY; BIWEEKLY; MONTHLY])) as [Hin | Hout];
    [| by rewrite calculateNextExecutionTime_unsupported in Hnext].
  destruct (calculateNextExecutionTime_moved frequency t Hin) as (k & Hk & Hrun).
  rewrite Hrun in Hnext. injection Hnext as Hnext.
  destruct (TimeClip (t + k * msPerDay)) as [r |] eqn:Hclip; [| done].
  apply TimeClip_Some in Hclip as ->. injection Hnext as <-.
  rewrite seconds_shift. lia.
Qed.

Lemma calculateNextExecutionTime_in_range frequency t :
  frequency ∈ [DAILY; WEEKLY; BIWEEKLY; MONTHLY] →
  Z.abs t + 31 * msPerDay ≤ maxTime →
  ∃ next, calculateNextExecutionTime frequency (Some t) = Return (Some next).
Proof.
  intros Hin Hrange.
  destruct (calculateNextExecutionTime_moved frequency t Hin) as (k & Hk & ->).
  rewrite TimeClip_in_range; [by eexists |]. unfold msPerDay, maxTime in *. lia.
Qed.

(** X6. [calculateNextExecutionTime] on every input. A frequency other
    than the four of the enumeration makes it throw "Unsupported
    frequency: ...", whatever the date. For the four frequencies it
    returns: [NaN] for an invalid date; for a reference instant [t], either
    [NaN] (the moved date left the range of [Date]) or a time between one
    and thirty-one days after [t] in whole seconds, and it is such a time
    whenever [t] is at least 31 days inside the range. *)
Theorem calculateNextExecutionTime_on_every_input frequency :
  (frequency ∉ [DAILY; WEEKLY; BIWEEKLY; MONTHLY] →
   ∀ from, calculateNextExecutionTime frequency from
           = Throw (new_Error ("Unsupported frequency: " +:+ frequency)))
  ∧ (frequency ∈ [DAILY; WEEKLY; BIWEEKLY; MONTHLY] →
     calculateNextExecutionTime frequency None = Return None
     ∧ ∀ t, (calculateNextExecutionTime frequency (Some t) = Return None
             ∨ ∃ next, calculateNextExecutionTime frequency (Some t) = Return (Some next)
                 ∧ t / 1000 + 86400 ≤ next ≤ t / 1000 + 2678400)
            ∧ (Z.abs t + 31 * msPerDay ≤ maxTime →
               calculateNextExecutionTime frequency (Some t) ≠ Return None)).
Proof.
  split.
  - intros Hout from. by apply calculateNextExecutionTime_unsupported.
  - intros Hin. split; [by apply calculateNextExecutionTime_invalid |].
    intros t. split.
    + destruct (calculateNextExecutionTime_moved frequency t Hin) as (k & Hk & Hrun).
      destruct (TimeClip (t + k * msPerDay)) as [r |] eqn:Hclip.
      * right. exists (r / 1000). rewrite Hrun, ?Hclip. split; [done |].
        apply (calculateNextExecutionTime_later frequency). by rewrite Hrun, ?Hclip.
      * left. by rewrite Hrun, ?Hclip.
    + intros Hrange.
      destruct (calculateNextExecutionTime_in_range frequency t Hin Hrange) as (next & ->).
      discriminate.
Qed.

Lemma calculateNextExecutionTime_on_every_input_witness :
  ("YEARLY" ∉ [DAILY; WEEKLY; BIWEEKLY; MONTHLY])
  ∧ MONTHLY ∈ [DAILY; WEEKLY; BIWEEKLY; MONTHLY]
  ∧ calculateNextExecutionTime "YEARLY" (Some (utc 2024 1 31))
    = Throw (new_Error "Unsupported frequency: YEARLY")
  ∧ calculateNextExecutionTime MONTHLY None = Return None
  ∧ calculateNextExecutionTime MONTHLY (Some (utc 2024 1 31)) ≠ Return None.
Proof.
  assert (H1 : "YEARLY" ∉ [DAILY; WEEKLY; BIWEEKLY; MONTHLY]).
  { intros H. repeat (apply elem_of_cons in H as [H | H]; [discriminate H |]).
    by apply elem_of_nil in H. }
  assert (H2 : MONTHLY ∈ [DAILY; WEEKLY; BIWEEKLY; MONTHLY]) by (do 3 right; by left).
  split; [exact H1 | split; [exact H2 |]].
  destruct (calculateNextExecutionTime_on_every_input "YEARLY") as [Hthrow _].
  destruct (calculateNextExecutionTime_on_every_input MONTHLY) as [_ Hret].
  destruct (Hret H2) as [Hnan Ht]. destruct (Ht (utc 2024 1 31)) as [_ Hsome].
  split; [exact (Hthrow H1 _) | split; [exact Hnan |]].
  apply Hsome. vm_compute. discriminate.
Defined.

End NextExecutionTimeBounds.

Section ExecutorPaths.
Import JsDate Executor Fixture.
Context (env : Env).

(** The purchase call of a run on the normal path: with the plan stored
    under its key, the client initialised and EXECUTION_STARTED taken by
    the bus, processing is the call of the exchange client in the world
    that the EXECUTING update and the EXECUTION_STARTED entry have left,
    followed by what is done with the result. *)
Lemma processExecutionEvent_call record w plan client :
  let event := body record in
  let key := (ev_userId event, ev_planId event) in
  let started := event_entry env EXECUTION_STARTED (started_detail plan event) in
  let w_call :=
    set_eventBus (λ b, b ++ [started])
      (set_plansTable (alter (with_status EXECUTING (Date_now env)) key) w) in
  js_ge (ev_attemptCount event) (JsParse.parseInt (max_retries_setting env)) = false →
  plansTable w !! key = Some plan →
  plan_key plan = key →
  exchangeClient w = Some client →
  putEvents_fault env started = None →
  processExecutionEvent env record w
  = match ExchangeClient.purchaseBitcoin env client (purchase_request plan event) w_call with
    | (Return purchaseResult, w_ret) => record_purchase env plan event purchaseResult w_ret
    | (Throw e, w_ret) => (Throw e, w_ret)
    end.
Proof.
  intros event key started w_call Hnormal Hplan Hkey Hclient Hstarted.
  pose proof (processExecutionEvent_normal env record w plan Hnormal Hplan Hkey) as Hrun.
  cbv zeta in Hrun. fold event started in Hrun. rewrite Hstarted, Hclient, Hkey in Hrun.
  exact Hrun.
Qed.

(** [processExecutionEvent] on the normal path once that call has
    returned [result], the transaction id being new. *)
Lemma processExecutionEvent_purchased record w plan client result w_ret :
  let event := body record in
  let key := (ev_userId event, ev_planId event) in
  let now := Date_now env in
  let started := event_entry env EXECUTION_STARTED (started_detail plan event) in
  let w_call :=
    set_eventBus (λ b, b ++ [started])
      (set_plansTable (alter (with_status EXECUTING now) key) w) in
  js_ge (ev_attemptCount event) (JsParse.parseInt (max_retries_setting env)) = false →
  plansTable w !! key = Some plan →
  plan_key plan = key →
  exchangeClient w = Some client →
  putEvents_fault env started = None →
  transactionsTable w !! (plan_userId plan, uuidv4_at env (uuidCount w)) = None →
  ExchangeClient.purchaseBitcoin env client (purchase_request plan event) w_call
  = (Return result, w_ret) →
  ∃ w4,
    let transaction :=
      purchase_transaction env plan event result (uuidv4_at env (uuidCount w)) in
    plansTable w4 = alter (with_status EXECUTING now) key (plansTable w)
    ∧ transactionsTable w4 = <[tx_key transaction := transaction]> (transactionsTable w)
    ∧ eventBus w4 = eventBus w ++ [started]
    ∧ processExecutionEvent env record w =
      if res_success result then
        match calculateNextExecutionTime (plan_frequency plan) (new_Date env) with
        | Throw e => (Throw e, w4)
        | Return None => (Throw (ValidationException "NaN is not a number attribute"), w4)
        | Return (Some next) =>
            let entry := event_entry env EXECUTION_COMPLETED
                           (completed_detail plan event transaction (Some next)) in
            let w5 := set_plansTable (alter (with_schedule ACTIVE next now) key) w4 in
            match putEvents_fault env entry with
            | Some e => (Throw e, w5)
            | None => (Return (), set_eventBus (λ b, b ++ [entry]) w5)
            end
        end
      else
        let entry := event_entry env EXECUTION_FAILED
                       (failed_detail plan event transaction result) in
        let w5 := set_plansTable (alter (with_status FAILED now) key) w4 in
        match putEvents_fault env entry with
        | Some e => (Throw e, w5)
        | None =>
            (Throw (new_Error ("Purchase failed: "
                      +:+ default "undefined" (res_errorMessage result))),
             set_eventBus (λ b, b ++ [entry]) w5)
        end.
Proof.
  intros event key now started w_call Hnormal Hplan Hkey Hclient Hstarted Hfresh Hcall.
  pose proof (processExecutionEvent_call record w plan client
                Hnormal Hplan Hkey Hclient Hstarted) as Hrun.
  cbv zeta in Hrun. fold event key now started w_call in Hrun. rewrite Hcall in Hrun.
  destruct (purchaseBitcoin_frame _ _ _ _ _ _ Hcall) as (Hp3 & Ht3 & _ & Hb3 & Hu3 & _ & _).
  assert (Hrow3 : plansTable w_ret !! plan_key plan
                  = Some (with_status EXECUTING (Date_now env) plan)).
  { rewrite Hp3, Hkey. unfold w_call. cbn [plansTable set_eventBus set_plansTable].
    by rewrite lookup_alter_eq, Hplan. }
  rewrite (record_purchase_cases env plan event result w_ret _ Hrow3) in Hrun.
  cbv zeta in Hrun.
  rewrite Hu3 in Hrun. cbn [uuidCount set_eventBus set_plansTable w_call] in Hrun.
  rewrite Ht3 in Hrun. cbn [transactionsTable set_eventBus set_plansTable w_call] in Hrun.
  set (transaction :=
         purchase_transaction env plan event result (uuidv4_at env (uuidCount w))) in *.
  assert (Hfresh' : transactionsTable w !! tx_key transaction = None) by done.
  rewrite Hfresh', Hkey in Hrun. fold key in Hrun.
  exists (set_transactionsTable (<[tx_key transaction := transaction]>) (set_uuidCount S w_ret)).
  cbv zeta. split_and!.
  - cbn. by rewrite Hp3.
  - cbn. by rewrite Ht3.
  - cbn. by rewrite Hb3.
  - exact Hrun.
Qed.

(** X7. On the normal path, with the plan stored under its key, a
    supported frequency, a clock at least 31 days inside the range of
    [Date], the client initialised, a bus that takes the events and a
    transaction id the store has not seen, processing is the call of the
    exchange client in the world [w_call] that the EXECUTING update and
    the EXECUTION_STARTED entry have left, followed by what is done with
    the result; that call returns a result. If the result of that call
    has [success] true, processing returns and the task is acknowledged:
    the plan is ACTIVE again with the next execution time computed from
    the clock (not from the time it was due), which is at least a day
    ahead, so that the plan is not due at the time of the run; exactly
    one row, COMPLETED, was added to the transactions, and
    EXECUTION_STARTED and then EXECUTION_COMPLETED were published. *)
Theorem successful_purchase_reschedules_the_plan record w plan client :
  let event := body record in
  let key := (ev_userId event, ev_planId event) in
  let now := Date_now env in
  let started := event_entry env EXECUTION_STARTED (started_detail plan event) in
  let w_call :=
    set_eventBus (λ b, b ++ [started])
      (set_plansTable (alter (with_status EXECUTING now) key) w) in
  js_ge (ev_attemptCount event) (JsParse.parseInt (max_retries_setting env)) = false →
  plansTable w !! key = Some plan →
  plan_key plan = key →
  exchangeClient w = Some client →
  (∀ entry, putEvents_fault env entry = None) →
  transactionsTable w !! (plan_userId plan, uuidv4_at env (uuidCount w)) = None →
  plan_frequency plan ∈ [DAILY; WEEKLY; BIWEEKLY; MONTHLY] →
  Z.abs now + 31 * msPerDay ≤ maxTime →
  processExecutionEvent env record w
  = match ExchangeClient.purchaseBitcoin env client (purchase_request plan event) w_call with
    | (Return purchaseResult, w_ret) => record_purchase env plan event purchaseResult w_ret
    | (Throw e, w_ret) => (Throw e, w_ret)
    end
  ∧ (∃ result w_ret,
       ExchangeClient.purchaseBitcoin env client (purchase_request plan event) w_call
       = (Return result, w_ret))
  ∧ ∃ next,
      calculateNextExecutionTime (plan_frequency plan) (Some now) = Return (Some next)
      ∧ now / 1000 + 86400 ≤ next ≤ now / 1000 + 2678400
      ∧ ∀ result w_ret,
          ExchangeClient.purchaseBitcoin env client (purchase_request plan event) w_call
          = (Return result, w_ret) →
          res_success result = true →
          let transaction :=
            purchase_transaction env plan event result (uuidv4_at env (uuidCount w)) in
          let completed := event_entry env EXECUTION_COMPLETED
                             (completed_detail plan event transaction (Some next)) in
          ∃ w',
            processExecutionEvent env record w = (Return (), w')
            ∧ process_records env [record] [] w = (Return [], w')
            ∧ plansTable w' !! key = Some (with_schedule ACTIVE next now plan)
            ∧ ¬ Scanner.due (now / 1000) (with_schedule ACTIVE next now plan)
            ∧ transactionsTable w'
              = <[tx_key transaction := transaction]> (transactionsTable w)
            ∧ transactionsTable w !! tx_key transaction = None
            ∧ tx_status transaction = TX_COMPLETED
            ∧ eventBus w' = eventBus w ++ [started; completed].
Proof.
  intros event key now started w_call Hnormal Hplan Hkey Hclient Hbus Hfresh Hfreq Hrange.
  split; [by apply processExecutionEvent_call |].
  split; [apply purchaseBitcoin_returns |].
  destruct (calculateNextExecutionTime_in_range (plan_frequency plan) now Hfreq Hrange)
    as (next & Hnext).
  pose proof (calculateNextExecutionTime_later _ _ _ Hnext) as Hlater.
  assert (Hclock : new_Date env = Some now).
  { apply TimeClip_in_range. unfold msPerDay in Hrange. fold now. lia. }
  exists next. split; [exact Hnext | split; [exact Hlater |]].
  intros result w_ret Hcall Hok transaction completed.
  destruct (processExecutionEvent_purchased record w plan client result w_ret
              Hnormal Hplan Hkey Hclient (Hbus _) Hfresh Hcall)
    as (w4 & Hp4 & Ht4 & Hb4 & Hrun).
  fold event key now started in Hp4, Ht4, Hb4, Hrun.
  rewrite Hok, Hclock, Hnext in Hrun. cbv zeta in Hrun. rewrite Hbus in Hrun.
  eexists. split_and!.
  - exact Hrun.
  - apply (process_one_record env record w (Return ())). exact Hrun.
  - cbn. rewrite Hp4, !lookup_alter_eq, Hplan. done.
  - intros [_ Hdue]. cbn in Hdue. lia.
  - cbn. exact Ht4.
  - done.
  - cbn. by rewrite Hok.
  - cbn. rewrite Hb4. by rewrite <- app_assoc.
Qed.

(** X8. A stored plan whose frequency is none of the four reaches the
    exchange all the same. On the normal path, with the client
    initialised, a bus that takes the events and a new transaction id,
    processing is the call of the exchange client in the world [w_call]
    that the EXECUTING update and the EXECUTION_STARTED entry have left,
    followed by what is done with the result; that call returns a
    result. If the result of that call has [success] true, the purchase
    is recorded as a COMPLETED transaction, and only then does the
    computation of the next execution time throw
    "Unsupported frequency: ...": the task is reported as failed, the
    plan is left EXECUTING with its schedule unchanged, and no
    completion event is published. *)
Theorem unsupported_frequency_fails_after_the_purchase record w plan client :
  let event := body record in
  let key := (ev_userId event, ev_planId event) in
  let now := Date_now env in
  let started := event_entry env EXECUTION_STARTED (started_detail plan event) in
  let w_call :=
    set_eventBus (λ b, b ++ [started])
      (set_plansTable (alter (with_status EXECUTING now) key) w) in
  js_ge (ev_attemptCount event) (JsParse.parseInt (max_retries_setting env)) = false →
  plansTable w !! key = Some plan →
  plan_key plan = key →
  exchangeClient w = Some client →
  (∀ entry, putEvents_fault env entry = None) →
  transactionsTable w !! (plan_userId plan, uuidv4_at env (uuidCount w)) = None →
  plan_frequency plan ∉ [DAILY; WEEKLY; BIWEEKLY; MONTHLY] →
  processExecutionEvent env record w
  = match ExchangeClient.purchaseBitcoin env client (purchase_request plan event) w_call with
    | (Return purchaseResult, w_ret) => record_purchase env plan event purchaseResult w_ret
    | (Throw e, w_ret) => (Throw e, w_ret)
    end
  ∧ (∃ result w_ret,
       ExchangeClient.purchaseBitcoin env client (purchase_request plan event) w_call
       = (Return result, w_ret))
  ∧ ∀ result w_ret,
      ExchangeClient.purchaseBitcoin env client (purchase_request plan event) w_call
      = (Return result, w_ret) →
      res_success result = true →
      let transaction :=
        purchase_transaction env plan event result (uuidv4_at env (uuidCount w)) in
      ∃ w',
        processExecutionEvent env record w
        = (Throw (new_Error ("Unsupported frequency: " +:+ plan_frequency plan)), w')
        ∧ process_records env [record] [] w = (Return [messageId record], w')
        ∧ plansTable w' !! key = Some (with_status EXECUTING now plan)
        ∧ transactionsTable w' = <[tx_key transaction := transaction]> (transactionsTable w)
        ∧ transactionsTable w !! tx_key transaction = None
        ∧ tx_status transaction = TX_COMPLETED
        ∧ eventBus w' = eventBus w ++ [started].
Proof.
  intros event key now started w_call Hnormal Hplan Hkey Hclient Hbus Hfresh Hfreq.
  split; [by apply processExecutionEvent_call |].
  split; [apply purchaseBitcoin_returns |].
  intros result w_ret Hcall Hok transaction.
  destruct (processExecutionEvent_purchased record w plan client result w_ret
              Hnormal Hplan Hkey Hclient (Hbus _) Hfresh Hcall)
    as (w4 & Hp4 & Ht4 & Hb4 & Hrun).
  fold event key now started in Hp4, Ht4, Hb4, Hrun.
  rewrite Hok, (calculateNextExecutionTime_unsupported _ _ Hfreq) in Hrun.
  exists w4. split_and!.
  - exact Hrun.
  - eapply (process_one_record env record w (Throw _)). exact Hrun.
  - rewrite Hp4, lookup_alter_eq, Hplan. done.
  - exact Ht4.
  - done.
  - cbn. by rewrite Hok.
  - exact Hb4.
Qed.

End ExecutorPaths.

Section ExecutorPathExamples.
Import JsDate Executor Fixture.

Lemma succeeding_exchange_succeeds client request w result w' :
  ExchangeClient.purchaseBitcoin env_ok client request w = (Return result, w') →
  res_success result = true.
Proof. rewrite purchaseBitcoin_cases. cbv zeta. by intros [= <- <-]. Qed.

(** The theorem for the weekly plan of the three-plan store. *)
Lemma successful_purchase_reschedules_the_plan_witness :
  js_ge (ev_attemptCount (body (task p1 0)))
    (JsParse.parseInt (max_retries_setting env_ok)) = false
  ∧ plansTable w0 !! plan_key p1 = Some p1
  ∧ exchangeClient w0 = Some demo_client
  ∧ (∀ entry, putEvents_fault env_ok entry = None)
  ∧ transactionsTable w0 !! (plan_userId p1, uuidv4_at env_ok (uuidCount w0)) = None
  ∧ plan_frequency p1 ∈ [DAILY; WEEKLY; BIWEEKLY; MONTHLY]
  ∧ Z.abs (Date_now env_ok) + 31 * msPerDay ≤ maxTime
  ∧ ∃ next w',
      processExecutionEvent env_ok (task p1 0) w0 = (Return (), w')
      ∧ plansTable w' !! plan_key p1 = Some (with_schedule ACTIVE next T p1)
      ∧ T / 1000 + 86400 ≤ next.
Proof.
  assert (H1 : js_ge (ev_attemptCount (body (task p1 0)))
                 (JsParse.parseInt (max_retries_setting env_ok)) = false) by reflexivity.
  assert (H2 : plansTable w0 !! plan_key p1 = Some p1) by (vm_compute; reflexivity).
  assert (H3 : plan_key p1 = plan_key p1) by reflexivity.
  assert (H4 : exchangeClient w0 = Some demo_client) by reflexivity.
  assert (H5 : ∀ entry, putEvents_fault env_ok entry = None) by (intros; reflexivity).
  assert (H6 : transactionsTable w0 !! (plan_userId p1, uuidv4_at env_ok (uuidCount w0)) = None)
    by (vm_compute; reflexivity).
  assert (H7 : plan_frequency p1 ∈ [DAILY; WEEKLY; BIWEEKLY; MONTHLY]) by (right; by left).
  assert (H8 : Z.abs (Date_now env_ok) + 31 * msPerDay ≤ maxTime) by (vm_compute; discriminate).
  destruct (successful_purchase_reschedules_the_plan env_ok (task p1 0) w0 p1 demo_client
              H1 H2 H3 H4 H5 H6 H7 H8)
    as (_ & (result & w_ret & Hcall) & next & _ & [Hlater _] & Hdone).
  destruct (Hdone result w_ret Hcall (succeeding_exchange_succeeds _ _ _ _ _ Hcall))
    as (w' & Hrun & _ & Hrow & _).
  split; [exact H1 | split; [exact H2 | split; [exact H4 | split; [exact H5 |]]]].
  split; [exact H6 | split; [exact H7 | split; [exact H8 |]]].
  exists next, w'. split; [exact Hrun | split; [exact Hrow | exact Hlater]].
Defined.

(** The theorem for a plan whose stored frequency is ["YEARLY"]. *)
Lemma unsupported_frequency_fails_after_the_purchase_witness :
  let yearly := mkSavingsPlan "erin" "plan-5" 100 "YEARLY" "bank-account" ACTIVE 0 0 None 0 0 in
  js_ge (ev_attemptCount (body (task yearly 0)))
    (JsParse.parseInt (max_retries_setting env_ok)) = false
  ∧ plansTable (world_of [yearly]) !! plan_key yearly = Some yearly
  ∧ exchangeClient (world_of [yearly]) = Some demo_client
  ∧ (∀ entry, putEvents_fault env_ok entry = None)
  ∧ transactionsTable (world_of [yearly])
      !! (plan_userId yearly, uuidv4_at env_ok (uuidCount (world_of [yearly]))) = None
  ∧ (plan_frequency yearly ∉ [DAILY; WEEKLY; BIWEEKLY; MONTHLY])
  ∧ ∃ w',
      processExecutionEvent env_ok (task yearly 0) (world_of [yearly])
      = (Throw (new_Error "Unsupported frequency: YEARLY"), w')
      ∧ plansTable w' !! plan_key yearly = Some (with_status EXECUTING T yearly)
      ∧ tx_status <$> transactionsTable w' !! ("erin", "uuid-0") = Some TX_COMPLETED.
Proof.
  intros yearly.
  assert (H1 : js_ge (ev_attemptCount (body (task yearly 0)))
                 (JsParse.parseInt (max_retries_setting env_ok)) = false) by reflexivity.
  assert (H2 : plansTable (world_of [yearly]) !! plan_key yearly = Some yearly)
    by (vm_compute; reflexivity).
  assert (H3 : plan_key yearly = plan_key yearly) by reflexivity.
  assert (H4 : exchangeClient (world_of [yearly]) = Some demo_client) by reflexivity.
  assert (H5 : ∀ entry, putEvents_fault env_ok entry = None) by (intros; reflexivity).
  assert (H6 : transactionsTable (world_of [yearly])
                 !! (plan_userId yearly, uuidv4_at env_ok (uuidCount (world_of [yearly]))) = None)
    by (vm_compute; reflexivity).
  assert (H7 : plan_frequency yearly ∉ [DAILY; WEEKLY; BIWEEKLY; MONTHLY]).
  { intros H. repeat (apply elem_of_cons in H as [H | H]; [discriminate H |]).
    by apply elem_of_nil in H. }
  destruct (unsupported_frequency_fails_after_the_purchase env_ok (task yearly 0)
              (world_of [yearly]) yearly demo_client H1 H2 H3 H4 H5 H6 H7)
    as (_ & (result & w_ret & Hcall) & Hdone).
  destruct (Hdone result w_ret Hcall (succeeding_exchange_succeeds _ _ _ _ _ Hcall))
    as (w' & Hrun & _ & Hrow & Htx & _ & Hst & _).
  split; [exact H1 | split; [exact H2 | split; [exact H4 | split; [exact H5 |]]]].
  split; [exact H6 | split; [exact H7 |]].
  exists w'. split; [exact Hrun | split; [exact Hrow |]].
  rewrite Htx. cbn [plan_userId yearly uuidCount world_of].
  change (uuidv4_at env_ok 0) with "uuid-0".
  match goal with |- _ <$> <[?k := ?t]> _ !! _ = _ =>
    change k with ("erin", "uuid-0"); rewrite (lookup_insert_eq _ ("erin", "uuid-0") t)
  end.
  cbn [fmap option_fmap option_map]. f_equal. exact Hst.
Defined.

End ExecutorPathExamples.


(* ===================================================================== *)
(** * The Executor's handler *)
(* ===================================================================== *)

(** A frame rule for the Executor: a graded relation on worlds that the
    primitive effects keep is kept by the handlers built from them. The
    grade counts the calls to [put] on the transactions. *)
Section ExecutorFrame.
Import Executor.
Context (env : Env) (G : nat → World → World → Prop).
Hypothesis G_refl : ∀ w, G 0 w w.
Hypothesis G_trans : ∀ n m w1 w2 w3, G n w1 w2 → G m w2 w3 → G (n + m) w1 w3.
Hypothesis G_weaken : ∀ n m w w', (n ≤ m)%nat → G n w w' → G m w w'.
Hypothesis G_plans_update : ∀ key set, keeps (G 0) (plans_update key attribute_exists set).
Hypothesis G_transactions_put :
  ∀ item, keeps (G 1) (transactions_put item attribute_not_exists).
Hypothesis G_putEvents : ∀ entry, keeps (G 0) (eventBridge_putEvents env entry).
Hypothesis G_uuidv4 : keeps (G 0) (uuidv4 env).
Hypothesis G_random : keeps (G 0) (Math_random env).
Hypothesis G_client :
  ∀ client w, exchangeClient w = None → G 0 w (set_exchangeClient (Some client) w).

Lemma graded_ret {A} (a : A) : keeps (G 0) (mret a).
Proof. intros w. apply G_refl. Qed.

Lemma graded_throw {A} e : keeps (G 0) (@throw A e).
Proof. intros w. apply G_refl. Qed.

Lemma graded_bind {A B} n k (m : M A) (f : A → M B) :
  keeps (G n) m → (∀ a, keeps (G k) (f a)) → keeps (G (n + k)) (m ≫= f).
Proof.
  intros Hm Hf w. unfold mbind, M_bind, bind.
  pose proof (Hm w) as Hw. destruct (m w) as [[a | e] w1].
  - eapply G_trans; [exact Hw | apply Hf].
  - cbn in *. eapply G_weaken; [| exact Hw]. lia.
Qed.

Lemma graded_try_catch {A} n k (m : M A) (h : Thrown → M A) :
  keeps (G n) m → (∀ e, keeps (G k) (h e)) → keeps (G (n + k)) (try_catch m h).
Proof.
  intros Hm Hh w. unfold try_catch.
  pose proof (Hm w) as Hw. destruct (m w) as [[a | e] w1].
  - cbn in *. eapply G_weaken; [| exact Hw]. lia.
  - eapply G_trans; [exact Hw | apply Hh].
Qed.

Lemma frame_getSavingsPlan userId planId : keeps (G 0) (getSavingsPlan userId planId).
Proof.
  intros w. unfold getSavingsPlan, mbind, M_bind, bind, plans_get.
  destruct (plansTable w !! _); apply G_refl.
Qed.

Lemma frame_the_exchangeClient : keeps (G 0) the_exchangeClient.
Proof. intros w. unfold the_exchangeClient. destruct (exchangeClient w); apply G_refl. Qed.

Lemma frame_purchaseBitcoin client request :
  keeps (G 0) (ExchangeClient.purchaseBitcoin env client request).
Proof.
  unfold ExchangeClient.purchaseBitcoin.
  apply (graded_try_catch 0 0); [| intros; apply graded_ret].
  unfold ExchangeClient.purchase_try.
  apply (graded_bind 0 0); [exact G_random | intros _latency].
  apply (graded_bind 0 0); [exact G_random | intros failure].
  destruct (ExchangeClient.Qltb _ _); [apply graded_throw |].
  apply (graded_bind 0 0); [exact G_random | intros price].
  apply (graded_bind 0 0); [exact G_random | intros suffix]. apply graded_ret.
Qed.

Lemma frame_handleMaxRetries event : keeps (G 1) (handleMaxRetries env event).
Proof.
  unfold handleMaxRetries.
  apply (graded_try_catch 1 0); [| intros; apply graded_throw].
  apply (graded_bind 0 1); [apply frame_getSavingsPlan | intros plan].
  apply (graded_bind 0 1); [apply G_plans_update | intros _].
  apply (graded_bind 0 1); [exact G_uuidv4 | intros transactionId].
  apply (graded_bind 1 0); [apply G_transactions_put | intros _; apply G_putEvents].
Qed.

Lemma frame_record_purchase plan event result :
  keeps (G 1) (record_purchase env plan event result).
Proof.
  unfold record_purchase.
  apply (graded_bind 0 1); [exact G_uuidv4 | intros transactionId].
  apply (graded_bind 1 0); [apply G_transactions_put | intros _].
  destruct (res_success result).
  - unfold on_purchase_success.
    destruct (calculateNextExecutionTime _ _) as [[next |] | e]; [| | apply graded_throw].
    + apply (graded_bind 0 0); [apply G_plans_update | intros _; apply G_putEvents].
    + apply (graded_bind 0 0); [apply graded_throw | intros _; apply G_putEvents].
  - unfold on_purchase_failure.
    apply (graded_bind 0 0); [apply G_plans_update | intros _].
    apply (graded_bind 0 0); [apply G_putEvents | intros _; apply graded_throw].
Qed.

Lemma frame_processExecutionEvent record : keeps (G 1) (processExecutionEvent env record).
Proof.
  unfold processExecutionEvent.
  apply (graded_try_catch 1 0); [| intros; apply graded_throw].
  destruct (js_ge _ _); [apply frame_handleMaxRetries |].
  apply (graded_bind 0 1); [apply frame_getSavingsPlan | intros plan].
  apply (graded_bind 0 1); [apply G_plans_update | intros _].
  apply (graded_bind 0 1); [apply G_putEvents | intros _].
  apply (graded_bind 0 1); [apply frame_the_exchangeClient | intros client].
  apply (graded_bind 0 1); [apply frame_purchaseBitcoin | intros result].
  apply frame_record_purchase.
Qed.

Lemma frame_process_records records failures :
  keeps (G (length records)) (process_records env records failures).
Proof.
  revert failures. induction records as [| record rest IH]; intros failures.
  - apply graded_ret.
  - cbn [process_records].
    apply (graded_bind 1 (length rest)); [| intros failures'; apply IH].
    apply (graded_try_catch 1 0); [| intros; apply graded_ret].
    apply (graded_bind 1 0); [apply frame_processExecutionEvent | intros; apply graded_ret].
Qed.

Lemma frame_init_exchangeClient : keeps (G 0) (init_exchangeClient env).
Proof.
  intros w. unfold init_exchangeClient.
  destruct (exchangeClient w) as [client |] eqn:Hclient; [apply G_refl |].
  unfold ExchangeClient.createFromSecrets, try_catch.
  destruct (ExchangeClient.load_config _ _ _) as [config | e]; cbn.
  - by apply G_client.
  - destruct (String.eqb _ _); cbn; [by apply G_client | apply G_refl].
Qed.

Lemma frame_handler records : keeps (G (length records)) (handler env records).
Proof.
  unfold handler.
  apply (graded_bind 0 (length records)); [apply frame_init_exchangeClient | intros _].
  apply frame_process_records.
Qed.

End ExecutorFrame.

Section ExecutorBatch.
Import Executor Batch Fixture.
Context (env : Env).

Lemma failed_ids_cons record records (r : Completion unit) results :
  failed_ids (record :: records) (r :: results)
  = (if is_Return r then [] else [messageId record]) ++ failed_ids records results.
Proof.
  unfold failed_ids. cbn [zip zip_with]. rewrite filter_cons. unfold is_Throw.
  destruct r as [a | e]; cbn; [by rewrite decide_False | by rewrite decide_True].
Qed.

Lemma failed_ids_sublist records results :
  length results = length records →
  failed_ids records results `sublist_of` (messageId <$> records).
Proof.
  intros Hlen. unfold failed_ids.
  rewrite <- (fst_zip records results) at 2 by lia.
  rewrite <- list_fmap_compose. apply fmap_sublist, sublist_filter.
Qed.

Lemma failed_ids_nil records results :
  length results = length records →
  failed_ids records results = [] ↔ Forall (λ r, is_Return r = true) results.
Proof.
  revert results. induction records as [| record records IH]; intros [| r results] Hlen;
    try done.
  rewrite failed_ids_cons, Forall_cons. cbn in Hlen.
  destruct r as [a | e]; cbn.
  - rewrite IH by lia. split; [by intros ? | by intros [_ ?]].
  - split; [done | by intros [? _]].
Qed.

(** The loop over the records processes them in turn, in delivery
    order, and collects the rejected records. *)
Lemma process_records_closed_form records failures w :
  ∃ results w',
    in_turn (processExecutionEvent env <$> records) w = (Return results, w')
    ∧ length results = length records
    ∧ process_records env records failures w
      = (Return (failures ++ failed_ids records results), w').
Proof.
  revert failures w. induction records as [| record records IH]; intros failures w.
  - exists [], w. cbn. by rewrite app_nil_r.
  - destruct (processExecutionEvent env record w) as [[[] | e] w1] eqn:Hrun.
    + destruct (IH failures w1) as (rs & w' & Hs & Hlen & Hrest).
      exists (Return () :: rs), w'. split_and!.
      * cbn [fmap list_fmap]. by apply in_turn_cons with w1.
      * cbn. lia.
      * cbn [process_records]. rewrite failed_ids_cons. cbn [is_Return app].
        erewrite bind_Return; [exact Hrest |].
        apply try_catch_Return. by erewrite bind_Return.
    + destruct (IH (failures ++ [messageId record]) w1) as (rs & w' & Hs & Hlen & Hrest).
      exists (Throw e :: rs), w'. split_and!.
      * cbn [fmap list_fmap]. by apply in_turn_cons with w1.
      * cbn. lia.
      * cbn [process_records]. rewrite failed_ids_cons. cbn [is_Return].
        rewrite app_assoc.
        erewrite bind_Return; [exact Hrest |].
        erewrite try_catch_Throw; [done |]. by apply bind_Throw.
Qed.

(** X9. The Executor's loop never throws and skips no record. Every
    record of the batch is processed, each in the world the records before
    it left, whatever happened to them; the batch response lists the
    message ids of exactly the records whose processing threw, in
    delivery order; it is empty exactly when every record was processed
    without an error. With the client already initialised, this is the
    result of the handler. *)
Theorem batch_response_lists_the_rejected_records records w :
  ∃ results w',
    in_turn (processExecutionEvent env <$> records) w = (Return results, w')
    ∧ length results = length records
    ∧ process_records env records [] w = (Return (failed_ids records results), w')
    ∧ failed_ids records results `sublist_of` (messageId <$> records)
    ∧ (failed_ids records results = [] ↔ Forall (λ r, is_Return r = true) results)
    ∧ (∀ client, exchangeClient w = Some client →
       handler env records w = (Return (failed_ids records results), w')).
Proof.
  destruct (process_records_closed_form records [] w) as (results & w' & Hs & Hlen & Hrun).
  exists results, w'. split_and!; try done.
  - by apply failed_ids_sublist.
  - by apply failed_ids_nil.
  - intros client Hclient. unfold handler.
    erewrite bind_Return; [exact Hrun |].
    unfold init_exchangeClient. by rewrite Hclient.
Qed.

Lemma createFromSecrets_cases secretId stage w :
  ExchangeClient.createFromSecrets env secretId stage w =
  match ExchangeClient.load_config env secretId stage with
  | Return config => (Return (mkClient config), w)
  | Throw e =>
      if String.eqb stage "dev"
      then (Return (mkClient ExchangeClient.demo_config), w)
      else (Throw e, w)
  end.
Proof.
  unfold ExchangeClient.createFromSecrets, try_catch.
  destruct (ExchangeClient.load_config _ _ _); [done |]. cbn. by destruct (String.eqb _ _).
Qed.

(** X10. The handler rejects a batch as a whole in one case only: the
    client is not initialised yet, the credentials cannot be loaded, and
    the stage is not ['dev']. It then throws the error of the failed load
    before any record is looked at, and changes nothing. *)
Theorem handler_throws_only_at_start_up records w e w' :
  handler env records w = (Throw e, w')
  ↔ exchangeClient w = None
    ∧ STAGE env ≠ "dev"
    ∧ ExchangeClient.load_config env (EXCHANGE_API_SECRET_ID env) (STAGE env) = Throw e
    ∧ w' = w.
Proof.
  unfold handler, mbind, M_bind, bind, init_exchangeClient.
  rewrite createFromSecrets_cases. split.
  - destruct (exchangeClient w) as [client |] eqn:Hclient.
    { destruct (process_records_closed_form records [] w) as (rs & w1 & _ & _ & ->). done. }
    destruct (ExchangeClient.load_config _ _ _) as [config | e0].
    { destruct (process_records_closed_form records []
                  (set_exchangeClient (Some (mkClient config)) w)) as (rs & w1 & _ & _ & ->).
      done. }
    destruct (String.eqb_spec (STAGE env) "dev") as [Hdev | Hdev].
    { destruct (process_records_closed_form records []
                  (set_exchangeClient (Some (mkClient ExchangeClient.demo_config)) w))
        as (rs & w1 & _ & _ & ->). done. }
    by intros [= -> ->].
  - intros (-> & Hdev & -> & ->). by destruct (String.eqb_spec (STAGE env) "dev").
Qed.

Lemma quiet_step_refl w : quiet_step w w.
Proof. unfold quiet_step. by split_and!. Qed.

Lemma quiet_step_trans w1 w2 w3 : quiet_step w1 w2 → quiet_step w2 w3 → quiet_step w1 w3.
Proof.
  intros (Hq1 & Hb1 & Hc1 & Hd1 & Hu1 & Hr1) (Hq2 & Hb2 & Hc2 & Hd2 & Hu2 & Hr2).
  unfold quiet_step. split_and!.
  - congruence.
  - by etrans.
  - intros client Hc. by apply Hc2, Hc1.
  - intros k. by rewrite Hd2, Hd1.
  - lia.
  - lia.
Qed.

(** X11. Whatever the batch and the answers of the collaborators, the
    Executor sends nothing to the execution queue (a task is never
    enqueued again, with a higher attempt count or otherwise), only
    appends to the bus, neither adds nor removes a plan, and never
    replaces or drops a client that is initialised. *)
Theorem executor_never_enqueues records w :
  let w' := (handler env records w).2 in
  executionQueue w' = executionQueue w
  ∧ eventBus w `prefix_of` eventBus w'
  ∧ (∀ client, exchangeClient w = Some client → exchangeClient w' = Some client)
  ∧ (∀ k, plansTable w' !! k = None ↔ plansTable w !! k = None)
  ∧ (uuidCount w ≤ uuidCount w')%nat
  ∧ (randomCount w ≤ randomCount w')%nat.
Proof.
  intros w'. subst w'. revert w. change (keeps quiet_step (handler env records)).
  apply (frame_handler env (λ _, quiet_step)).
  - apply quiet_step_refl.
  - intros _ _. apply quiet_step_trans.
  - done.
  - intros key set w. unfold plans_update. destruct (attribute_exists _); [| apply quiet_step_refl].
    unfold quiet_step. cbn. split_and!; try done. intros k. by rewrite lookup_alter_None.
  - intros item w. unfold transactions_put.
    destruct (attribute_not_exists _); [| apply quiet_step_refl].
    unfold quiet_step. cbn. by split_and!.
  - intros entry w. unfold eventBridge_putEvents.
    destruct (putEvents_fault env entry); [apply quiet_step_refl |].
    unfold quiet_step. cbn. split_and!; try done. by apply prefix_app_r.
  - intros w. unfold quiet_step. cbn. split_and!; try done. lia.
  - intros w. unfold quiet_step. cbn. split_and!; try done. lia.
  - intros client w Hnone. unfold quiet_step. cbn. split_and!; try done.
    intros c Hc. congruence.
Qed.

Lemma ledger_step_same m w w' :
  transactionsTable w' = transactionsTable w → ledger_step m w w'.
Proof. intros Heq. unfold ledger_step. rewrite Heq. split; [done | lia]. Qed.

Lemma ledger_step_graded :
  (∀ w, ledger_step 0 w w)
  ∧ (∀ n m w1 w2 w3, ledger_step n w1 w2 → ledger_step m w2 w3 → ledger_step (n + m) w1 w3)
  ∧ (∀ n m w w', (n ≤ m)%nat → ledger_step n w w' → ledger_step m w w')
  ∧ (∀ item, keeps (ledger_step 1) (transactions_put item attribute_not_exists)).
Proof.
  split_and!.
  - intros w. by apply ledger_step_same.
  - intros n m w1 w2 w3 [Hs1 Hn1] [Hs2 Hn2]. split; [by etrans | lia].
  - intros n m w w' Hle [Hs Hn]. split; [done | lia].
  - intros item w. unfold transactions_put, attribute_not_exists.
    destruct (transactionsTable w !! tx_key item) as [old |] eqn:Hold.
    + rewrite attribute_exists_Some. by apply ledger_step_same.
    + rewrite attribute_exists_None. split; cbn.
      * by apply insert_subseteq.
      * rewrite map_size_insert_None by done. lia.
Qed.

Lemma ledger_step_handler records :
  keeps (ledger_step (length records)) (handler env records)
  ∧ ∀ record, keeps (ledger_step 1) (processExecutionEvent env record).
Proof.
  destruct ledger_step_graded as (Hrefl & Htrans & Hweaken & Hput).
  assert (Hupdate : ∀ key set, keeps (ledger_step 0) (plans_update key attribute_exists set)).
  { intros key set w. apply ledger_step_same. unfold plans_update.
    by destruct (attribute_exists _). }
  assert (Hbus : ∀ entry, keeps (ledger_step 0) (eventBridge_putEvents env entry)).
  { intros entry w. apply ledger_step_same. unfold eventBridge_putEvents.
    by destruct (putEvents_fault env entry). }
  assert (Huuid : keeps (ledger_step 0) (uuidv4 env)) by (intros w; by apply ledger_step_same).
  assert (Hrandom : keeps (ledger_step 0) (Math_random env))
    by (intros w; by apply ledger_step_same).
  split.
  - apply (frame_handler env ledger_step); try done.
    intros client w _. by apply ledger_step_same.
  - intros record. by apply (frame_processExecutionEvent env ledger_step).
Qed.

(** X12. The transactions are an append-only ledger for the Executor.
    Whatever the batch and the answers of the collaborators, every row
    stored before the invocation is still stored, unchanged, after it,
    and the invocation adds at most one row for each record of the batch;
    processing a single record adds at most one row. *)
Theorem transactions_are_append_only records w :
  let w' := (handler env records w).2 in
  (∀ k tx, transactionsTable w !! k = Some tx → transactionsTable w' !! k = Some tx)
  ∧ (size (transactionsTable w') ≤ size (transactionsTable w) + length records)%nat
  ∧ ∀ record w1,
      let w2 := (processExecutionEvent env record w1).2 in
      (∀ k tx, transactionsTable w1 !! k = Some tx → transactionsTable w2 !! k = Some tx)
      ∧ (size (transactionsTable w2) ≤ size (transactionsTable w1) + 1)%nat.
Proof.
  intros w'. destruct (ledger_step_handler records) as [Hbatch Hone].
  destruct (Hbatch w) as [Hsub Hsize]. fold w' in Hsub, Hsize.
  split_and!.
  - intros k tx Hk. by eapply lookup_weaken.
  - exact Hsize.
  - intros record w1 w2. destruct (Hone record w1) as [Hsub1 Hsize1]. fold w2 in Hsub1, Hsize1.
    split; [| exact Hsize1]. intros k tx Hk. by eapply lookup_weaken.
Qed.

End ExecutorBatch.

Section ExecutorPlanRows.
Import Executor Batch Fixture.
Context (env : Env) (key : string * string).

Lemma same_terms_refl p : same_terms p p.
Proof. unfold same_terms. by split_and!. Qed.

Lemma same_terms_trans p1 p2 p3 : same_terms p1 p2 → same_terms p2 p3 → same_terms p1 p3.
Proof. unfold same_terms. intros H1 H2. destruct_and!. split_and!; congruence. Qed.

Lemma plan_step_refl w : plan_step key w w.
Proof.
  intros Hk. split_and!; try done.
  destruct (plansTable w !! key); constructor. apply same_terms_refl.
Qed.

Lemma plan_step_trans w1 w2 w3 : plan_step key w1 w2 → plan_step key w2 w3 → plan_step key w1 w3.
Proof.
  intros H12 H23 Hk1. destruct (H12 Hk1) as (Hk2 & Ho12 & Hr12).
  destruct (H23 Hk2) as (Hk3 & Ho23 & Hr23). split_and!; [done | |].
  - intros k Hne. by rewrite Ho23, Ho12.
  - destruct Hr12 as [p1 p2 H |]; inversion Hr23; subst; constructor.
    by eapply same_terms_trans.
Qed.

Lemma plan_step_same {A} (m : M A) :
  (∀ w, plansTable (m w).2 = plansTable w) → keeps (plan_step key) m.
Proof.
  intros Heq w Hk. unfold Scanner.keys_agree. rewrite Heq. split_and!; try done.
  destruct (plansTable w !! key); constructor. apply same_terms_refl.
Qed.

Lemma plan_step_update plan set :
  plan_key plan = key → (∀ p, same_terms p (set p)) →
  keeps (plan_step key) (plans_update (plan_userId plan, plan_planId plan) attribute_exists set).
Proof.
  intros Hkey Hset w Hk. fold (plan_key plan). rewrite Hkey.
  unfold plans_update. destruct (attribute_exists _); [| by apply plan_step_refl].
  cbn. split_and!.
  - unfold Scanner.keys_agree. cbn. intros k p. rewrite lookup_alter. case_decide as Hkk.
    + subst k. destruct (plansTable w !! key) as [row |] eqn:Hrow; cbn; [| done].
      intros [= <-]. destruct (Hset row) as (Hu & Hp & _).
      unfold plan_key. rewrite Hu, Hp. by apply (Hk key row).
    + apply Hk.
  - intros k Hne. by rewrite lookup_alter_ne.
  - rewrite lookup_alter_eq. destruct (plansTable w !! key); constructor. apply Hset.
Qed.

Lemma with_status_same_terms status updatedAt p : same_terms p (with_status status updatedAt p).
Proof. unfold same_terms. by split_and!. Qed.

Lemma with_schedule_same_terms status next updatedAt p :
  same_terms p (with_schedule status next updatedAt p).
Proof. unfold same_terms. by split_and!. Qed.

Lemma plan_step_publishEvent eventType detail :
  keeps (plan_step key) (publishEvent env eventType detail).
Proof.
  apply plan_step_same. intros w. rewrite publishEvent_cases.
  by destruct (putEvents_fault env _).
Qed.

Lemma plan_step_recordTransaction transaction :
  keeps (plan_step key) (recordTransaction transaction).
Proof.
  apply plan_step_same. intros w. unfold recordTransaction, transactions_put.
  by destruct (attribute_not_exists _).
Qed.

Lemma plan_step_purchaseBitcoin client request :
  keeps (plan_step key) (ExchangeClient.purchaseBitcoin env client request).
Proof.
  apply plan_step_same. intros w.
  destruct (ExchangeClient.purchaseBitcoin env client request w) as [r w'] eqn:Hrun.
  by destruct (purchaseBitcoin_frame env _ _ _ _ _ Hrun) as (? & _).
Qed.

Lemma plan_step_record_purchase plan event result :
  plan_key plan = key → keeps (plan_step key) (record_purchase env plan event result).
Proof.
  intros Hkey. pose proof plan_step_refl as Hr. pose proof plan_step_trans as Ht.
  unfold record_purchase.
  apply inv_bind; [done.. | by apply plan_step_same | intros transactionId].
  apply inv_bind; [done.. | apply plan_step_recordTransaction | intros _].
  destruct (res_success result).
  - unfold on_purchase_success.
    destruct (calculateNextExecutionTime _ _) as [[next |] | e]; [| | by apply inv_throw].
    + apply inv_bind; [done.. | | intros _; apply plan_step_publishEvent].
      apply plan_step_update; [done | intros p; apply with_schedule_same_terms].
    + apply inv_bind; [done.. | by apply inv_throw | intros _; apply plan_step_publishEvent].
  - unfold on_purchase_failure.
    apply inv_bind; [done.. | | intros _].
    { apply plan_step_update; [done | intros p; apply with_status_same_terms]. }
    apply inv_bind; [done.. | apply plan_step_publishEvent | intros _; by apply inv_throw].
Qed.

(** The plan a task names, once fetched from rows stored under their
    own keys, has the task's key. *)
Lemma plan_step_fetched {B} userId planId (k : SavingsPlan → M B) :
  key = (userId, planId) →
  (∀ plan, plan_key plan = key → keeps (plan_step key) (k plan)) →
  keeps (plan_step key) (getSavingsPlan userId planId ≫= k).
Proof.
  intros Hkey Hk. apply inv_bind_returned; [apply plan_step_trans | |].
  - apply plan_step_same. intros w. unfold getSavingsPlan, mbind, M_bind, bind, plans_get.
    by destruct (plansTable w !! _).
  - intros w plan w1 Hrun Hagree.
    unfold getSavingsPlan, mbind, M_bind, bind, plans_get in Hrun.
    destruct (plansTable w !! (userId, planId)) as [row |] eqn:Hrow; [| done].
    injection Hrun as -> ->. apply Hk; [| done]. rewrite Hkey. by apply (Hagree _ _ Hrow).
Qed.

Lemma plan_step_processExecutionEvent record :
  key = (ev_userId (body record), ev_planId (body record)) →
  keeps (plan_step key) (processExecutionEvent env record).
Proof.
  intros Hkey. pose proof plan_step_refl as Hr. pose proof plan_step_trans as Ht.
  unfold processExecutionEvent.
  apply inv_try_catch; [done.. | | intros; by apply inv_throw].
  destruct (js_ge _ _).
  - unfold handleMaxRetries.
    apply inv_try_catch; [done.. | | intros; by apply inv_throw].
    apply plan_step_fetched; [done | intros plan Hplan].
    apply inv_bind; [done.. | | intros _].
    { apply plan_step_update; [done | intros p; apply with_status_same_terms]. }
    apply inv_bind; [done.. | by apply plan_step_same | intros transactionId].
    apply inv_bind; [done.. | apply plan_step_recordTransaction | intros _].
    apply plan_step_publishEvent.
  - apply plan_step_fetched; [done | intros plan Hplan].
    apply inv_bind; [done.. | | intros _].
    { apply plan_step_update; [done | intros p; apply with_status_same_terms]. }
    apply inv_bind; [done.. | apply plan_step_publishEvent | intros _].
    apply inv_bind; [done.. | | intros client].
    { apply plan_step_same. intros w. unfold the_exchangeClient. by destruct (exchangeClient w). }
    apply inv_bind; [done.. | apply plan_step_purchaseBitcoin | intros result].
    by apply plan_step_record_purchase.
Qed.

End ExecutorPlanRows.

Section ExecutorPlanRowsTheorem.
Import Executor Batch Fixture.
Context (env : Env).

(** X13. With rows stored under their own keys, processing a task
    writes to no plan row but the one the task names, and to that row
    only its status, its next execution time and its update time: user,
    plan id, amount, frequency, source of funds, start and end date and
    creation time are as they were. It neither adds nor removes the row,
    and rows are still stored under their own keys afterwards. *)
Theorem executor_writes_one_plan_row record w :
  Scanner.keys_agree w →
  let key := (ev_userId (body record), ev_planId (body record)) in
  let w' := (processExecutionEvent env record w).2 in
  Scanner.keys_agree w'
  ∧ (∀ k, k ≠ key → plansTable w' !! k = plansTable w !! k)
  ∧ match plansTable w !! key, plansTable w' !! key with
    | None, None => True
    | Some p, Some p' =>
        plan_userId p' = plan_userId p
        ∧ plan_planId p' = plan_planId p
        ∧ plan_amount p' = plan_amount p
        ∧ plan_frequency p' = plan_frequency p
        ∧ plan_sourceOfFunds p' = plan_sourceOfFunds p
        ∧ plan_startDate p' = plan_startDate p
        ∧ plan_endDate p' = plan_endDate p
        ∧ plan_createdAt p' = plan_createdAt p
    | _, _ => False
    end.
Proof.
  intros Hagree key w'.
  destruct (plan_step_processExecutionEvent env key record eq_refl w Hagree)
    as (Hagree' & Hother & Hrow).
  fold w' in Hagree', Hother, Hrow. split_and!; try done.
  by destruct Hrow.
Qed.

End ExecutorPlanRowsTheorem.

Section ExecutorPlanRowsExamples.
Import Executor Batch Fixture.

Lemma executor_writes_one_plan_row_witness :
  Scanner.keys_agree w0
  ∧ (∀ k, k ≠ plan_key p1 →
       plansTable (processExecutionEvent env_ok (task p1 0) w0).2 !! k = plansTable w0 !! k)
  ∧ Scanner.keys_agree (processExecutionEvent env_ok (task p1 0) w0).2.
Proof.
  assert (H1 : Scanner.keys_agree w0) by apply keys_agree_world_of.
  destruct (executor_writes_one_plan_row env_ok (task p1 0) w0 H1) as (Hagree & Hother & _).
  split; [exact H1 | split; [exact Hother | exact Hagree]].
Defined.

End ExecutorPlanRowsExamples.

(* ===================================================================== *)
(** * What the Executor does not look at *)
(* ===================================================================== *)
Section ExecutorBlindSpots.
Import Executor Fixture.
Context (env : Env).

Lemma alter_over_insert (f : SavingsPlan → SavingsPlan) (key : string * string)
    (m : gmap (string * string) SavingsPlan) plan plan' :
  m !! key = Some plan → f plan' = f plan →
  alter f key (<[key := plan']> m) = alter f key m.
Proof.
  intros Hm Hf. apply map_eq. intros k. destruct (decide (k = key)) as [-> | Hne].
  - rewrite !lookup_alter_eq, lookup_insert_eq, Hm. cbn. by rewrite Hf.
  - by rewrite !lookup_alter_ne, lookup_insert_ne.
Qed.

(** X14. The Executor never reads the stored status of a plan. With the
    plan stored under its key, processing a task ends the same way and
    leaves the same world whatever status (and update time) the row had:
    a plan that was PAUSED or CANCELLED while its task was in flight is
    executed exactly like an ACTIVE one. *)
Theorem executor_ignores_the_stored_status record w plan status updatedAt :
  let key := (ev_userId (body record), ev_planId (body record)) in
  plansTable w !! key = Some plan →
  plan_key plan = key →
  processExecutionEvent env record
    (set_plansTable (<[key := with_status status updatedAt plan]>) w)
  = processExecutionEvent env record w.
Proof.
  intros key Hplan Hkey.
  set (plan_s := with_status status updatedAt plan).
  set (w_s := set_plansTable (<[key := plan_s]>) w).
  assert (Hplan_s : plansTable w_s !! key = Some plan_s) by (cbn; apply lookup_insert_eq).
  assert (Hkey_s : plan_key plan_s = key) by exact Hkey.
  assert (Hupd : ∀ X, set_plansTable (alter (with_status X (Date_now env)) key) w_s
                      = set_plansTable (alter (with_status X (Date_now env)) key) w).
  { intros X. unfold set_plansTable, w_s. cbn. f_equal. by apply alter_over_insert with plan. }
  destruct (js_ge (ev_attemptCount (body record))
              (JsParse.parseInt (max_retries_setting env))) eqn:Hpath.
  - rewrite !(processExecutionEvent_exhausted env) by done.
    rewrite (handleMaxRetries_present env (body record) w plan Hplan Hkey).
    rewrite (handleMaxRetries_present env (body record) w_s plan_s Hplan_s Hkey_s).
    cbv zeta. rewrite Hkey_s, Hkey, Hupd. reflexivity.
  - rewrite (processExecutionEvent_normal env record w plan Hpath Hplan Hkey).
    rewrite (processExecutionEvent_normal env record w_s plan_s Hpath Hplan_s Hkey_s).
    cbv zeta. rewrite Hkey_s, Hkey, Hupd. reflexivity.
Qed.

Lemma with_max_retries_normal_path s record :
  ev_attemptCount (body record) = 0 →
  (∀ m, JsParse.parseInt (max_retries_setting (with_max_retries s env)) = Some m → 1 ≤ m) →
  js_ge (ev_attemptCount (body record))
    (JsParse.parseInt (max_retries_setting (with_max_retries s env))) = false.
Proof.
  intros -> Hm. destruct (JsParse.parseInt _) as [m |]; [| done].
  cbn. specialize (Hm m eq_refl). by destruct (Z.leb_spec m 0); [lia |].
Qed.

(** X15. A task as the Scanner writes it carries the attempt count 0.
    For a record that delivers such a task the maximum number of retries
    plays no part: processing ends the same way and leaves the same world
    under any two settings that read as a number of at least 1 or do not
    read as a number at all, so the branch for exhausted retries is not
    taken for it. *)
Theorem scanner_tasks_never_exhaust_the_retries plan executionId id w s1 s2 :
  let record := mkRecord id (MessageBody (Scanner.task_request env plan executionId)) in
  (∀ m, JsParse.parseInt (max_retries_setting (with_max_retries s1 env)) = Some m → 1 ≤ m) →
  (∀ m, JsParse.parseInt (max_retries_setting (with_max_retries s2 env)) = Some m → 1 ≤ m) →
  ev_attemptCount (body record) = 0
  ∧ js_ge (ev_attemptCount (body record))
      (JsParse.parseInt (max_retries_setting (with_max_retries s1 env))) = false
  ∧ processExecutionEvent (with_max_retries s1 env) record w
    = processExecutionEvent (with_max_retries s2 env) record w.
Proof.
  intros record H1 H2.
  pose proof (with_max_retries_normal_path s1 record eq_refl H1) as Hn1.
  pose proof (with_max_retries_normal_path s2 record eq_refl H2) as Hn2.
  split; [done | split; [exact Hn1 |]].
  unfold processExecutionEvent. rewrite !try_catch_rethrow, Hn1, Hn2. reflexivity.
Qed.

End ExecutorBlindSpots.

Section ExecutorBlindSpotExamples.
Import Executor Fixture.

(** The theorem for the due plan of the three-plan store, had it been
    cancelled after its task was enqueued. *)
Lemma executor_ignores_the_stored_status_witness :
  plansTable w0 !! plan_key p1 = Some p1
  ∧ processExecutionEvent env_ok (task p1 0)
      (set_plansTable (<[plan_key p1 := with_status CANCELLED 0 p1]>) w0)
    = processExecutionEvent env_ok (task p1 0) w0
  ∧ plan_status <$> plansTable (processExecutionEvent env_ok (task p1 0) w0).2 !! plan_key p1
    = Some ACTIVE.
Proof.
  assert (H1 : plansTable w0 !! plan_key p1 = Some p1) by (vm_compute; reflexivity).
  split; [exact H1 | split].
  - exact (executor_ignores_the_stored_status env_ok (task p1 0) w0 p1 CANCELLED 0 H1 eq_refl).
  - vm_compute. reflexivity.
Defined.

(** The theorem under the default setting and under a setting of 1. *)
Lemma scanner_tasks_never_exhaust_the_retries_witness :
  let record := mkRecord "msg-1" (MessageBody (Scanner.task_request env_ok p1 "uuid-0")) in
  (∀ m, JsParse.parseInt (max_retries_setting (with_max_retries None env_ok)) = Some m → 1 ≤ m)
  ∧ (∀ m, JsParse.parseInt (max_retries_setting (with_max_retries (Some "1") env_ok)) = Some m
          → 1 ≤ m)
  ∧ processExecutionEvent (with_max_retries None env_ok) record w0
    = processExecutionEvent (with_max_retries (Some "1") env_ok) record w0.
Proof.
  intros record.
  assert (H1 : ∀ m, JsParse.parseInt (max_retries_setting (with_max_retries None env_ok))
                    = Some m → 1 ≤ m)
    by (intros m Hm; vm_compute in Hm; injection Hm as <-; lia).
  assert (H2 : ∀ m, JsParse.parseInt (max_retries_setting (with_max_retries (Some "1") env_ok))
                    = Some m → 1 ≤ m)
    by (intros m Hm; vm_compute in Hm; injection Hm as <-; lia).
  split; [exact H1 | split; [exact H2 |]].
  exact (proj2 (proj2 (scanner_tasks_never_exhaust_the_retries env_ok p1 "uuid-0" "msg-1" w0
                         None (Some "1") H1 H2))).
Defined.

End ExecutorBlindSpotExamples.

Section ExecutorLedgerBlind.
Import Executor Fixture.
Context (env : Env).

Ltac world_simpl :=
  cbn [plansTable transactionsTable executionQueue eventBus uuidCount randomCount
       exchangeClient set_plansTable set_transactionsTable set_executionQueue set_eventBus
       set_uuidCount set_randomCount set_exchangeClient fst snd] in *.

Lemma insert_over_empty (k : string * string) (t : SavingsPlanTransaction)
    (m : gmap (string * string) SavingsPlanTransaction) :
  <[k := t]> m = <[k := t]> ∅ ∪ m.
Proof. by rewrite <- insert_union_l, (left_id_L ∅ (∪)). Qed.

(** X16. The Executor never reads the transactions. With rows stored
    under their own keys and a transaction id that is not taken,
    processing a task ends the same way and leaves the same plans, queue,
    bus and counters as it does when started with no transaction stored
    at all; the rows it adds are the same, put beside the rows that were
    there. In particular a task whose purchase is already recorded as
    COMPLETED, delivered once more, is processed like a first delivery. *)
Theorem executor_never_reads_the_transactions record w :
  Scanner.keys_agree w →
  (∀ userId, transactionsTable w !! (userId, uuidv4_at env (uuidCount w)) = None) →
  let forget := set_transactionsTable (λ _, ∅) in
  let run := processExecutionEvent env record w in
  let run0 := processExecutionEvent env record (forget w) in
  run.1 = run0.1
  ∧ forget run.2 = forget run0.2
  ∧ transactionsTable run.2 = transactionsTable run0.2 ∪ transactionsTable w.
Proof.
  intros Hagree Hfresh forget run run0. subst run run0 forget.
  set (key := (ev_userId (body record), ev_planId (body record))).
  destruct (plansTable w !! key) as [plan |] eqn:Hplan; last first.
  { rewrite (processExecutionEvent_missing env record w Hplan).
    rewrite (processExecutionEvent_missing env record (set_transactionsTable (λ _, ∅) w)) by done.
    world_simpl. split_and!; [done | done | by rewrite (left_id_L ∅ (∪))]. }
  pose proof (Hagree _ _ Hplan) as Hkey.
  assert (Hplan0 : plansTable (set_transactionsTable (λ _, ∅) w) !! key = Some plan) by done.
  destruct (js_ge (ev_attemptCount (body record))
              (JsParse.parseInt (max_retries_setting env))) eqn:Hpath.
  - rewrite !(processExecutionEvent_exhausted env) by done.
    rewrite (handleMaxRetries_present env (body record) w plan Hplan Hkey).
    rewrite (handleMaxRetries_present env (body record) (set_transactionsTable (λ _, ∅) w) plan Hplan0 Hkey).
    cbv zeta. world_simpl.
    set (transaction := maxRetries_transaction env plan (body record)
                          (uuidv4_at env (uuidCount w))).
    assert (Hnew : transactionsTable w !! tx_key transaction = None) by apply Hfresh.
    rewrite Hnew, lookup_empty.
    destruct (putEvents_fault env _); world_simpl;
      (split_and!; [done | done | apply insert_over_empty]).
  - rewrite (processExecutionEvent_normal env record w plan Hpath Hplan Hkey).
    rewrite (processExecutionEvent_normal env record (set_transactionsTable (λ _, ∅) w) plan Hpath Hplan0 Hkey).
    cbv zeta. world_simpl.
    destruct (putEvents_fault env _) as [e |].
    { world_simpl. split_and!; [done | done | by rewrite (left_id_L ∅ (∪))]. }
    destruct (exchangeClient w) as [client |].
    2: { world_simpl. split_and!; [done | done | by rewrite (left_id_L ∅ (∪))]. }
    rewrite !(purchaseBitcoin_cases env). cbv zeta. world_simpl.
    set (started := event_entry env EXECUTION_STARTED (started_detail plan (body record))).
    set (now := Date_now env).
    assert (Hstep : ∀ result (w3 : World),
              plansTable w3 = alter (with_status EXECUTING now) (plan_key plan) (plansTable w) →
              transactionsTable w3 = transactionsTable w →
              uuidCount w3 = uuidCount w →
              (record_purchase env plan (body record) result w3).1
              = (record_purchase env plan (body record) result (set_transactionsTable (λ _, ∅) w3)).1
              ∧ set_transactionsTable (λ _, ∅) (record_purchase env plan (body record) result w3).2
                = set_transactionsTable (λ _, ∅)
                    (record_purchase env plan (body record) result
                       (set_transactionsTable (λ _, ∅) w3)).2
              ∧ transactionsTable (record_purchase env plan (body record) result w3).2
                = transactionsTable (record_purchase env plan (body record) result (set_transactionsTable (λ _, ∅) w3)).2
                  ∪ transactionsTable w).
    { intros result w3 Hp3 Ht3 Hu3.
      assert (Hrow3 : plansTable w3 !! plan_key plan = Some (with_status EXECUTING now plan)).
      { by rewrite Hp3, lookup_alter_eq, Hkey, Hplan. }
      rewrite (record_purchase_cases env plan (body record) result w3 _ Hrow3).
      rewrite (record_purchase_cases env plan (body record) result (set_transactionsTable (λ _, ∅) w3) _ Hrow3).
      cbv zeta. world_simpl. rewrite Hu3, Ht3.
      set (transaction := purchase_transaction env plan (body record) result
                            (uuidv4_at env (uuidCount w))).
      assert (Hnew : transactionsTable w !! tx_key transaction = None) by apply Hfresh.
      rewrite Hnew, lookup_empty.
      destruct (res_success result).
      - destruct (calculateNextExecutionTime _ _) as [[next |] | e'];
          [destruct (putEvents_fault env _) | |]; world_simpl; rewrite ?Ht3;
          (split_and!; [done | done | apply insert_over_empty]).
      - destruct (putEvents_fault env _); world_simpl; rewrite ?Ht3;
          (split_and!; [done | done | apply insert_over_empty]). }
    destruct (ExchangeClient.Qltb _ _); apply Hstep; done.
Qed.

End ExecutorLedgerBlind.

Section ExecutorLedgerBlindExamples.
Import Executor Fixture.

(** The theorem at a store that already holds a COMPLETED transaction of
    the execution that is delivered again. *)
Lemma executor_never_reads_the_transactions_witness :
  let earlier :=
    purchase_transaction env_ok p1 (body (task p1 0))
      (mkPurchaseResult true (Some "tx-1") (Some (1 # 650)%Q) (Some (65000 # 1)%Q)
         (Some (1 # 1)%Q) None None)
      "tx-earlier" in
  let w := set_transactionsTable (<[tx_key earlier := earlier]>) w0 in
  Scanner.keys_agree w
  ∧ (∀ userId, transactionsTable w !! (userId, uuidv4_at env_ok (uuidCount w)) = None)
  ∧ tx_status earlier = TX_COMPLETED
  ∧ (processExecutionEvent env_ok (task p1 0) w).1
    = (processExecutionEvent env_ok (task p1 0) w0).1
  ∧ (processExecutionEvent env_ok (task p1 0) w0).1 = Return ().
Proof.
  intros earlier w.
  assert (H1 : Scanner.keys_agree w).
  { intros k p Hp. exact (keys_agree_world_of [p1; p2; p3] k p Hp). }
  assert (H2 : ∀ userId,
            transactionsTable w !! (userId, uuidv4_at env_ok (uuidCount w)) = None).
  { intros userId. cbn. rewrite lookup_insert_ne by (intros [= _ Hid]; discriminate Hid).
    apply lookup_empty. }
  destruct (executor_never_reads_the_transactions env_ok (task p1 0) w H1 H2) as (Hsame & _).
  split; [exact H1 | split; [exact H2 | split; [reflexivity | split]]].
  - exact Hsame.
  - vm_compute. reflexivity.
Defined.

End ExecutorLedgerBlindExamples.


(* ===================================================================== *)
(** * Configuration *)
(* ===================================================================== *)
Section Settings.
Import JsParse SchedulerService Axios ExchangeClient Fixture.

Lemma digit_of_pretty_N_char (d : N) :
  (d < 10)%N →
  digit_of (pretty_N_char d) = Some (Z.of_N d) ∧ is_space (pretty_N_char d) = false
  ∧ pretty_N_char d ≠ "-"%char ∧ pretty_N_char d ≠ "+"%char.
Proof.
  intros Hd.
  assert (H : (d = 0 ∨ d = 1 ∨ d = 2 ∨ d = 3 ∨ d = 4 ∨ d = 5 ∨ d = 6 ∨ d = 7 ∨ d = 8
               ∨ d = 9)%N) by lia.
  repeat (destruct H as [-> | H]); [.. | subst d]; by split_and!.
Qed.

(** Reading back the digits [pretty_N_go] writes in front of [s]. *)
Lemma read_digits_pretty_N_go (x : N) (s : string) (acc : option Z) :
  (0 < x)%N → default 0 acc = 0 →
  read_digits (pretty_N_go x s) acc = read_digits s (Some (Z.of_N x)).
Proof.
  revert s acc. induction (N.lt_wf_0 x) as [x _ IH]; intros s acc Hx Hacc.
  rewrite pretty_N_go_step by done.
  pose proof (N.div_mod x 10 ltac:(lia)) as Hdm.
  pose proof (N.mod_lt x 10 ltac:(lia)) as Hmod.
  destruct (digit_of_pretty_N_char (x `mod` 10)%N Hmod) as (Hdigit & _).
  destruct (decide (x `div` 10 = 0)%N) as [Hz | Hnz].
  - rewrite Hz, pretty_N_go_0. cbn [read_digits]. rewrite Hdigit, Hacc.
    do 2 f_equal. rewrite Hz, N.mul_0_r, N.add_0_l in Hdm. by rewrite <- Hdm.
  - rewrite IH; [| apply N.div_lt; lia | by apply N.neq_0_lt_0 | done].
    cbn [read_digits]. rewrite Hdigit. cbn [default]. do 2 f_equal.
    unfold id. change 10 with (Z.of_N 10). rewrite <- N2Z.inj_mul, <- N2Z.inj_add. by f_equal.
Qed.

Lemma pretty_N_go_head (x : N) (s : string) :
  (0 < x)%N → ∃ d s', (d < 10)%N ∧ pretty_N_go x s = String (pretty_N_char d) s'.
Proof.
  revert s. induction (N.lt_wf_0 x) as [x _ IH]; intros s Hx.
  rewrite pretty_N_go_step by done.
  destruct (decide (x `div` 10 = 0)%N) as [Hz | Hnz].
  - rewrite Hz, pretty_N_go_0. exists (x `mod` 10)%N, s. split; [| done].
    apply N.mod_lt. lia.
  - apply IH; [apply N.div_lt; lia | by apply N.neq_0_lt_0].
Qed.

Lemma parseInt_pretty_positive (p : positive) :
  parseInt (pretty (Z.pos p)) = Some (Z.pos p)
  ∧ parseInt (pretty (Z.neg p)) = Some (Z.neg p).
Proof.
  assert (Hp : pretty (Z.pos p) = pretty_N_go (N.pos p) EmptyString) by done.
  assert (Hn : pretty (Z.neg p) = String "-" (pretty_N_go (N.pos p) EmptyString)) by done.
  pose proof (read_digits_pretty_N_go (N.pos p) EmptyString None ltac:(lia) eq_refl) as Hread.
  cbn [read_digits] in Hread.
  split.
  - rewrite Hp. destruct (pretty_N_go_head (N.pos p) EmptyString ltac:(lia))
      as (d & s' & Hd & Hs).
    destruct (digit_of_pretty_N_char d Hd) as (_ & Hspace & Hminus & Hplus).
    unfold parseInt. rewrite Hs in *. cbn [skip_spaces]. rewrite Hspace.
    destruct (pretty_N_char d) as [[] [] [] [] [] [] [] []]; try done.
  - rewrite Hn. unfold parseInt. cbn [skip_spaces].
    change (is_space "-") with false. cbv iota. by rewrite Hread.
Qed.

(** [parseInt] reads back what [toString] writes. *)
Lemma parseInt_pretty (z : Z) : parseInt (pretty z) = Some z.
Proof.
  destruct z as [| p | p]; [done | apply parseInt_pretty_positive..].
Qed.

(** X17. The stack gives the Executor the same number of attempts as it
    gives the queue before a message is moved to the dead-letter queue.
    For an integer [maxRetries] property (below 10^21 in absolute value),
    or none, the [MAX_RETRIES] variable the stack sets reads back in the
    Executor as exactly the queue's [maxReceiveCount]: the property when
    it is given and not 0, and 3 otherwise; it is never 0. A task is
    taken as having used up its retries exactly when its attempt count
    has reached that number. *)
Theorem executor_threshold_is_the_redrive_count env maxRetries :
  MAX_RETRIES env = Some (environment_MAX_RETRIES maxRetries) →
  (∀ n, maxRetries = Some n → Z.abs n < 10 ^ 21) →
  parseInt (Executor.max_retries_setting env) = Some (maxReceiveCount maxRetries)
  ∧ maxReceiveCount maxRetries ≠ 0
  ∧ (maxRetries = None ∨ maxRetries = Some 0 → maxReceiveCount maxRetries = 3)
  ∧ (∀ n, maxRetries = Some n → n ≠ 0 → maxReceiveCount maxRetries = n)
  ∧ ∀ attemptCount,
      js_ge attemptCount (parseInt (Executor.max_retries_setting env)) = true
      ↔ maxReceiveCount maxRetries ≤ attemptCount.
Proof.
  intros Henv _.
  assert (Hread : parseInt (Executor.max_retries_setting env)
                  = Some (maxReceiveCount maxRetries)).
  { unfold Executor.max_retries_setting. rewrite Henv. cbn [default].
    apply parseInt_pretty. }
  split_and!.
  - exact Hread.
  - unfold maxReceiveCount, maxRetries_or_default.
    destruct maxRetries as [n |]; [| done]. destruct (Z.eqb_spec n 0); [done | done].
  - intros [-> | ->]; reflexivity.
  - intros n -> Hn. unfold maxReceiveCount, maxRetries_or_default.
    by destruct (Z.eqb_spec n 0).
  - intros attemptCount. rewrite Hread. cbn [js_ge]. apply Z.leb_le.
Qed.

Lemma executor_threshold_is_the_redrive_count_witness :
  let env := with_max_retries (Some (environment_MAX_RETRIES (Some 5))) env_ok in
  MAX_RETRIES env = Some (environment_MAX_RETRIES (Some 5))
  ∧ (∀ n, Some 5 = Some n → Z.abs n < 10 ^ 21)
  ∧ parseInt (Executor.max_retries_setting env) = Some 5
  ∧ maxReceiveCount (Some 5) = 5.
Proof.
  intros env.
  assert (H1 : MAX_RETRIES env = Some (environment_MAX_RETRIES (Some 5))) by reflexivity.
  assert (H2 : ∀ n, Some 5 = Some n → Z.abs n < 10 ^ 21) by (intros n [= <-]; reflexivity).
  destruct (executor_threshold_is_the_redrive_count env (Some 5) H1 H2) as (Hread & _).
  split; [exact H1 | split; [exact H2 | split; [exact Hread | reflexivity]]].
Defined.

Lemma load_config_Return env secretId stage config' :
  load_config env secretId stage = Return config' →
  ∃ SecretString config,
    getSecretValue env secretId = Return (Some SecretString)
    ∧ JSON_parse_config env SecretString = Return config
    ∧ config' = with_useSandbox (negb (String.eqb stage "prod")) config.
Proof.
  unfold load_config.
  destruct (getSecretValue env secretId) as [[[| c s] |] | e]; try done.
  destruct (JSON_parse_config env (String c s)) as [config | e] eqn:Hparse; [| done].
  intros [= <-]. by exists (String c s), config.
Qed.

(** X18. A client that [createFromSecrets] returns talks to the live
    endpoint on the stage ['prod'] and nowhere else. On 'prod' it was
    built from the stored credentials and its base URL is the stored one,
    whatever [useSandbox] the secret itself carries; on every other
    stage the base URL ends in "/sandbox", for stored credentials and for
    the demo credentials that 'dev' falls back to. The factory leaves
    the world as it is, and the request timeout is never 0 (no
    timeout): an absent or zero timeout becomes 5000 ms. *)
Theorem client_from_secrets_is_live_on_prod_only env secretId stage w client w' :
  createFromSecrets env secretId stage w = (Return client, w') →
  w' = w
  ∧ timeout (axiosClient client) ≠ 0
  ∧ (cfg_timeout (client_config client) = None → timeout (axiosClient client) = 5000)
  ∧ (stage = "prod" →
     ∃ SecretString config,
       getSecretValue env secretId = Return (Some SecretString)
       ∧ JSON_parse_config env SecretString = Return config
       ∧ cfg_apiKey (client_config client) = cfg_apiKey config
       ∧ cfg_apiSecret (client_config client) = cfg_apiSecret config
       ∧ baseURL (axiosClient client) = cfg_baseUrl config)
  ∧ (stage ≠ "prod" →
     baseURL (axiosClient client) = cfg_baseUrl (client_config client) +:+ "/sandbox"
     ∧ (client = mkClient demo_config ∧ stage = "dev"
        ∨ ∃ SecretString config,
            getSecretValue env secretId = Return (Some SecretString)
            ∧ JSON_parse_config env SecretString = Return config
            ∧ cfg_apiKey (client_config client) = cfg_apiKey config
            ∧ cfg_apiSecret (client_config client) = cfg_apiSecret config
            ∧ cfg_baseUrl (client_config client) = cfg_baseUrl config)).
Proof.
  rewrite createFromSecrets_cases.
  assert (Htimeout : ∀ config, timeout (axios_create config) ≠ 0).
  { intros config. cbn. destruct (cfg_timeout config) as [t |]; [| done].
    by destruct (Z.eqb_spec t 0). }
  assert (Hdefault : ∀ config, cfg_timeout config = None → timeout (axios_create config) = 5000).
  { intros config Hnone. cbn. by rewrite Hnone. }
  destruct (load_config env secretId stage) as [config' | e] eqn:Hload.
  - apply load_config_Return in Hload as (SecretString & config & Hsecret & Hparse & ->).
    intros [= <- <-]. split_and!; [done | apply Htimeout | apply Hdefault | |].
    + intros ->. exists SecretString, config. by split_and!.
    + intros Hstage. destruct (String.eqb_spec stage "prod") as [| _]; [done |].
      split; [done |]. right. exists SecretString, config. by split_and!.
  - destruct (String.eqb_spec stage "dev") as [-> |]; [| done].
    intros [= <- <-]. split_and!; [done | apply Htimeout | apply Hdefault | done |].
    intros _. split; [done |]. by left.
Qed.

Lemma client_from_secrets_is_live_on_prod_only_witness :
  (∃ client,
     createFromSecrets env_ok "exchange-secret" "prod" w0 = (Return client, w0)
     ∧ baseURL (axiosClient client) = "https://api.example.com/v1"
     ∧ timeout (axiosClient client) = 5000)
  ∧ ∃ client,
      createFromSecrets env_ok "exchange-secret" "staging" w0 = (Return client, w0)
      ∧ baseURL (axiosClient client) = "https://api.example.com/v1/sandbox".
Proof.
  split.
  - eexists. split; [reflexivity |].
    destruct (client_from_secrets_is_live_on_prod_only env_ok "exchange-secret" "prod" w0 _ w0
                eq_refl) as (_ & _ & Htimeout & Hprod & _).
    destruct (Hprod eq_refl) as (SecretString & config & _ & Hparse & _ & _ & Hbase).
    injection Hparse as <-. split; [exact Hbase | exact (Htimeout eq_refl)].
  - eexists. split; [reflexivity |].
    destruct (client_from_secrets_is_live_on_prod_only env_ok "exchange-secret" "staging" w0 _ w0
                eq_refl) as (_ & _ & _ & _ & Hother).
    destruct Hother as [Hbase _]; [discriminate |]. exact Hbase.
Defined.

End Settings.

Section TakenTransactionId.
Import Executor Fixture.
Context (env : Env).

(** X21. A transaction row is never overwritten. On the normal path,
    with the plan stored under its key, the client initialised and
    EXECUTION_STARTED taken by the bus, when the transaction id drawn is
    already taken for the plan's user the purchase is made all the same
    (the exchange is called) and the store then refuses the row with its
    conditional-check error: the row that was there stays as it is,
    nothing is recorded for this purchase, the plan is left EXECUTING,
    no further event is published, and the task is reported as failed. *)
Theorem taken_transaction_id_leaves_the_purchase_unrecorded record w plan client old :
  let event := body record in
  let key := (ev_userId event, ev_planId event) in
  let started := event_entry env EXECUTION_STARTED (started_detail plan event) in
  js_ge (ev_attemptCount event) (JsParse.parseInt (max_retries_setting env)) = false →
  plansTable w !! key = Some plan →
  plan_key plan = key →
  exchangeClient w = Some client →
  putEvents_fault env started = None →
  transactionsTable w !! (plan_userId plan, uuidv4_at env (uuidCount w)) = Some old →
  ∃ w',
    processExecutionEvent env record w = (Throw ConditionalCheckFailedException, w')
    ∧ process_records env [record] [] w = (Return [messageId record], w')
    ∧ (randomCount w < randomCount w')%nat
    ∧ transactionsTable w' = transactionsTable w
    ∧ plansTable w' !! key = Some (with_status EXECUTING (Date_now env) plan)
    ∧ eventBus w' = eventBus w ++ [started].
Proof.
  intros event key started Hnormal Hplan Hkey Hclient Hstarted Htaken.
  pose proof (processExecutionEvent_normal env record w plan Hnormal Hplan Hkey) as Hrun.
  cbv zeta in Hrun. fold event started in Hrun. rewrite Hstarted, Hclient in Hrun.
  set (w2 := set_eventBus (λ b, b ++ [started])
               (set_plansTable (alter (with_status EXECUTING (Date_now env)) (plan_key plan)) w))
    in *.
  destruct (purchaseBitcoin_returns env client (purchase_request plan event) w2)
    as (result & w3 & Hcall).
  rewrite Hcall in Hrun.
  destruct (purchaseBitcoin_frame _ _ _ _ _ _ Hcall) as (Hp3 & Ht3 & _ & Hb3 & Hu3 & _ & Hr3).
  assert (Hrow3 : plansTable w3 !! plan_key plan
                  = Some (with_status EXECUTING (Date_now env) plan)).
  { rewrite Hp3. cbn. rewrite lookup_alter_eq, Hkey. fold key. by rewrite Hplan. }
  rewrite (record_purchase_cases env plan event result w3 _ Hrow3) in Hrun. cbv zeta in Hrun.
  rewrite Hu3 in Hrun. cbn [uuidCount set_eventBus set_plansTable w2] in Hrun.
  rewrite Ht3 in Hrun. cbn [transactionsTable set_eventBus set_plansTable w2] in Hrun.
  assert (Htaken' : transactionsTable w
                      !! tx_key (purchase_transaction env plan event result
                                   (uuidv4_at env (uuidCount w))) = Some old) by done.
  rewrite Htaken' in Hrun.
  exists (set_uuidCount S w3). split_and!.
  - exact Hrun.
  - eapply (process_one_record env record w (Throw _)). exact Hrun.
  - exact Hr3.
  - exact Ht3.
  - cbn. rewrite Hp3. cbn. rewrite Hkey. fold key. by rewrite lookup_alter_eq, Hplan.
  - cbn. exact Hb3.
Qed.

End TakenTransactionId.

Section TakenTransactionIdExamples.
Import Executor Fixture.

Lemma taken_transaction_id_leaves_the_purchase_unrecorded_witness :
  let earlier :=
    purchase_transaction env_ok p1 (body (task p1 0))
      (mkPurchaseResult true (Some "tx-1") (Some (1 # 650)%Q) (Some (65000 # 1)%Q)
         (Some (1 # 1)%Q) None None)
      "uuid-0" in
  let w := set_transactionsTable (<[tx_key earlier := earlier]>) w0 in
  js_ge (ev_attemptCount (body (task p1 0)))
    (JsParse.parseInt (max_retries_setting env_ok)) = false
  ∧ plansTable w !! plan_key p1 = Some p1
  ∧ exchangeClient w = Some demo_client
  ∧ transactionsTable w !! (plan_userId p1, uuidv4_at env_ok (uuidCount w)) = Some earlier
  ∧ ∃ w',
      processExecutionEvent env_ok (task p1 0) w = (Throw ConditionalCheckFailedException, w')
      ∧ transactionsTable w' = transactionsTable w
      ∧ (randomCount w < randomCount w')%nat.
Proof.
  intros earlier w.
  assert (H1 : js_ge (ev_attemptCount (body (task p1 0)))
                 (JsParse.parseInt (max_retries_setting env_ok)) = false) by reflexivity.
  assert (H2 : plansTable w !! plan_key p1 = Some p1) by (vm_compute; reflexivity).
  assert (H3 : plan_key p1 = plan_key p1) by reflexivity.
  assert (H4 : exchangeClient w = Some demo_client) by reflexivity.
  assert (H5 : putEvents_fault env_ok
                 (event_entry env_ok EXECUTION_STARTED (started_detail p1 (body (task p1 0))))
               = None) by reflexivity.
  assert (H6 : transactionsTable w !! (plan_userId p1, uuidv4_at env_ok (uuidCount w))
               = Some earlier) by apply lookup_insert_eq.
  destruct (taken_transaction_id_leaves_the_purchase_unrecorded env_ok (task p1 0) w p1
              demo_client earlier H1 H2 H3 H4 H5 H6) as (w' & Hrun & _ & Hcalled & Hsame & _).
  split; [exact H1 | split; [exact H2 | split; [exact H4 | split; [exact H6 |]]]].
  exists w'. split; [exact Hrun | split; [exact Hsame | exact Hcalled]].
Defined.

End TakenTransactionIdExamples.

(* ===================================================================== *)
(** * Signing requests *)
(* ===================================================================== *)
Section SignedRequests.
Import Signing.
Context (createHmac_sha256_hex : string → string → string).
Context (Data : Type) (ToBoolean : Data → bool) (JSON_stringify : Data → string).
Context (env : Env) (client : BitcoinExchangeClient).

Lemma toUpperCase_char_idemp (c : ascii) :
  toUpperCase_char (toUpperCase_char c) = toUpperCase_char c.
Proof. by destruct c as [[] [] [] [] [] [] [] []]. Qed.

Lemma toUpperCase_idemp (s : string) : toUpperCase (toUpperCase s) = toUpperCase s.
Proof. induction s as [| c s IH]; cbn; [done |]. by rewrite toUpperCase_char_idemp, IH. Qed.

Lemma signing_method_upper (config : AxiosRequestConfig Data) :
  toUpperCase (signing_method config) = signing_method config.
Proof.
  unfold signing_method. destruct (rc_method config) as [m |]; cbn; [| done].
  destruct (toUpperCase m) as [| c s] eqn:Hm; [done |]. cbn [or_string].
  by rewrite <- Hm, toUpperCase_idemp.
Qed.

Lemma signing_method_nonempty (config : AxiosRequestConfig Data) :
  signing_method config ≠ EmptyString.
Proof.
  unfold signing_method. destruct (rc_method config) as [m |]; cbn; [| done].
  by destruct (toUpperCase m).
Qed.

Lemma signed_headers (headers : gmap string string) key timestamp signature :
  <["X-API-Signature" := signature]>
    (<["X-API-Timestamp" := timestamp]>
       (<["X-API-Key" := key]>
          (<["X-API-Signature" := signature]>
             (<["X-API-Timestamp" := timestamp]> (<["X-API-Key" := key]> headers)))))
  = <["X-API-Signature" := signature]>
      (<["X-API-Timestamp" := timestamp]> (<["X-API-Key" := key]> headers)).
Proof.
  apply map_eq. intros name. rewrite !lookup_insert. by repeat case_decide.
Qed.

(** X22. What [signRequest] does to a request. Method, URL and data are
    left as they are; the three authentication headers are set to the
    key, the time stamp and the keyed hash of time stamp, method, path
    and body, replacing whatever the caller had put there; every other
    header is kept. The method is signed in upper case and as GET when
    absent or empty, so that spelling the method in upper case does not
    change the signed request's headers. Signing a signed request again
    at the same instant changes nothing. *)
Theorem signRequest_sets_the_three_headers (config : AxiosRequestConfig Data) :
  let sign := signRequest createHmac_sha256_hex ToBoolean JSON_stringify env client in
  let signed := sign config in
  rc_method signed = rc_method config
  ∧ rc_url signed = rc_url config
  ∧ rc_data signed = rc_data config
  ∧ rc_headers signed !! "X-API-Key" = Some (cfg_apiKey (client_config client))
  ∧ rc_headers signed !! "X-API-Timestamp" = Some (pretty (Date_now env))
  ∧ rc_headers signed !! "X-API-Signature"
    = Some (createHmac_sha256_hex (cfg_apiSecret (client_config client))
              (pretty (Date_now env) +:+ signing_method config
               +:+ signing_path config
               +:+ signing_body ToBoolean JSON_stringify config))
  ∧ (∀ name, name ∉ ["X-API-Key"; "X-API-Timestamp"; "X-API-Signature"] →
       rc_headers signed !! name = rc_headers config !! name)
  ∧ rc_headers (sign (mkRequestConfig (Some (signing_method config))
                        (rc_url config) (rc_data config) (rc_headers config)))
    = rc_headers signed
  ∧ sign signed = signed.
Proof.
  intros sign signed. subst sign signed. split_and!; try done.
  - cbn. rewrite lookup_insert_ne by done. rewrite lookup_insert_ne by done.
    apply lookup_insert_eq.
  - cbn. rewrite lookup_insert_ne by done. apply lookup_insert_eq.
  - cbn. apply lookup_insert_eq.
  - intros name Hname. cbn.
    rewrite !lookup_insert_ne; [done | | |]; intros <-; apply Hname.
    + by left.
    + right. by left.
    + do 2 right. by left.
  - cbn. unfold signing_payload. f_equal. f_equal. f_equal.
    unfold signing_method at 1. cbn [rc_method fmap option_fmap option_map].
    rewrite signing_method_upper.
    pose proof (signing_method_nonempty config).
    by destruct (signing_method config).
  - unfold signRequest. cbn [rc_method rc_url rc_data rc_headers client_config].
    f_equal. apply signed_headers.
Qed.

End SignedRequests.

(* ===================================================================== *)

(** * From the scan to the next schedule *)
(* ===================================================================== *)
Section RoundTrip.
Import JsDate Scanner Executor Fixture.
Context (env env' : Env).

(** X23. One turn of the cycle. [env] is what the Scanner's invocation
    meets and [env'] what the Executor's invocation meets later. When a
    run of the Scanner in which queue and bus take everything selects
    the plan [p], and the task written for [p] is then processed with
    the client initialised, a bus that takes the events, a transaction id
    that is new, a supported frequency, a clock inside the range of
    [Date] and a purchase that succeeds, then the scan leaves [p]
    PENDING_EXECUTION and the execution returns it to ACTIVE: its row is
    the row the scan found, with the next execution time computed from
    the Executor's clock, at least a day ahead, and the update time, and
    no other row is touched by the execution. *)
Theorem scan_then_execute_returns_the_plan_to_active w n p executionId id client :
  JsParse.parseInt (batch_size_setting env) = Some n → 1 ≤ n →
  keys_agree w →
  (∀ req, sendMessage_fault env req = None) →
  (∀ entry, putEvents_fault env entry = None) →
  (∃ items, handler_query env w = (Return items, w) ∧ p ∈ items) →
  (∀ m, JsParse.parseInt (max_retries_setting env') = Some m → 1 ≤ m) →
  exchangeClient w = Some client →
  (∀ entry, putEvents_fault env' entry = None) →
  (∀ count, transactionsTable w !! (plan_userId p, uuidv4_at env' count) = None) →
  plan_frequency p ∈ [DAILY; WEEKLY; BIWEEKLY; MONTHLY] →
  Z.abs (Date_now env') + 31 * msPerDay ≤ maxTime →
  (5 # 100 <= Math_random_at env' (S (randomCount w)))%Q →
  let record := mkRecord id (MessageBody (task_request env p executionId)) in
  ∃ w1 w2 next,
    Scanner.handler env w = (Return (), w1)
    ∧ plansTable w !! plan_key p = Some p
    ∧ plan_status p = ACTIVE
    ∧ plansTable w1 !! plan_key p = Some (with_status PENDING_EXECUTION (Date_now env) p)
    ∧ processExecutionEvent env' record w1 = (Return (), w2)
    ∧ calculateNextExecutionTime (plan_frequency p) (Some (Date_now env')) = Return (Some next)
    ∧ Date_now env' / 1000 + 86400 ≤ next
    ∧ plansTable w2 !! plan_key p = Some (with_schedule ACTIVE next (Date_now env') p)
    ∧ (∀ k, k ≠ plan_key p → plansTable w2 !! k = plansTable w1 !! k).
Proof.
  intros Hn Hpos Hkeys Hsend Hbus (items' & Hq' & Hin) Hretries Hclient Hbus' Hfresh Hfreq
    Hrange Hdraw record.
  destruct (accepted_scan env w n Hn Hpos Hkeys Hsend Hbus)
    as (items & w1 & published & Hq & Hrun & Hmarked & _).
  rewrite Hq in Hq'. injection Hq' as <-.
  pose proof (Hmarked p Hin) as Hrow1.
  destruct (query_selection env w (Z.to_nat n) Hkeys) as (Hsel & _).
  rewrite (handler_query_result env w n Hn Hpos) in Hq. injection Hq as Hitems.
  rewrite Hitems in Hsel. destruct (Hsel p Hin) as [Hstored [Hactive _]].
  destruct (scan_step_handler env w) as (Ht1 & Hc1 & Hr1 & _). rewrite Hrun in Ht1, Hc1, Hr1.
  cbn [snd] in Ht1, Hc1, Hr1.
  set (plan1 := with_status PENDING_EXECUTION (Date_now env) p) in *.
  assert (Hnormal : js_ge (ev_attemptCount (body record))
                      (JsParse.parseInt (max_retries_setting env')) = false).
  { destruct (JsParse.parseInt (max_retries_setting env')) as [m |] eqn:Hm; [| done]. cbn.
    specialize (Hretries m eq_refl). by destruct (Z.leb_spec m 0); [lia |]. }
  assert (Hfresh1 : transactionsTable w1 !! (plan_userId plan1, uuidv4_at env' (uuidCount w1))
                    = None) by (rewrite Ht1; apply Hfresh).
  destruct (purchaseBitcoin_returns env' client (purchase_request plan1 (body record))
              (set_eventBus
                 (λ b, b ++ [event_entry env' EXECUTION_STARTED
                               (started_detail plan1 (body record))])
                 (set_plansTable
                    (alter (with_status EXECUTING (Date_now env'))
                       (ev_userId (body record), ev_planId (body record))) w1)))
    as (result & w3 & Hcall).
  destruct (processExecutionEvent_purchased env' record w1 plan1 client result w3
              Hnormal Hrow1 eq_refl (eq_trans Hc1 Hclient) (Hbus' _) Hfresh1 Hcall)
    as (w4 & Hp4 & _ & _ & Hexec).
  assert (Hok : res_success result = true).
  { rewrite purchaseBitcoin_cases in Hcall. cbv zeta in Hcall.
    cbn [randomCount set_eventBus set_plansTable] in Hcall. rewrite Hr1 in Hcall.
    destruct (ExchangeClient.Qltb _ _) eqn:Hfail; [| by injection Hcall as <- _].
    apply Qltb_lt in Hfail. by apply Qlt_not_le in Hfail. }
  destruct (calculateNextExecutionTime_in_range (plan_frequency p) (Date_now env') Hfreq Hrange)
    as (next & Hnext).
  destruct (calculateNextExecutionTime_later _ _ _ Hnext) as [Hlater _].
  assert (Hclock : new_Date env' = Some (Date_now env')).
  { apply TimeClip_in_range. unfold msPerDay in Hrange. lia. }
  rewrite Hok in Hexec. cbn [plan_frequency plan1 with_status] in Hexec.
  rewrite Hclock, Hnext in Hexec. cbv zeta in Hexec. rewrite Hbus' in Hexec.
  eexists w1, _, next. split_and!; try done.
  - cbn [plansTable set_eventBus set_plansTable]. rewrite Hp4.
    change (ev_userId (body record), ev_planId (body record)) with (plan_key p).
    by rewrite !lookup_alter_eq, Hrow1.
  - intros k Hne. cbn [plansTable set_eventBus set_plansTable]. rewrite Hp4.
    change (ev_userId (body record), ev_planId (body record)) with (plan_key p).
    by rewrite !lookup_alter_ne.
Qed.

End RoundTrip.

Section RoundTripExamples.
Import JsDate Scanner Executor Fixture.

(** The cycle for the due weekly plan of the three-plan store. *)
Lemma scan_then_execute_returns_the_plan_to_active_witness :
  JsParse.parseInt (batch_size_setting env_ok) = Some 25
  ∧ keys_agree w0
  ∧ (∃ items, handler_query env_ok w0 = (Return items, w0) ∧ p1 ∈ items)
  ∧ exchangeClient w0 = Some demo_client
  ∧ (∀ count, transactionsTable w0 !! (plan_userId p1, uuidv4_at env_ok count) = None)
  ∧ plan_frequency p1 ∈ [DAILY; WEEKLY; BIWEEKLY; MONTHLY]
  ∧ Z.abs (Date_now env_ok) + 31 * msPerDay ≤ maxTime
  ∧ (5 # 100 <= Math_random_at env_ok (S (randomCount w0)))%Q
  ∧ ∃ w1 w2,
      Scanner.handler env_ok w0 = (Return (), w1)
      ∧ processExecutionEvent env_ok
          (mkRecord "msg-1" (MessageBody (task_request env_ok p1 "uuid-0"))) w1
        = (Return (), w2)
      ∧ plansTable w2 !! plan_key p1 = Some (with_schedule ACTIVE (T / 1000 + 604800) T p1).
Proof.
  assert (H1 : JsParse.parseInt (batch_size_setting env_ok) = Some 25) by reflexivity.
  assert (H2 : 1 ≤ 25) by lia.
  assert (H3 : keys_agree w0) by apply keys_agree_world_of.
  assert (H4 : ∀ req, sendMessage_fault env_ok req = None) by (intros; reflexivity).
  assert (H5 : ∀ entry, putEvents_fault env_ok entry = None) by (intros; reflexivity).
  assert (H6 : ∃ items, handler_query env_ok w0 = (Return items, w0) ∧ p1 ∈ items).
  { exists [p1]. split; [vm_compute; reflexivity | by left]. }
  assert (H7 : ∀ m, JsParse.parseInt (max_retries_setting env_ok) = Some m → 1 ≤ m)
    by (intros m Hm; vm_compute in Hm; injection Hm as <-; lia).
  assert (H8 : exchangeClient w0 = Some demo_client) by reflexivity.
  assert (H9 : ∀ count, transactionsTable w0 !! (plan_userId p1, uuidv4_at env_ok count) = None)
    by (intros count; apply lookup_empty).
  assert (H10 : plan_frequency p1 ∈ [DAILY; WEEKLY; BIWEEKLY; MONTHLY]) by (right; by left).
  assert (H11 : Z.abs (Date_now env_ok) + 31 * msPerDay ≤ maxTime) by (vm_compute; discriminate).
  assert (H12 : (5 # 100 <= Math_random_at env_ok (S (randomCount w0)))%Q)
    by (vm_compute; discriminate).
  destruct (scan_then_execute_returns_the_plan_to_active env_ok env_ok w0 25 p1 "uuid-0" "msg-1"
              demo_client H1 H2 H3 H4 H5 H6 H7 H8 H5 H9 H10 H11 H12)
    as (w1 & w2 & next & Hscan & _ & _ & _ & Hexec & Hnext & _ & Hrow & _).
  split; [exact H1 | split; [exact H3 | split; [exact H6 | split; [exact H8 |]]]].
  split; [exact H9 | split; [exact H10 | split; [exact H11 | split; [exact H12 |]]]].
  exists w1, w2. split; [exact Hscan | split; [exact Hexec |]].
  rewrite Hrow. vm_compute in Hnext. injection Hnext as <-. reflexivity.
Defined.

End RoundTripExamples.

